(** * StarCluster [awsutils.py]: the EC2/S3 helper classes

    A shallow embedding of [starcluster/awsutils.py] (classes [EasyAWS],
    [EasyEC2], [EasyS3]) and the properties of its image-deletion workflow
    ([remove_image] / [remove_image_files]), of the image accessors and of
    the lazily created connection.

    The methods are Python methods that mutate [self], call the boto
    library and log.  They are embedded in a small monad [M] that threads
    the object and the remote service's state, records every call made to
    boto, every log line and every printed line in a trace, and yields an
    [outcome]: a returned value, a raised exception, or [OutOfFuel] for a
    recursion that has not returned within the given depth. *)

From Stdlib Require Import String Ascii List Bool Arith Lia.
From Stdlib Require Import DecimalString Sorted Permutation.
Import ListNotations.
Open Scope string_scope.
Open Scope list_scope.

(** ** Python string operations used by the module *)

Module PyStr.

(** [s.startswith(p)] *)
Fixpoint startswith (s p : string) : bool :=
  match p, s with
  | EmptyString, _ => true
  | String _ _, EmptyString => false
  | String a p', String b s' => Ascii.eqb a b && startswith s' p'
  end.

(** [len(s)] *)
Definition len (s : string) : nat := String.length s.

(** [s.split(sep)[0]] for a non-empty [sep]: the text of [s] before the
    first occurrence of [sep], all of [s] when [sep] does not occur. *)
Fixpoint split_head (s sep : string) : string :=
  if startswith s sep then EmptyString
  else match s with
       | EmptyString => EmptyString
       | String c s' => String c (split_head s' sep)
       end.

(** ['/' in s] *)
Fixpoint has_slash (s : string) : bool :=
  match s with
  | EmptyString => false
  | String c s' => Ascii.eqb c "/" || has_slash s'
  end.

(** [os.path.basename(p)] (posixpath): [p[p.rfind('/')+1:]], the text
    after the last ['/'], all of [p] when it has none. *)
Fixpoint basename (p : string) : string :=
  match p with
  | EmptyString => EmptyString
  | String c p' =>
      if has_slash p' then basename p'
      else if Ascii.eqb c "/" then p' else p
  end.

(** [s.endswith(suffix)] *)
Fixpoint endswith (s suffix : string) : bool :=
  String.eqb s suffix ||
  match s with
  | EmptyString => false
  | String _ s' => endswith s' suffix
  end.

(** [s[:len(s)-len(suffix)]] when [s] ends with [suffix], else [s]: the
    string with that suffix stripped.  The module itself never strips a
    suffix; this is the operation the documentation of the image files
    speaks of, kept apart from [split_head]. *)
Fixpoint strip_suffix (s suffix : string) : string :=
  if String.eqb s suffix then EmptyString
  else match s with
       | EmptyString => EmptyString
       | String c s' =>
           if endswith s' suffix then String c (strip_suffix s' suffix)
           else s
       end.

End PyStr.

(** ** Data model *)

(** A boto connection object.  Connections are compared by identity in
    Python ([is None]); the number stands for that identity. *)
Definition Conn := nat.

(** The two boto entry points stored as [connection_authenticator]:
    [boto.connect_ec2] and [boto.connect_s3]. *)
Inductive service := EC2 | S3.

(** [boto.ec2.image.Image], with the attributes the module reads. *)
Record Image := mkImage {
  id : string;
  location : string
}.

(** [boto.s3.bucket.Bucket] *)
Record Bucket := mkBucket { bucket_name : string }.

(** [boto.s3.key.Key]: a storage object, named by its bucket and its key. *)
Record Key := mkKey {
  key_bucket : string;
  key_name : string
}.

(** The keyword arguments [get_all_images] is called with. *)
Inductive image_query :=
| ImageIds (image_ids : list string)   (* get_all_images(image_ids=[...]) *)
| Owners (owners : list string).       (* get_all_images(owners=[...])    *)

(** Exceptions raised while the module runs. *)
Inductive exn :=
| TypeError (msg : string)
| NameError (name : string)
| AttributeError (msg : string)
| IndexError
| BotoError (msg : string).   (* an exception raised inside boto *)

Inductive level := DEBUG | INFO | ERROR.

(** What an execution does that is visible from outside: the calls made to
    boto, the lines logged through [starcluster.logger.log], the lines
    printed. *)
Inductive event :=
| Authenticate (svc : service) (access_key secret_key : string)
| GetAllImages (c : Conn) (q : image_query)
| GetBucket (c : Conn) (name : string)
| BucketList (b : Bucket) (prefix : string)
| KeyDelete (k : Key)
| DeregisterImage (c : Conn) (ami : string)
| Log (lvl : level) (msg : string)
| PrintKey (k : Key)                 (* print file *)
| PrintRemoving (k : Key).           (* print 'removing file %s' % file *)

(** The boto library and the services behind it are not part of the
    module: they are taken as a parameter.  A [Remote] is any state machine
    answering the calls the module makes; each answer is either an error
    message (boto raises) or a value. *)
Record Remote := mkRemote {
  rstate : Type;
  connect : service -> string -> string -> rstate -> (string + Conn) * rstate;
  get_all_images : Conn -> image_query -> rstate -> (string + list Image) * rstate;
  conn_get_bucket : Conn -> string -> rstate -> (string + Bucket) * rstate;
  bucket_list : Bucket -> string -> rstate -> (string + list Key) * rstate;
  key_delete : Key -> rstate -> (string + unit) * rstate;
  deregister_image : Conn -> string -> rstate -> (string + unit) * rstate
}.

(** The objects.  [EasyAWS.__init__] stores the credentials and the
    authenticator and sets [_conn] to [None]. *)
Record EasyAWS := mkEasyAWS {
  aws_access_key : string;
  aws_secret_access_key : string;
  connection_authenticator : service;
  _conn : option Conn
}.

Record EasyS3 := mkEasyS3 {
  s3_base : EasyAWS;
  s3_cache : bool
}.

(** [EasyEC2]; the fields [_instance_response], [_keypair_response] and
    [_security_group_response] are set to [None] by the constructor and
    are not touched by the methods embedded here. *)
Record EasyEC2 := mkEasyEC2 {
  ec2_base : EasyAWS;
  cache : bool;
  _images : option (list Image);
  s3 : EasyS3
}.

Definition EasyAWS_init (aws_access_key_id aws_secret_access_key : string)
    (connection_authenticator : service) : EasyAWS :=
  mkEasyAWS aws_access_key_id aws_secret_access_key connection_authenticator None.

Definition EasyS3_init (aws_access_key_id aws_secret_access_key : string)
    (cache : bool) : EasyS3 :=
  mkEasyS3 (EasyAWS_init aws_access_key_id aws_secret_access_key S3) cache.

Definition EasyEC2_init (aws_access_key_id aws_secret_access_key : string)
    (cache : bool) : EasyEC2 :=
  mkEasyEC2 (EasyAWS_init aws_access_key_id aws_secret_access_key EC2)
            cache None
            (EasyS3_init aws_access_key_id aws_secret_access_key cache).

Definition set_conn (o : EasyAWS) (c : Conn) : EasyAWS :=
  mkEasyAWS (aws_access_key o) (aws_secret_access_key o)
            (connection_authenticator o) (Some c).

Definition set_ec2_base (o : EasyEC2) (a : EasyAWS) : EasyEC2 :=
  mkEasyEC2 a (cache o) (_images o) (s3 o).

Definition set_s3_base (o : EasyEC2) (a : EasyAWS) : EasyEC2 :=
  mkEasyEC2 (ec2_base o) (cache o) (_images o) (mkEasyS3 a (s3_cache (s3 o))).

Definition set_images (o : EasyEC2) (imgs : list Image) : EasyEC2 :=
  mkEasyEC2 (ec2_base o) (cache o) (Some imgs) (s3 o).

(** ** The monad of method bodies *)

(** [OutOfFuel] is not an outcome of the Python code: it says that the
    run has been followed down to the allowed depth of recursion and has
    not come to an end there.  The module sets no limit of its own on that
    depth (the interpreter's own stack limit is not part of the model). *)
Inductive outcome (A : Type) :=
| Ok (a : A)          (* the call returned [a] *)
| Raise (e : exn)     (* the call raised [e] *)
| OutOfFuel.          (* the recursion is deeper than the fuel given *)

Arguments Ok {A} a.
Arguments Raise {A} e.
Arguments OutOfFuel {A}.

Section Methods.

Variable B : Remote.

Record world := mkWorld {
  self : EasyEC2;
  remote : rstate B
}.

Definition M (A : Type) : Type := world -> outcome A * world * list event.

Definition ret {A} (a : A) : M A := fun w => (Ok a, w, []).

Definition bind {A C} (m : M A) (f : A -> M C) : M C :=
  fun w =>
    match m w with
    | (Ok a, w1, t1) => let '(o, w2, t2) := f a w1 in (o, w2, t1 ++ t2)
    | (Raise e, w1, t1) => (Raise e, w1, t1)
    | (OutOfFuel, w1, t1) => (OutOfFuel, w1, t1)
    end.

Definition raise {A} (e : exn) : M A := fun w => (Raise e, w, []).

Definition out_of_fuel {A} : M A := fun w => (OutOfFuel, w, []).

(** [try: m  except IndexError: h] *)
Definition except_IndexError {A} (m : M A) (h : M A) : M A :=
  fun w =>
    match m w with
    | (Raise IndexError, w1, t1) => let '(o, w2, t2) := h w1 in (o, w2, t1 ++ t2)
    | r => r
    end.

Definition emit (e : event) : M unit := fun w => (Ok tt, w, [e]).

Definition get_self : M EasyEC2 := fun w => (Ok (self w), w, []).

Definition put_self (o : EasyEC2) : M unit :=
  fun w => (Ok tt, mkWorld o (remote w), []).

(** A call into boto: recorded in the trace, answered by the remote. *)
Definition call {A} (e : event) (op : rstate B -> (string + A) * rstate B) : M A :=
  fun w =>
    let '(r, rs) := op (remote w) in
    (match r with inl msg => Raise (BotoError msg) | inr a => Ok a end,
     mkWorld (self w) rs, [e]).

Definition outcome_of {A} (r : outcome A * world * list event) : outcome A :=
  fst (fst r).
Definition world_of {A} (r : outcome A * world * list event) : world :=
  snd (fst r).
Definition trace_of {A} (r : outcome A * world * list event) : list event :=
  snd r.

End Methods.

Arguments mkWorld {B} self remote.
Arguments self {B} w.
Arguments remote {B} w.
Arguments bind {B A C} m f.
Arguments except_IndexError {B A} m h.
Arguments call {B A} e op.
Arguments outcome_of {B A} r.
Arguments world_of {B A} r.
Arguments trace_of {B A} r.
Arguments ret {B A} a.
Arguments raise {B A} e.
Arguments out_of_fuel {B A}.
Arguments emit {B} e.
Arguments get_self {B}.
Arguments put_self {B} o.

Declare Scope py_scope.
Delimit Scope py_scope with py.
Notation "x <- m ;; k" := (bind m (fun x => k))
  (at level 61, m at next level, right associativity) : py_scope.
Notation "m ;; k" := (bind m (fun _ => k))
  (at level 61, right associativity) : py_scope.
Open Scope py_scope.

(** [log.debug], [log.info], [log.error] *)
Definition log_debug {B} (msg : string) : M B unit := emit (Log DEBUG msg).
Definition log_info {B} (msg : string) : M B unit := emit (Log INFO msg).
Definition log_error {B} (msg : string) : M B unit := emit (Log ERROR msg).

(** ** The methods of [EasyAWS], [EasyEC2] and [EasyS3] *)

Section EasyEC2.

Variable B : Remote.

(** [EasyAWS.conn] (a property).  The object it reads and writes is either
    the [EasyEC2] object itself or its [s3] attribute; [base] and
    [set_base] select which. *)
Definition EasyAWS_conn (base : EasyEC2 -> EasyAWS)
    (set_base : EasyEC2 -> EasyAWS -> EasyEC2) : M B Conn :=
  o <- get_self ;;
  match _conn (base o) with
  | None =>
      log_debug "creating self._conn" ;;
      c <- call (Authenticate (connection_authenticator (base o))
                   (aws_access_key (base o)) (aws_secret_access_key (base o)))
                (connect B (connection_authenticator (base o))
                   (aws_access_key (base o)) (aws_secret_access_key (base o))) ;;
      put_self (set_base o (set_conn (base o) c)) ;;
      ret c
  | Some c => ret c
  end.

(** [self.conn] on the [EasyEC2] object *)
Definition conn : M B Conn := EasyAWS_conn ec2_base set_ec2_base.

(** [self.s3.conn] *)
Definition s3_conn : M B Conn :=
  EasyAWS_conn (fun o => s3_base (s3 o)) set_s3_base.

(** [EasyEC2.registered_images] (a property).  The test
    [not self.cache or self._images is None] is the [None] branch of the
    match: the images are fetched when caching is off, and when it is on
    and nothing is stored yet; otherwise the stored list is returned. *)
Definition registered_images : M B (list Image) :=
  o <- get_self ;;
  match (if negb (cache o) then None else _images o) with
  | None =>
      c <- conn ;;
      imgs <- call (GetAllImages c (Owners ["self"]))
                   (get_all_images B c (Owners ["self"])) ;;
      o' <- get_self ;;
      put_self (set_images o' imgs) ;;
      ret imgs
  | Some imgs => ret imgs
  end.

(** [EasyEC2.get_registered_image]; the result [None] is Python's [None],
    returned when the loop ends without a match. *)
Definition get_registered_image (image_id : string) : M B (option Image) :=
  if negb (PyStr.startswith image_id "ami") || negb (Nat.eqb (PyStr.len image_id) 12)
  then raise (TypeError ("invalid AMI name/id requested: " ++ image_id)%string)
  else
    images <- registered_images ;;
    ret (find (fun image => String.eqb (id image) image_id) images).

(** [l[0]] *)
Definition index0 {A} (l : list A) : M B A :=
  match l with
  | [] => raise IndexError
  | x :: _ => ret x
  end.

(** [EasyEC2.get_image] *)
Definition get_image (image_id : string) : M B (option Image) :=
  except_IndexError
    (c <- conn ;;
     r <- call (GetAllImages c (ImageIds [image_id]))
               (get_all_images B c (ImageIds [image_id])) ;;
     image <- index0 r ;;
     ret (Some image))
    (ret None).

(** [EasyS3.get_bucket], called on [self.s3] *)
Definition s3_get_bucket (bucketname : string) : M B Bucket :=
  c <- s3_conn ;;
  call (GetBucket c bucketname) (conn_get_bucket B c bucketname).

(** The key prefix [get_image_files] lists with. *)
Definition image_prefix (image : Image) : string :=
  PyStr.split_head (PyStr.basename (location image)) ".manifest.xml".

(** [EasyEC2.get_image_files] *)
Definition get_image_files (image_id : string) : M B (list Key) :=
  image <- get_image image_id ;;
  match image with
  | None => raise (AttributeError "'NoneType' object has no attribute 'location'")
  | Some image =>
      let bucketname := PyStr.split_head (location image) "/" in
      bucket <- s3_get_bucket bucketname ;;
      files <- call (BucketList bucket (image_prefix image))
                    (bucket_list B bucket (image_prefix image)) ;;
      ret files
  end.

(** [for file in files: body(file)] *)
Fixpoint for_each {A} (files : list A) (body : A -> M B unit) : M B unit :=
  match files with
  | [] => ret tt
  | file :: rest => body file ;; for_each rest body
  end.

(** [file.delete()] *)
Definition delete (file : Key) : M B unit :=
  call (KeyDelete file) (key_delete B file).

(** [EasyEC2.remove_image_files].  The method calls itself; [fuel] bounds
    the depth of these recursive calls, and a recursive call made with no
    fuel left is [OutOfFuel].  The unused local
    [bucket = os.path.dirname(image.location)] is a pure string computation
    and is left out. *)
Fixpoint remove_image_files (fuel : nat) (image_name : string) (pretend : bool)
    {struct fuel} : M B unit :=
  image <- get_image image_name ;;
  match image with
  | None => log_error ("cannot remove AMI " ++ image_name)%string
  | Some image =>
      files <- get_image_files image_name ;;
      for_each files (fun file =>
        if pretend then emit (PrintKey file)
        else (emit (PrintRemoving file) ;; delete file)) ;;
      (* recursive double check *)
      files <- get_image_files image_name ;;
      if negb (Nat.eqb (length files) 0) then
        if pretend then
          log_info "Not all files deleted, would recurse...exiting"
        else
          (log_info "Not all files deleted, recursing..." ;;
           match fuel with
           | O => out_of_fuel
           | S fuel' => remove_image_files fuel' image_name pretend
           end)
      else ret tt
  end.

(** The global name [imageid], which the module never binds: reading it
    raises [NameError]. *)
Definition imageid : M B string := raise (NameError "imageid").

(** The decorator [print_timing] comes from [starcluster.utils], which is
    not among the sources.  It is taken to run the decorated function and
    hand back its result or its exception; the line it logs about the
    elapsed time is not recorded. *)
Definition print_timing {A} (f : M B A) : M B A := f.

(** [EasyEC2.remove_image] *)
Definition remove_image (fuel : nat) (image_name : string) (pretend : bool)
    : M B unit :=
  print_timing (
    image <- get_image image_name ;;
    match image with
    | None => log_error ("AMI " ++ image_name ++ " does not exist")%string
    | Some image =>
        (if pretend then
           (name <- imageid ;;
            log_info ("Pretending to remove AMI: " ++ name)%string)
         else log_info ("Removing AMI: " ++ image_name)%string) ;;
        (* first remove image files *)
        log_info "Removing image files..." ;;
        remove_image_files fuel image_name pretend ;;
        (* then deregister ami *)
        let ami := id image in
        if pretend then
          log_info ("Would run deregister_image for ami: " ++ ami ++ ")")%string
        else
          (log_info ("Deregistering ami: " ++ ami)%string ;;
           c <- conn ;;
           call (DeregisterImage c ami) (deregister_image B c ami))
    end).

End EasyEC2.

(** ** Classifying the events of a trace *)

Definition is_delete (e : event) : bool :=
  match e with KeyDelete _ => true | _ => false end.

Definition is_deregister (e : event) : bool :=
  match e with DeregisterImage _ _ => true | _ => false end.

(** The calls that change what the services hold. *)
Definition mutating (e : event) : bool := is_delete e || is_deregister e.

(** ** A concrete remote: images and buckets held in lists *)

Module Cloud.

(** Modelled from the spec: the compute and storage services reached
    through boto are outside the repository; this instance follows the
    collaborator contracts of the spec (ComputeAPI [listImages] and
    [deregisterImage], StorageAPI [getBucket], [Bucket.list(prefix)] and
    [StorageObject.delete()]).  [deletes_lost] simulates a store in
    permanent failure: delete requests are answered and have no effect. *)
Record state := mk {
  images : list Image;
  buckets : list (string * list string);   (* bucket name, keys in listing order *)
  deletes_lost : bool
}.

Fixpoint lookup (name : string) (bs : list (string * list string))
    : option (list string) :=
  match bs with
  | [] => None
  | (n, ks) :: bs' => if String.eqb n name then Some ks else lookup name bs'
  end.

Fixpoint remove_key (k : Key) (bs : list (string * list string))
    : list (string * list string) :=
  match bs with
  | [] => []
  | (n, ks) :: bs' =>
      if String.eqb n (key_bucket k)
      then (n, filter (fun x => negb (String.eqb x (key_name k))) ks) :: bs'
      else (n, ks) :: remove_key k bs'
  end.

(** One connection object per service; connecting does not touch the
    images or the buckets. *)
Definition handle (svc : service) : Conn :=
  match svc with
  | EC2 => 0
  | S3 => 1
  end.

Definition connect (svc : service) (access_key secret_key : string) (st : state)
    : (string + Conn) * state :=
  (inr (handle svc), st).

Definition select (q : image_query) (imgs : list Image) : list Image :=
  match q with
  | ImageIds ids => filter (fun i => existsb (String.eqb (id i)) ids) imgs
  | Owners _ => imgs
  end.

Definition get_all_images (c : Conn) (q : image_query) (st : state)
    : (string + list Image) * state :=
  (inr (select q (images st)), st).

Definition get_bucket (c : Conn) (name : string) (st : state)
    : (string + Bucket) * state :=
  match lookup name (buckets st) with
  | Some _ => (inr (mkBucket name), st)
  | None => (inl "S3ResponseError: 404 Not Found", st)
  end.

Definition keys_with_prefix (name prefix : string) (ks : list string) : list Key :=
  map (mkKey name) (filter (fun k => PyStr.startswith k prefix) ks).

Definition list (b : Bucket) (prefix : string) (st : state)
    : (string + list Key) * state :=
  match lookup (bucket_name b) (buckets st) with
  | Some ks => (inr (keys_with_prefix (bucket_name b) prefix ks), st)
  | None => (inl "S3ResponseError: 404 Not Found", st)
  end.

Definition delete (k : Key) (st : state) : (string + unit) * state :=
  if deletes_lost st then (inr tt, st)
  else (inr tt, mk (images st) (remove_key k (buckets st)) (deletes_lost st)).

Definition deregister (c : Conn) (ami : string) (st : state)
    : (string + unit) * state :=
  (inr tt,
   mk (filter (fun i => negb (String.eqb (id i) ami)) (images st))
      (buckets st) (deletes_lost st)).

Definition remote : Remote :=
  mkRemote state connect get_all_images get_bucket list delete deregister.

(** A freshly constructed [EasyEC2] object facing the services in state [st]. *)
Definition fresh (st : state) : world remote :=
  @mkWorld remote (EasyEC2_init "AKID" "SECRET" false) st.

End Cloud.

(** ** Trace predicates *)

(** Every event [m] emits, from whatever world it starts, satisfies [P]. *)
Definition emits_only {B A} (P : event -> bool) (m : M B A) : Prop :=
  forall w, forallb P (trace_of (m w)) = true.

Definition quiet (e : event) : bool := negb (mutating e).

Definition not_deregister (e : event) : bool := negb (is_deregister e).


(** ** The two connection providers and the life of an object *)

(** An [EasyEC2] object holds two [EasyAWS] objects with a connection of
    their own: itself, towards the compute service, and [self.s3], towards
    the storage service. *)
Inductive provider := ComputeSide | StorageSide.

Definition base_of (p : provider) : EasyEC2 -> EasyAWS :=
  match p with
  | ComputeSide => ec2_base
  | StorageSide => fun o => s3_base (s3 o)
  end.

Definition set_base_of (p : provider) : EasyEC2 -> EasyAWS -> EasyEC2 :=
  match p with
  | ComputeSide => set_ec2_base
  | StorageSide => set_s3_base
  end.

(** [conn] read on either object. *)
Definition conn_of (B : Remote) (p : provider) : M B Conn :=
  EasyAWS_conn B (base_of p) (set_base_of p).

(** The authenticator each of them is constructed with. *)
Definition service_of (p : provider) : service :=
  match p with
  | ComputeSide => EC2
  | StorageSide => S3
  end.

Definition service_eqb (a b : service) : bool :=
  match a, b with
  | EC2, EC2 | S3, S3 => true
  | _, _ => false
  end.

(** A call of the authenticator [svc]. *)
Definition authenticates (svc : service) (e : event) : bool :=
  match e with
  | Authenticate s _ _ => service_eqb s svc
  | _ => false
  end.

Definition no_auth (svc : service) (e : event) : bool :=
  negb (authenticates svc e).

(** The number of times the authenticator [svc] is called in a trace. *)
Definition count_auth (svc : service) (t : list event) : nat :=
  length (filter (authenticates svc) t).

(** The object is as its constructor wired it, and provider [p] has its
    handle [c] stored. *)
Definition holds (p : provider) (c : Conn) (o : EasyEC2) : Prop :=
  (forall q, connection_authenticator (base_of q o) = service_of q)
  /\ _conn (base_of p o) = Some c.

(** Started from an object satisfying [J], [m] leaves an object satisfying
    [J] and emits only events satisfying [P]. *)
Definition maintains {B A} (J : EasyEC2 -> Prop) (P : event -> bool) (m : M B A)
    : Prop :=
  forall w, J (self w) ->
            J (self (world_of (m w))) /\ forallb P (trace_of (m w)) = true.

(** What a caller can do with the object between two reads of [conn]. *)
Inductive method :=
| Read_conn (p : provider)
| Read_registered_images
| Call_get_registered_image (image_id : string)
| Call_get_image (image_id : string)
| Call_get_image_files (image_id : string)
| Call_get_bucket (bucketname : string)
| Call_remove_image_files (fuel : nat) (image_name : string) (pretend : bool)
| Call_remove_image (fuel : nat) (image_name : string) (pretend : bool).

Definition invoke (B : Remote) (m : method) : M B unit :=
  match m with
  | Read_conn p => conn_of B p ;; ret tt
  | Read_registered_images => registered_images B ;; ret tt
  | Call_get_registered_image image_id => get_registered_image B image_id ;; ret tt
  | Call_get_image image_id => get_image B image_id ;; ret tt
  | Call_get_image_files image_id => get_image_files B image_id ;; ret tt
  | Call_get_bucket bucketname => s3_get_bucket B bucketname ;; ret tt
  | Call_remove_image_files fuel image_name pretend =>
      remove_image_files B fuel image_name pretend
  | Call_remove_image fuel image_name pretend =>
      remove_image B fuel image_name pretend
  end.

(** A sequence of such uses; an exception or an unfinished recursion ends
    one use and the caller goes on with the next. *)
Fixpoint lifetime (B : Remote) (ms : list method) (w : world B)
    : world B * list event :=
  match ms with
  | [] => (w, [])
  | m :: ms' =>
      let r := invoke B m w in
      let '(w', t') := lifetime B ms' (world_of r) in
      (w', trace_of r ++ t')
  end.

(** ** The files of an image, as documented *)

(** The documentation describes the files of an image as the objects of
    its bucket whose key starts with the basename of the manifest path with
    the suffix [.manifest.xml] stripped.  [documented_image_files] follows
    those words; [get_image_files] is the code. *)
Definition documented_prefix (image : Image) : string :=
  PyStr.strip_suffix (PyStr.basename (location image)) ".manifest.xml".

Definition documented_image_files (st : Cloud.state) (image : Image) : list Key :=
  let bucketname := PyStr.split_head (location image) "/" in
  match Cloud.lookup bucketname (Cloud.buckets st) with
  | Some ks => Cloud.keys_with_prefix bucketname (documented_prefix image) ks
  | None => []
  end.

(** The image the compute service answers with for an identifier. *)
Definition found (st : Cloud.state) (image_id : string) : option Image :=
  hd_error (Cloud.select (ImageIds [image_id]) (Cloud.images st)).

(** The image is registered under [image_id] and its bucket holds the
    keys [ks]. *)
Definition registered_with (image_id : string) (image : Image) (ks : list string)
    (st : Cloud.state) : Prop :=
  found st image_id = Some image
  /\ Cloud.lookup (PyStr.split_head (location image) "/") (Cloud.buckets st) = Some ks.

(** The number of [delete] calls in a trace. *)
Definition count_deletes (t : list event) : nat := length (filter is_delete t).

(** ** Scenarios *)

Module Scenario.

Definition ami : string := "ami-12345678".

(** One registered image with a manifest and two parts, next to a file of
    another image. *)
Definition st : Cloud.state :=
  Cloud.mk [mkImage ami "mybucket/img.manifest.xml"]
           [("mybucket", ["img.manifest.xml"; "img.part.0"; "img.part.1"; "other.part.0"])]
           false.

(** The same image after its files are gone. *)
Definition st_no_files : Cloud.state :=
  Cloud.mk [mkImage ami "mybucket/img.manifest.xml"]
           [("mybucket", ["other.part.0"])] false.

(** The same services in permanent failure. *)
Definition st_stuck : Cloud.state :=
  Cloud.mk (Cloud.images st) (Cloud.buckets st) true.

(** An image whose name itself contains [.manifest.xml]. *)
Definition st_twice : Cloud.state :=
  Cloud.mk [mkImage ami "mybucket/img.manifest.xml.manifest.xml"]
           [("mybucket", ["img.manifest.xml.manifest.xml";
                          "img.manifest.xml.part.0"; "img.part.0"])]
           false.

(** A complete removal of the image, and what it does before it
    deregisters. *)
Definition removal : outcome unit * world Cloud.remote * list event :=
  remove_image Cloud.remote 1 ami false (Cloud.fresh st).

Definition before_deregister : list event := removelast (trace_of removal).

End Scenario.

(** ** Runs that come to an end *)

(** From whatever world it starts, [m] returns or raises: it is never
    left recursing. *)
Definition finishes {B A} (m : M B A) : Prop :=
  forall w, outcome_of (m w) <> OutOfFuel.

(** ** A store that refuses deletes *)

Module Locked.

(** Modelled from the spec: the services of [Cloud], with a storage
    service that answers every [StorageObject.delete()] with an error. *)
Definition delete (k : Key) (st : Cloud.state) : (string + unit) * Cloud.state :=
  (inl "S3ResponseError: 403 Forbidden", st).

Definition remote : Remote :=
  mkRemote Cloud.state Cloud.connect Cloud.get_all_images Cloud.get_bucket
           Cloud.list delete Cloud.deregister.

Definition fresh (st : Cloud.state) : world remote :=
  @mkWorld remote (EasyEC2_init "AKID" "SECRET" false) st.

End Locked.

(** ** More scenarios *)

Module Scenario2.

(** An object constructed with caching on, facing the services of the
    scenario. *)
Definition caching : world Cloud.remote :=
  @mkWorld Cloud.remote (EasyEC2_init "AKID" "SECRET" true) Scenario.st.

(** The services after somebody else has deregistered everything. *)
Definition emptied : Cloud.state := Cloud.mk [] [] false.

(** Two registrations that carry the same identifier. *)
Definition st_dup : Cloud.state :=
  Cloud.mk [mkImage "ami-aaaaaaaa" "b/x.manifest.xml";
            mkImage Scenario.ami "b/first.manifest.xml";
            mkImage Scenario.ami "b/second.manifest.xml"]
           [("b", [])] false.

End Scenario2.

(** ** More of Python's strings *)

Module PyList.

(** [s.split(sep)] for a non-empty [sep], read from the left: [cur] is the
    piece being read and [skip] the number of characters of a separator
    still to pass over. *)
Fixpoint split_from (sep : string) (skip : nat) (cur : string) (s : string)
    : list string :=
  match s with
  | EmptyString => [cur]
  | String c s' =>
      match skip with
      | S n => split_from sep n cur s'
      | O =>
          if PyStr.startswith s sep
          then cur :: split_from sep (PyStr.len sep - 1) EmptyString s'
          else split_from sep 0 (cur ++ String c EmptyString)%string s'
      end
  end.

Definition split (s sep : string) : list string := split_from sep 0 EmptyString s.

(** [l[i]] outside of the monad: the element or [IndexError]. *)
Definition index {A} (l : list A) (i : nat) : exn + A :=
  match nth_error l i with
  | Some x => inr x
  | None => inl IndexError
  end.

(** [n] as [%d] prints it. *)
Definition str_of_nat (n : nat) : string :=
  NilEmpty.string_of_uint (Nat.to_uint n).

(** [c * n] for a one-character string [c]. *)
Fixpoint repeat_char (c : ascii) (n : nat) : string :=
  match n with
  | O => EmptyString
  | S n' => String c (repeat_char c n')
  end.

(** [l.sort(key=key)] for string keys: the sort is stable, so the result
    is the one insertion from the right gives, an element going in front of
    the first element whose key is not smaller than its own. *)
Fixpoint insert_by {A} (key : A -> string) (x : A) (l : list A) : list A :=
  match l with
  | [] => [x]
  | y :: l' =>
      if String.ltb (key y) (key x) then y :: insert_by key x l'
      else x :: y :: l'
  end.

Fixpoint sort_by {A} (key : A -> string) (l : list A) : list A :=
  match l with
  | [] => []
  | x :: l' => insert_by key x (sort_by key l')
  end.

(** The newline character. *)
Definition nl : string := String (ascii_of_nat 10) EmptyString.

End PyList.

(** [EasyEC2.get_image_name]: the method reads nothing but its argument,
    so it is a function, to [IndexError] or the name. *)
Definition get_image_name (img : Image) : exn + string :=
  match PyList.index (PyList.split (location img) "/") 1 with
  | inl e => inl e
  | inr part => PyList.index (PyList.split part ".manifest.xml") 0
  end.

(** ** The rest of boto the module calls *)

(** [boto.ec2.zone.Zone], [boto.ec2.keypair.KeyPair],
    [boto.ec2.securitygroup.SecurityGroup] *)
Record Zone := mkZone { zone_name : string }.

Record KeyPair := mkKeyPair { keypair_name : string }.

Record SecurityGroup := mkSecurityGroup {
  group_name : string;
  group_description : string
}.

(** [boto.ec2.instance.Instance] with the attributes the module prints;
    an attribute can be [None].  ([inst_id] is the attribute [id].) *)
Record Instance := mkInstance {
  inst_id : option string;
  dns_name : option string;
  state : option string;
  private_ip_address : option string;
  ip_address : option string;
  placement : option string
}.

(** [boto.ec2.instance.Reservation] *)
Record Reservation := mkReservation { instances : list Instance }.

(** The two ways the module calls [SecurityGroup.authorize]. *)
Inductive grant :=
| IpGrant (ip_protocol : string) (from_port to_port : nat) (cidr_ip : string)
| GroupGrant (src_group : SecurityGroup).

(** A call that fails raises either the response error of its service
    ([boto.exception.EC2ResponseError], or the S3 one) or something else. *)
Inductive failure :=
| ResponseError (msg : string)
| OtherFailure (msg : string).

Definition failure_msg (f : failure) : string :=
  match f with
  | ResponseError msg => msg
  | OtherFailure msg => msg
  end.

(** The services, with the calls the methods below make on top of those of
    [Remote], and the attributes of boto's [Image] that the record [Image]
    does not carry: [architecture], [region.name] and [str(region)]. *)
Record Services := mkServices {
  core : Remote;
  conn_get_all_security_groups :
    Conn -> list string -> rstate core -> (failure + list SecurityGroup) * rstate core;
  conn_create_security_group :
    Conn -> string -> string -> rstate core -> (failure + SecurityGroup) * rstate core;
  sg_authorize :
    SecurityGroup -> grant -> rstate core -> (failure + unit) * rstate core;
  conn_get_all_zones :
    Conn -> list string -> rstate core -> (failure + list Zone) * rstate core;
  conn_get_all_key_pairs :
    Conn -> list string -> rstate core -> (failure + list KeyPair) * rstate core;
  conn_get_all_instances :
    Conn -> list string -> rstate core -> (failure + list Reservation) * rstate core;
  conn_terminate_instances :
    Conn -> list string -> rstate core -> (failure + unit) * rstate core;
  conn_check_bucket_exists :
    Conn -> string -> rstate core -> (failure + string) * rstate core;
  conn_list_bucket :
    Conn -> string -> rstate core -> (failure + list string) * rstate core;
  architecture : Image -> string;
  region_name : Image -> string;
  region_str : Image -> string
}.

(** The events of the methods below: those of the workflow, the lines
    printed, and the further calls. *)
Inductive xevent :=
| Core (e : event)
| Print (line : string)
| GetAllSecurityGroups (c : Conn) (groupnames : list string)
| CreateSecurityGroup (c : Conn) (name description : string)
| Authorize (sg : SecurityGroup) (g : grant)
| GetAllZones (c : Conn) (zones : list string)
| GetAllKeyPairs (c : Conn) (keynames : list string)
| GetAllInstances (c : Conn) (instance_ids : list string)
| TerminateInstances (c : Conn) (instance_ids : list string)
| CheckBucketExists (c : Conn) (bucket_name : string)
| ListBucket (c : Conn) (bucket_name : string).

Section MoreMonad.

Variable X : Services.

Definition MX (A : Type) : Type :=
  world (core X) -> outcome A * world (core X) * list xevent.

Definition xret {A} (a : A) : MX A := fun w => (Ok a, w, []).

Definition xbind {A C} (m : MX A) (f : A -> MX C) : MX C :=
  fun w =>
    match m w with
    | (Ok a, w1, t1) => let '(o, w2, t2) := f a w1 in (o, w2, t1 ++ t2)
    | (Raise e, w1, t1) => (Raise e, w1, t1)
    | (OutOfFuel, w1, t1) => (OutOfFuel, w1, t1)
    end.

Definition xraise {A} (e : exn) : MX A := fun w => (Raise e, w, []).

(** A method of the workflow, run among these. *)
Definition lift {A} (m : M (core X) A) : MX A :=
  fun w => let '(o, w1, t) := m w in (o, w1, map Core t).

Definition xemit (e : xevent) : MX unit := fun w => (Ok tt, w, [e]).

(** [print line] *)
Definition print (line : string) : MX unit := xemit (Print line).

(** A call into boto, outside of any [try]: whatever it raises goes up. *)
Definition xcall {A} (e : xevent)
    (op : rstate (core X) -> (failure + A) * rstate (core X)) : MX A :=
  fun w =>
    let '(r, rs) := op (remote w) in
    (match r with inl f => Raise (BotoError (failure_msg f)) | inr a => Ok a end,
     mkWorld (self w) rs, [e]).

(** A call into boto inside [try: ... except boto.exception.EC2ResponseError]:
    [None] says that the response error was raised and caught, so that the
    handler is to run; the other failures go up.  The [try] bodies also read
    [self.conn]; the authenticator sends no request to the service, and
    what it raises is taken not to be a response error. *)
Definition try_call {A} (e : xevent)
    (op : rstate (core X) -> (failure + A) * rstate (core X)) : MX (option A) :=
  fun w =>
    let '(r, rs) := op (remote w) in
    (match r with
     | inl (ResponseError _) => Ok None
     | inl (OtherFailure msg) => Raise (BotoError msg)
     | inr a => Ok (Some a)
     end,
     mkWorld (self w) rs, [e]).

(** [try: m  except IndexError: h] *)
Definition xexcept_IndexError {A} (m : MX A) (h : MX A) : MX A :=
  fun w =>
    match m w with
    | (Raise IndexError, w1, t1) => let '(o, w2, t2) := h w1 in (o, w2, t1 ++ t2)
    | r => r
    end.

(** [try: m  except: h], which catches every exception *)
Definition except_all {A} (m : MX A) (h : MX A) : MX A :=
  fun w =>
    match m w with
    | (Raise _, w1, t1) => let '(o, w2, t2) := h w1 in (o, w2, t1 ++ t2)
    | r => r
    end.

Definition xoutcome_of {A} (r : outcome A * world (core X) * list xevent)
    : outcome A := fst (fst r).
Definition xworld_of {A} (r : outcome A * world (core X) * list xevent)
    : world (core X) := snd (fst r).
Definition xtrace_of {A} (r : outcome A * world (core X) * list xevent)
    : list xevent := snd r.

End MoreMonad.

Arguments xret {X A} a.
Arguments xbind {X A C} m f.
Arguments xraise {X A} e.
Arguments lift {X A} m.
Arguments xemit {X} e.
Arguments print {X} line.
Arguments xcall {X A} e op.
Arguments try_call {X A} e op.
Arguments xexcept_IndexError {X A} m h.
Arguments except_all {X A} m h.
Arguments xoutcome_of {X A} r.
Arguments xworld_of {X A} r.
Arguments xtrace_of {X A} r.

Declare Scope x_scope.
Delimit Scope x_scope with x.
Notation "x <- m ;; k" := (xbind m (fun x => k))
  (at level 61, m at next level, right associativity) : x_scope.
Notation "m ;; k" := (xbind m (fun _ => k))
  (at level 61, right associativity) : x_scope.

(** ** The other methods of [EasyEC2] and [EasyS3] *)

Section MoreMethods.

Variable X : Services.

Open Scope x_scope.

(** [for x in l: body(x)] *)
Fixpoint xfor_each {A} (l : list A) (body : A -> MX X unit) : MX X unit :=
  match l with
  | [] => xret tt
  | x :: rest => body x ;; xfor_each rest body
  end.

(** A value computed outside of the monad, or the exception it gave. *)
Definition of_sum {A} (r : exn + A) : MX X A :=
  match r with
  | inl e => xraise e
  | inr a => xret a
  end.

(** [EasyEC2.get_zone] *)
Definition get_zone (zone : string) : MX X (option Zone) :=
  xexcept_IndexError
    (c <- lift (conn (core X)) ;;
     r <- xcall (GetAllZones c [zone]) (conn_get_all_zones X c [zone]) ;;
     z <- lift (index0 (core X) r) ;;
     xret (Some z))
    (xret None).

(** [EasyEC2.get_keypair] *)
Definition get_keypair (keypair : string) : MX X KeyPair :=
  c <- lift (conn (core X)) ;;
  r <- xcall (GetAllKeyPairs c [keypair]) (conn_get_all_key_pairs X c [keypair]) ;;
  lift (index0 (core X) r).

(** [EasyEC2.get_security_group] *)
Definition get_security_group (groupname : string) : MX X SecurityGroup :=
  c <- lift (conn (core X)) ;;
  r <- xcall (GetAllSecurityGroups c [groupname])
             (conn_get_all_security_groups X c [groupname]) ;;
  lift (index0 (core X) r).

(** [EasyEC2.get_instance]; the result [None] is the bare [return] of the
    handler. *)
Definition get_instance (instance_id : string) : MX X (option Instance) :=
  c <- lift (conn (core X)) ;;
  r <- try_call (GetAllInstances c [instance_id])
                (conn_get_all_instances X c [instance_id]) ;;
  match r with
  | Some res =>
      res0 <- lift (index0 (core X) res) ;;
      i <- lift (index0 (core X) (instances res0)) ;;
      xret (Some i)
  | None => xret None
  end.

(** [EasyEC2.get_all_instances]; the loop extends the list with the
    instances of each reservation in turn. *)
Definition get_all_instances (instance_ids : list string) : MX X (list Instance) :=
  c <- lift (conn (core X)) ;;
  reservations <- xcall (GetAllInstances c instance_ids)
                        (conn_get_all_instances X c instance_ids) ;;
  xret (fold_left (fun acc res => acc ++ instances res) reservations []).

(** [if not v: v = 'N/A'], for an attribute that is [None] or a string *)
Definition or_NA (v : option string) : string :=
  match v with
  | Some s => if String.eqb s "" then "N/A" else s
  | None => "N/A"
  end.

(** [EasyEC2.list_all_instances] *)
Definition list_all_instances : MX X unit :=
  instances <- get_all_instances [] ;;
  (match instances with
   | [] => lift (log_info "No instances found")
   | _ :: _ => xret tt
   end) ;;
  xfor_each instances (fun instance =>
    let id := or_NA (inst_id instance) in
    let dns_name := or_NA (dns_name instance) in
    let state := or_NA (state instance) in
    let private_ip := or_NA (private_ip_address instance) in
    let public_ip := or_NA (ip_address instance) in
    let zone := or_NA (placement instance) in
    print ("id: " ++ id)%string ;;
    print ("dns_name: " ++ dns_name)%string ;;
    print ("state: " ++ state)%string ;;
    print ("public ip: " ++ public_ip)%string ;;
    print ("private_ip: " ++ private_ip)%string ;;
    print ("zone: " ++ zone)%string ;;
    print "").

(** [EasyEC2.terminate_instances]; [None] is the default argument. *)
Definition terminate_instances (instances : option (list string)) : MX X unit :=
  match instances with
  | Some l =>
      c <- lift (conn (core X)) ;;
      xcall (TerminateInstances c l) (conn_terminate_instances X c l)
  | None => xret tt
  end.

(** [EasyEC2.get_or_create_group]; the result [None] is the [return None]
    of the handler. *)
Definition get_or_create_group (name description : string)
    (auth_ssh auth_group_traffic : bool) : MX X (option SecurityGroup) :=
  c <- lift (conn (core X)) ;;
  r <- try_call (GetAllSecurityGroups c [name])
                (conn_get_all_security_groups X c [name]) ;;
  match r with
  | Some groups =>
      sg <- lift (index0 (core X) groups) ;;
      xret (Some sg)
  | None =>
      if String.eqb name "" then xret None
      else
        lift (log_info ("Creating security group " ++ name ++ "...")%string) ;;
        c <- lift (conn (core X)) ;;
        sg <- xcall (CreateSecurityGroup c name description)
                    (conn_create_security_group X c name description) ;;
        (if auth_ssh
         then xcall (Authorize sg (IpGrant "tcp" 22 22 "0.0.0.0/0"))
                    (sg_authorize X sg (IpGrant "tcp" 22 22 "0.0.0.0/0"))
         else xret tt) ;;
        (if auth_group_traffic
         then xcall (Authorize sg (GroupGrant sg)) (sg_authorize X sg (GroupGrant sg))
         else xret tt) ;;
        xret (Some sg)
  end.

(** [EasyEC2.list_image_files], as its second definition in the class
    has it (the first one is overwritten by it). *)
Definition list_image_files (image_id : string) : MX X unit :=
  files <- lift (get_image_files (core X) image_id) ;;
  xfor_each files (fun file => print (key_name file)).

(** [EasyEC2.__print_header] *)
Definition print_header (msg : string) : MX X unit :=
  print msg ;;
  print (PyList.repeat_char "-" (PyStr.len msg)).

(** The loop of [EasyEC2.__list_images], from the value [counter]. *)
Fixpoint list_images_from (counter : nat) (imgs : list Image) : MX X unit :=
  match imgs with
  | [] => xret tt
  | image :: rest =>
      name <- of_sum (get_image_name image) ;;
      print ("[" ++ PyList.str_of_nat counter ++ "] " ++ id image ++ " "
             ++ region_name X image ++ " " ++ name)%string ;;
      list_images_from (S counter) rest
  end.

(** [EasyEC2.__list_images] *)
Definition list_images (msg : string) (imgs : list Image) : MX X unit :=
  print_header msg ;;
  list_images_from 0 imgs.

(** The local function [get_key] of [list_registered_images] *)
Definition get_key (obj : Image) : string :=
  (region_str X obj ++ " " ++ location obj)%string.

(** [EasyEC2.list_registered_images] *)
Definition list_registered_images : MX X unit :=
  images <- lift (registered_images (core X)) ;;
  let imgs_i386 :=
    PyList.sort_by get_key
      (filter (fun img => String.eqb (architecture X img) "i386") images) in
  let imgs_x86_64 :=
    PyList.sort_by get_key
      (filter (fun img => String.eqb (architecture X img) "x86_64") images) in
  list_images "Your 32bit Images:" imgs_i386 ;;
  list_images (PyList.nl ++ "Your 64bit Images:")%string imgs_x86_64 ;;
  print (PyList.nl ++ "total registered images: "
         ++ PyList.str_of_nat (length images))%string.

(** [EasyS3.bucket_exists], called on [self.s3] *)
Definition bucket_exists (bucket_name : string) : MX X bool :=
  c <- lift (s3_conn (core X)) ;;
  reason <- xcall (CheckBucketExists c bucket_name)
                  (conn_check_bucket_exists X c bucket_name) ;;
  let exists_ := String.eqb reason "OK" in
  (if negb exists_
   then lift (log_error ("bucket " ++ bucket_name ++ " does not exist")%string)
   else xret tt) ;;
  xret exists_.

(** [EasyS3.list_bucket]; [bucket.list()] lists with the empty prefix. *)
Definition list_bucket (bucketname : string) : MX X unit :=
  bucket <- lift (s3_get_bucket (core X) bucketname) ;;
  files <- lift (call (BucketList bucket "") (bucket_list (core X) bucket "")) ;;
  xfor_each files (fun file => print (key_name file)).

(** The global name [bucket_name], which the module never binds (the
    parameter of [get_bucket_files] is [bucketname]). *)
Definition global_bucket_name : MX X string := xraise (NameError "bucket_name").

(** [EasyS3.get_bucket_files]; the result [None] is the bare [return] of
    the handler. *)
Definition get_bucket_files (bucketname : string) : MX X (option (list string)) :=
  r <- except_all
         (bucket <- lift (s3_get_bucket (core X) bucketname) ;; xret (Some bucket))
         (xret None) ;;
  match r with
  | None => xret None
  | Some bucket =>
      bucket_name <- global_bucket_name ;;
      exists_ <- bucket_exists bucket_name ;;
      if exists_ then
        c <- lift (s3_conn (core X)) ;;
        entries <- xcall (ListBucket c bucket_name) (conn_list_bucket X c bucket_name) ;;
        xret (Some entries)
      else xret (Some [])
  end.

(** [EasyS3.show_bucket_files]; iterating over [None] raises [TypeError]. *)
Definition show_bucket_files (bucket_name : string) : MX X unit :=
  exists_ <- bucket_exists bucket_name ;;
  if exists_ then
    files <- get_bucket_files bucket_name ;;
    match files with
    | None => xraise (TypeError "'NoneType' object is not iterable")
    | Some l => xfor_each l (fun file => print file)
    end
  else xret tt.

End MoreMethods.

(** ** Classifying the further events *)

Definition is_print (e : xevent) : bool :=
  match e with Print _ => true | _ => false end.

Definition is_create_group (e : xevent) : bool :=
  match e with CreateSecurityGroup _ _ _ => true | _ => false end.

Definition is_authorize (e : xevent) : bool :=
  match e with Authorize _ _ => true | _ => false end.

(** The calls, among all these, that change what the services hold. *)
Definition xmutating (e : xevent) : bool :=
  match e with
  | Core e' => mutating e'
  | CreateSecurityGroup _ _ _ | Authorize _ _ | TerminateInstances _ _ => true
  | _ => false
  end.

(** The lines a trace prints, in order. *)
Fixpoint printed (t : list xevent) : list string :=
  match t with
  | [] => []
  | Print line :: t' => line :: printed t'
  | _ :: t' => printed t'
  end.

(** ** A concrete instance of the further services *)

Module Cloud2.

(** Modelled from the spec: the further calls answered from fixed tables,
    on top of the services of [Cloud]; groups and instances the tables do
    not hold are answered with the response error of the service. *)
Definition groups : list SecurityGroup :=
  [mkSecurityGroup "default" "default group"].

Definition zones : list Zone := [mkZone "us-east-1a"; mkZone "us-east-1b"].

Definition key_pairs : list KeyPair := [mkKeyPair "mykey"].

Definition master : Instance :=
  mkInstance (Some "i-0001") (Some "ec2-1.example.com") (Some "running")
             (Some "10.0.0.1") (Some "54.0.0.1") (Some "us-east-1a").

(** An instance that is being started: most attributes are not set yet. *)
Definition pending : Instance :=
  mkInstance (Some "i-0002") (Some "") (Some "pending") None None (Some "us-east-1a").

Definition reservations : list Reservation :=
  [mkReservation [master; pending]; mkReservation []].

Definition get_all_security_groups (c : Conn) (names : list string) (st : Cloud.state)
    : (failure + list SecurityGroup) * Cloud.state :=
  if forallb (fun n => existsb (fun g => String.eqb (group_name g) n) groups) names
  then (inr (filter (fun g => existsb (String.eqb (group_name g)) names) groups), st)
  else (inl (ResponseError "InvalidGroup.NotFound"), st).

Definition create_security_group (c : Conn) (name description : string)
    (st : Cloud.state) : (failure + SecurityGroup) * Cloud.state :=
  (inr (mkSecurityGroup name description), st).

Definition authorize (sg : SecurityGroup) (g : grant) (st : Cloud.state)
    : (failure + unit) * Cloud.state :=
  (inr tt, st).

Definition get_all_zones (c : Conn) (names : list string) (st : Cloud.state)
    : (failure + list Zone) * Cloud.state :=
  (inr (filter (fun z => existsb (String.eqb (zone_name z)) names) zones), st).

Definition get_all_key_pairs (c : Conn) (names : list string) (st : Cloud.state)
    : (failure + list KeyPair) * Cloud.state :=
  (inr (filter (fun k => existsb (String.eqb (keypair_name k)) names) key_pairs), st).

Definition get_all_instances (c : Conn) (ids : list string) (st : Cloud.state)
    : (failure + list Reservation) * Cloud.state :=
  match ids with
  | [] => (inr reservations, st)
  | _ :: _ =>
      if forallb (fun i => String.eqb i "i-0001") ids
      then (inr [mkReservation [master]], st)
      else (inl (ResponseError "InvalidInstanceID.NotFound"), st)
  end.

Definition terminate (c : Conn) (ids : list string) (st : Cloud.state)
    : (failure + unit) * Cloud.state :=
  (inr tt, st).

Definition check_bucket_exists (c : Conn) (name : string) (st : Cloud.state)
    : (failure + string) * Cloud.state :=
  match Cloud.lookup name (Cloud.buckets st) with
  | Some _ => (inr "OK", st)
  | None => (inr "Not Found", st)
  end.

Definition list_bucket (c : Conn) (name : string) (st : Cloud.state)
    : (failure + list string) * Cloud.state :=
  match Cloud.lookup name (Cloud.buckets st) with
  | Some ks => (inr ks, st)
  | None => (inl (ResponseError "NoSuchBucket"), st)
  end.

(** The architecture is read off the identifier in this instance: images
    [ami-32...] are 32 bit, images [ami-64...] are 64 bit, the others are
    of another kind. *)
Definition architecture (img : Image) : string :=
  if PyStr.startswith (id img) "ami-32" then "i386"
  else if PyStr.startswith (id img) "ami-64" then "x86_64"
  else "other".

Definition region_name (img : Image) : string := "us-east-1".

Definition region_str (img : Image) : string := "RegionInfo:us-east-1".

Definition services : Services :=
  mkServices Cloud.remote get_all_security_groups create_security_group authorize
             get_all_zones get_all_key_pairs get_all_instances terminate
             check_bucket_exists list_bucket architecture region_name region_str.

(** Registered images of three kinds, out of order. *)
Definition st_images : Cloud.state :=
  Cloud.mk [mkImage "ami-64000002" "zeta/z.manifest.xml";
            mkImage "ami-32000001" "beta/b.manifest.xml";
            mkImage "ami-99000001" "other/o.manifest.xml";
            mkImage "ami-32000002" "alpha/a.manifest.xml";
            mkImage "ami-64000001" "gamma/g.manifest.xml"]
           [] false.

(** The same with a 32 bit image whose location has no ['/']. *)
Definition st_bad_location : Cloud.state :=
  Cloud.mk [mkImage "ami-32000001" "beta/b.manifest.xml";
            mkImage "ami-32000002" "alpha.manifest.xml"]
           [] false.

End Cloud2.

(** A call that asks the storage service about a bucket's existence or
    for its entries. *)
Definition asks_bucket (e : xevent) : bool :=
  match e with
  | CheckBucketExists _ _ | ListBucket _ _ => true
  | _ => false
  end.

(** ** The lines of a listing *)

(** The order [list_registered_images] sorts by. *)
Definition key_le (X : Services) (a b : Image) : Prop :=
  String.leb (get_key X a) (get_key X b) = true.

(** The line of an image in a listing, under the number [counter]. *)
Definition listing_line (X : Services) (counter : nat) (image : Image) : string :=
  ("[" ++ PyList.str_of_nat counter ++ "] " ++ id image ++ " "
   ++ region_name X image ++ " "
   ++ match get_image_name image with inr name => name | inl _ => "" end)%string.

(** The lines of the images [imgs], numbered from [counter] on. *)
Fixpoint numbered (X : Services) (counter : nat) (imgs : list Image) : list string :=
  match imgs with
  | [] => []
  | image :: rest => listing_line X counter image :: numbered X (S counter) rest
  end.

(** The location of the image can be split at a ['/']. *)
Definition has_name (image : Image) : bool := PyStr.has_slash (location image).

(** The architectures that are listed. *)
Definition listed (X : Services) (image : Image) : bool :=
  String.eqb (architecture X image) "i386"
  || String.eqb (architecture X image) "x86_64".

(** The seven lines [list_all_instances] prints for an instance. *)
Definition instance_lines (instance : Instance) : list string :=
  [("id: " ++ or_NA (inst_id instance))%string;
   ("dns_name: " ++ or_NA (dns_name instance))%string;
   ("state: " ++ or_NA (state instance))%string;
   ("public ip: " ++ or_NA (ip_address instance))%string;
   ("private_ip: " ++ or_NA (private_ip_address instance))%string;
   ("zone: " ++ or_NA (placement instance))%string;
   ""].

(** A line logged at level [INFO]. *)
Definition not_info (e : event) : bool :=
  match e with
  | Log INFO _ => false
  | _ => true
  end.

(** The storage objects a trace prints with [print file], in order. *)
Fixpoint printed_keys (t : list event) : list Key :=
  match t with
  | [] => []
  | PrintKey k :: t' => k :: printed_keys t'
  | _ :: t' => printed_keys t'
  end.

(** ** Services that cannot be reached *)

Module Offline.

(** Modelled from the spec: the services of [Cloud] with an authenticator
    that raises for whatever credentials it is given. *)
Definition connect (svc : service) (access_key secret_key : string)
    (st : Cloud.state) : (string + Conn) * Cloud.state :=
  (inl "NoAuthHandlerFound", st).

Definition remote : Remote :=
  mkRemote Cloud.state connect Cloud.get_all_images Cloud.get_bucket
           Cloud.list Cloud.delete Cloud.deregister.

Definition fresh (st : Cloud.state) : world remote :=
  @mkWorld remote (EasyEC2_init "AKID" "SECRET" false) st.

End Offline.

(** * Properties *)

(** ** The scenario, run *)

Example split_head_bucket :
  PyStr.split_head "mybucket/img.manifest.xml" "/" = "mybucket".
Proof. reflexivity. Qed.

Example basename_nested :
  PyStr.basename "mybucket/dir/img.manifest.xml" = "img.manifest.xml".
Proof. reflexivity. Qed.

Example prefixes_of_a_doubled_name :
  image_prefix (mkImage Scenario.ami "mybucket/img.manifest.xml.manifest.xml") = "img"
  /\ documented_prefix (mkImage Scenario.ami "mybucket/img.manifest.xml.manifest.xml")
     = "img.manifest.xml".
Proof. split; reflexivity. Qed.

Example removal_returns : outcome_of Scenario.removal = Ok tt.
Proof. reflexivity. Qed.

Example removal_mutations :
  filter mutating (trace_of Scenario.removal)
  = [KeyDelete (mkKey "mybucket" "img.manifest.xml");
     KeyDelete (mkKey "mybucket" "img.part.0");
     KeyDelete (mkKey "mybucket" "img.part.1");
     DeregisterImage 0 Scenario.ami].
Proof. reflexivity. Qed.

Example removal_leaves :
  remote (world_of Scenario.removal)
  = Cloud.mk [] [("mybucket", ["other.part.0"])] false.
Proof. reflexivity. Qed.

Example dry_run_of_the_files :
  filter (fun e => match e with PrintKey _ => true | _ => false end)
    (trace_of (remove_image_files Cloud.remote 0 Scenario.ami true
                 (Cloud.fresh Scenario.st)))
  = [PrintKey (mkKey "mybucket" "img.manifest.xml");
     PrintKey (mkKey "mybucket" "img.part.0");
     PrintKey (mkKey "mybucket" "img.part.1")]
  /\ outcome_of (remove_image_files Cloud.remote 0 Scenario.ami true
                   (Cloud.fresh Scenario.st))
     = Ok tt.
Proof. split; reflexivity. Qed.

Example missing_bucket_raises :
  outcome_of (get_image_files Cloud.remote Scenario.ami
                (Cloud.fresh (Cloud.mk (Cloud.images Scenario.st) [] false)))
  = Raise (BotoError "S3ResponseError: 404 Not Found").
Proof. reflexivity. Qed.

(** ** Running the monad *)

Section Run.

Variable B : Remote.

Lemma bind_ok {A C} (m : M B A) (f : A -> M B C) w a w1 t1 :
  m w = (Ok a, w1, t1) ->
  bind m f w = (outcome_of (f a w1), world_of (f a w1), t1 ++ trace_of (f a w1)).
Proof.
  intros H. unfold bind. rewrite H.
  destruct (f a w1) as [[o w2] t2]. reflexivity.
Qed.

Lemma bind_run {A C} (m : M B A) (f : A -> M B C) w a w1 t1 o w2 t2 :
  m w = (Ok a, w1, t1) -> f a w1 = (o, w2, t2) -> bind m f w = (o, w2, t1 ++ t2).
Proof. intros H1 H2. unfold bind. rewrite H1, H2. reflexivity. Qed.

Lemma bind_raise {A C} (m : M B A) (f : A -> M B C) w e w1 t1 :
  m w = (Raise e, w1, t1) -> bind m f w = (Raise e, w1, t1).
Proof. intros H. unfold bind. rewrite H. reflexivity. Qed.

Lemma bind_out_of_fuel {A C} (m : M B A) (f : A -> M B C) w w1 t1 :
  m w = (OutOfFuel, w1, t1) -> bind m f w = (OutOfFuel, w1, t1).
Proof. intros H. unfold bind. rewrite H. reflexivity. Qed.

Lemma call_ok {A} e (op : rstate B -> (string + A) * rstate B) w a rs :
  op (remote w) = (inr a, rs) -> call e op w = (Ok a, mkWorld (self w) rs, [e]).
Proof. intros H. unfold call. rewrite H. reflexivity. Qed.

Lemma call_raise {A} e (op : rstate B -> (string + A) * rstate B) w msg rs :
  op (remote w) = (inl msg, rs) ->
  call e op w = (Raise (BotoError msg), mkWorld (self w) rs, [e]).
Proof. intros H. unfold call. rewrite H. reflexivity. Qed.

Lemma run_eta {A} (r : outcome A * world B * list event) :
  r = (outcome_of r, world_of r, trace_of r).
Proof. destruct r as [[o w] t]. reflexivity. Qed.

(** *** [emits_only] through the combinators *)

Lemma emits_only_ret {A} P (a : A) : emits_only P (@ret B A a).
Proof. intros w. reflexivity. Qed.

Lemma emits_only_raise {A} P e : emits_only P (@raise B A e).
Proof. intros w. reflexivity. Qed.

Lemma emits_only_out_of_fuel {A} P : emits_only P (@out_of_fuel B A).
Proof. intros w. reflexivity. Qed.

Lemma emits_only_get_self P : emits_only P (@get_self B).
Proof. intros w. reflexivity. Qed.

Lemma emits_only_put_self P o : emits_only P (@put_self B o).
Proof. intros w. reflexivity. Qed.

Lemma emits_only_emit (P : event -> bool) e : P e = true -> emits_only P (@emit B e).
Proof. intros H w. simpl. rewrite H. reflexivity. Qed.

Lemma emits_only_call {A} (P : event -> bool) e
    (op : rstate B -> (string + A) * rstate B) :
  P e = true -> emits_only P (call e op).
Proof.
  intros H w. unfold call. destruct (op (remote w)) as [r rs].
  simpl. rewrite H. reflexivity.
Qed.

Lemma emits_only_bind {A C} P (m : M B A) (f : A -> M B C) :
  emits_only P m -> (forall a, emits_only P (f a)) -> emits_only P (bind m f).
Proof.
  intros Hm Hf w. unfold bind. specialize (Hm w).
  destruct (m w) as [[[a | e |] w1] t1]; simpl in *; auto.
  specialize (Hf a w1). destruct (f a w1) as [[o w2] t2]; simpl in *.
  rewrite forallb_app, Hm, Hf. reflexivity.
Qed.

Lemma emits_only_except {A} P (m h : M B A) :
  emits_only P m -> emits_only P h -> emits_only P (except_IndexError m h).
Proof.
  intros Hm Hh w. unfold except_IndexError. specialize (Hm w).
  destruct (m w) as [[[a | e |] w1] t1]; simpl in *; auto.
  destruct e; auto.
  specialize (Hh w1). destruct (h w1) as [[o w2] t2]; simpl in *.
  rewrite forallb_app, Hm, Hh. reflexivity.
Qed.

Lemma emits_only_for_each {A} P (files : list A) (body : A -> M B unit) :
  (forall file, emits_only P (body file)) -> emits_only P (for_each B files body).
Proof.
  intros Hb. induction files as [| file rest IH]; simpl.
  - apply emits_only_ret.
  - apply emits_only_bind; auto.
Qed.

End Run.

Arguments bind_ok {B A C} m f {w a w1 t1} _.
Arguments call_ok {B A} e op {w a rs} _.
Arguments call_raise {B A} e op {w msg rs} _.
Arguments bind_raise {B A C} m f {w e w1 t1} _.
Arguments bind_out_of_fuel {B A C} m f {w w1 t1} _.

Create HintDb trace.

#[local] Hint Resolve emits_only_ret emits_only_raise emits_only_out_of_fuel
  emits_only_get_self emits_only_put_self emits_only_emit emits_only_call
  emits_only_bind emits_only_except emits_only_for_each : trace.

(** Splits a method body along its binds and closes the leaves. *)
Ltac trace_step :=
  match goal with
  | |- emits_only _ (bind _ _) => apply emits_only_bind; [| intros ?]
  | |- emits_only _ (except_IndexError _ _) => apply emits_only_except
  | |- emits_only _ (for_each _ _ _) => apply emits_only_for_each; intros ?
  | |- emits_only _ (match ?x with _ => _ end) => destruct x
  | |- emits_only _ (emit _) => apply emits_only_emit; reflexivity
  | |- emits_only _ (log_debug _) => apply emits_only_emit; reflexivity
  | |- emits_only _ (log_info _) => apply emits_only_emit; reflexivity
  | |- emits_only _ (log_error _) => apply emits_only_emit; reflexivity
  | |- emits_only _ (call _ _) => apply emits_only_call; reflexivity
  | |- emits_only _ _ => solve [auto with trace]
  end.

Ltac trace_tac := repeat trace_step.

Section Frames.

Variable B : Remote.

(** The accessors make no call that changes what the services hold. *)

Lemma conn_quiet base set_base : emits_only quiet (EasyAWS_conn B base set_base).
Proof. unfold EasyAWS_conn. trace_tac. Qed.

Lemma get_image_quiet image_id : emits_only quiet (get_image B image_id).
Proof.
  unfold get_image, conn, index0. pose proof conn_quiet. trace_tac.
Qed.

Lemma get_image_files_quiet image_id : emits_only quiet (get_image_files B image_id).
Proof.
  unfold get_image_files, s3_get_bucket, s3_conn.
  pose proof conn_quiet. pose proof get_image_quiet. trace_tac.
Qed.

(** A dry run of the file phase deletes nothing. *)
Lemma remove_image_files_pretend_quiet fuel image_name :
  emits_only quiet (remove_image_files B fuel image_name true).
Proof.
  pose proof get_image_quiet. pose proof get_image_files_quiet.
  destruct fuel; simpl; trace_tac.
Qed.

(** The file phase never deregisters, whatever its mode. *)
Lemma remove_image_files_not_deregister fuel image_name pretend :
  emits_only not_deregister (remove_image_files B fuel image_name pretend).
Proof.
  assert (Hc : forall base set_base,
             emits_only not_deregister (EasyAWS_conn B base set_base))
    by (intros; unfold EasyAWS_conn; trace_tac).
  assert (Hg : forall i, emits_only not_deregister (get_image B i))
    by (intros; unfold get_image, conn, index0; trace_tac).
  assert (Hf : forall i, emits_only not_deregister (get_image_files B i))
    by (intros; unfold get_image_files, s3_get_bucket, s3_conn; trace_tac).
  induction fuel as [| fuel IH]; simpl; unfold delete; trace_tac.
Qed.

End Frames.

(** ** The dry run *)

(** C2: whatever the image identifier, the state of the object and the
    answers of the services, [remove_image(id, pretend=True)] makes no
    [delete] call on a storage object and no [deregister_image] call,
    whether it returns, raises or is still recursing. *)
Theorem remove_image_pretend_never_mutates (B : Remote) fuel image_name w :
  forall e, In e (trace_of (remove_image B fuel image_name true w)) ->
            is_delete e = false /\ is_deregister e = false.
Proof.
  assert (H : emits_only quiet (remove_image B fuel image_name true)).
  { pose proof (get_image_quiet B). pose proof (remove_image_files_pretend_quiet B).
    unfold remove_image, print_timing, imageid. trace_tac. }
  intros e He. specialize (H w). rewrite forallb_forall in H.
  apply H in He. unfold quiet, mutating in He.
  destruct (is_delete e), (is_deregister e); simpl in He; auto; discriminate.
Qed.

Lemma remove_image_pretend_never_mutates_witness :
  is_delete (GetAllImages 0 (ImageIds ["ami-00000000"])) = false
  /\ is_deregister (GetAllImages 0 (ImageIds ["ami-00000000"])) = false.
Proof.
  apply (remove_image_pretend_never_mutates Cloud.remote 2 "ami-00000000"
           (Cloud.fresh Scenario.st)).
  simpl. right. right. left. reflexivity.
Defined.

(** C10: when the lookup finds the image, [remove_image(id, pretend=True)]
    raises [NameError] for the unbound name [imageid]; nothing happens
    after the lookup, so neither the file phase nor the deregister step is
    reached and the dry run does not return normally. *)
Theorem remove_image_pretend_name_error (B : Remote) fuel image_name w image w1 t :
  get_image B image_name w = (Ok (Some image), w1, t) ->
  remove_image B fuel image_name true w = (Raise (NameError "imageid"), w1, t).
Proof.
  intros H. unfold remove_image, print_timing.
  rewrite (bind_ok _ _ H). simpl. rewrite app_nil_r. reflexivity.
Qed.

Lemma remove_image_pretend_name_error_witness :
  remove_image Cloud.remote 3 Scenario.ami true (Cloud.fresh Scenario.st)
  = (Raise (NameError "imageid"),
     world_of (get_image Cloud.remote Scenario.ami (Cloud.fresh Scenario.st)),
     [Log DEBUG "creating self._conn"; Authenticate EC2 "AKID" "SECRET";
      GetAllImages 0 (ImageIds [Scenario.ami])]).
Proof.
  apply (remove_image_pretend_name_error Cloud.remote 3 Scenario.ami
           (Cloud.fresh Scenario.st))
    with (image := mkImage Scenario.ami "mybucket/img.manifest.xml").
  reflexivity.
Defined.

(** ** The image is not found *)

(** C8: when the lookup yields no image, [remove_image] logs the error
    "AMI ... does not exist" and returns, and [remove_image_files] logs
    "cannot remove AMI ..." and returns; the world is left as the lookup
    left it and the trace is that of the lookup followed by the error line,
    with no delete and no deregister call. *)
Theorem remove_image_not_found (B : Remote) fuel image_name pretend w w1 t :
  get_image B image_name w = (Ok None, w1, t) ->
  remove_image B fuel image_name pretend w
    = (Ok tt, w1, t ++ [Log ERROR ("AMI " ++ image_name ++ " does not exist")%string])
  /\ remove_image_files B fuel image_name pretend w
    = (Ok tt, w1, t ++ [Log ERROR ("cannot remove AMI " ++ image_name)%string])
  /\ forallb quiet t = true.
Proof.
  intros H. split; [| split].
  - unfold remove_image, print_timing. rewrite (bind_ok _ _ H). reflexivity.
  - destruct fuel; simpl; rewrite (bind_ok _ _ H); reflexivity.
  - pose proof (get_image_quiet B image_name w) as Hq. rewrite H in Hq. exact Hq.
Qed.

Lemma remove_image_not_found_witness :
  remove_image Cloud.remote 2 "ami-00000000" false (Cloud.fresh Scenario.st)
  = (Ok tt,
     world_of (get_image Cloud.remote "ami-00000000" (Cloud.fresh Scenario.st)),
     [Log DEBUG "creating self._conn"; Authenticate EC2 "AKID" "SECRET";
      GetAllImages 0 (ImageIds ["ami-00000000"]);
      Log ERROR "AMI ami-00000000 does not exist"]).
Proof.
  exact (proj1 (remove_image_not_found Cloud.remote 2 "ami-00000000" false
                  (Cloud.fresh Scenario.st)
                  (world_of (get_image Cloud.remote "ami-00000000"
                               (Cloud.fresh Scenario.st)))
                  [Log DEBUG "creating self._conn";
                   Authenticate EC2 "AKID" "SECRET";
                   GetAllImages 0 (ImageIds ["ami-00000000"])]
                  eq_refl)).
Defined.

(** ** The accessors *)

Lemma get_image_answer (B : Remote) image_id w c w1 t imgs rs :
  conn B w = (Ok c, w1, t) ->
  get_all_images B c (ImageIds [image_id]) (remote w1) = (inr imgs, rs) ->
  get_image B image_id w
  = (Ok (hd_error imgs), mkWorld (self w1) rs,
     t ++ [GetAllImages c (ImageIds [image_id])]).
Proof.
  intros Hc Hr. unfold get_image, except_IndexError.
  rewrite (bind_ok _ _ Hc), (bind_ok _ _ (call_ok _ _ Hr)).
  destruct imgs as [| image rest]; simpl; rewrite ?app_nil_r; reflexivity.
Qed.

(** C5: once the connection is there, [get_image] returns the first image
    of the answer when the remote lookup answers with a non-empty list, and
    returns [None], without raising, when it answers with the empty list. *)
Theorem get_image_found_or_none (B : Remote) image_id w c w1 t imgs rs :
  conn B w = (Ok c, w1, t) ->
  get_all_images B c (ImageIds [image_id]) (remote w1) = (inr imgs, rs) ->
  get_image B image_id w
  = (Ok (match imgs with [] => None | image :: _ => Some image end),
     mkWorld (self w1) rs,
     t ++ [GetAllImages c (ImageIds [image_id])]).
Proof.
  intros Hc Hr. rewrite (get_image_answer B image_id w c w1 t imgs rs Hc Hr).
  destruct imgs; reflexivity.
Qed.

Lemma get_image_found_or_none_witness :
  get_image Cloud.remote Scenario.ami (Cloud.fresh Scenario.st)
  = (Ok (Some (mkImage Scenario.ami "mybucket/img.manifest.xml")),
     mkWorld (self (world_of (conn Cloud.remote (Cloud.fresh Scenario.st))))
             (remote (world_of (conn Cloud.remote (Cloud.fresh Scenario.st)))),
     [Log DEBUG "creating self._conn"; Authenticate EC2 "AKID" "SECRET";
      GetAllImages 0 (ImageIds [Scenario.ami])])
  /\ outcome_of (get_image Cloud.remote "ami-00000000" (Cloud.fresh Scenario.st))
     = Ok None.
Proof.
  split.
  - exact (get_image_found_or_none Cloud.remote Scenario.ami
             (Cloud.fresh Scenario.st) 0
             (world_of (conn Cloud.remote (Cloud.fresh Scenario.st)))
             [Log DEBUG "creating self._conn"; Authenticate EC2 "AKID" "SECRET"]
             [mkImage Scenario.ami "mybucket/img.manifest.xml"]
             (remote (world_of (conn Cloud.remote (Cloud.fresh Scenario.st))))
             eq_refl eq_refl).
  - rewrite (get_image_found_or_none Cloud.remote "ami-00000000"
               (Cloud.fresh Scenario.st) 0
               (world_of (conn Cloud.remote (Cloud.fresh Scenario.st)))
               [Log DEBUG "creating self._conn"; Authenticate EC2 "AKID" "SECRET"]
               []
               (remote (world_of (conn Cloud.remote (Cloud.fresh Scenario.st))))
               eq_refl eq_refl).
    reflexivity.
Defined.

(** C4: an identifier that does not start with [ami] or whose length is
    not 12 makes [get_registered_image] raise [TypeError] at once: the
    world is untouched and the trace is empty, so no call reaches the
    services.  An identifier of the right shape never produces that error;
    when the registered images hold no image of that identifier the result
    is [None], a normal return. *)
Theorem get_registered_image_invalid_shape (B : Remote) image_id w :
  PyStr.startswith image_id "ami" = false \/ PyStr.len image_id <> 12 ->
  get_registered_image B image_id w
    = (Raise (TypeError ("invalid AMI name/id requested: " ++ image_id)%string), w, [])
  /\ (forall image_id' w' msg,
        PyStr.startswith image_id' "ami" = true -> PyStr.len image_id' = 12 ->
        outcome_of (get_registered_image B image_id' w') <> Raise (TypeError msg))
  /\ (forall image_id' w' imgs w1 t,
        PyStr.startswith image_id' "ami" = true -> PyStr.len image_id' = 12 ->
        registered_images B w' = (Ok imgs, w1, t) ->
        (forall image, In image imgs -> id image <> image_id') ->
        get_registered_image B image_id' w' = (Ok None, w1, t)).
Proof.
  intros Hbad. split; [| split].
  - unfold get_registered_image.
    destruct Hbad as [Hp | Hl].
    + rewrite Hp. reflexivity.
    + apply Nat.eqb_neq in Hl. rewrite Hl, orb_true_r. reflexivity.
  - intros image_id' w' msg Hp Hl. unfold get_registered_image.
    rewrite Hp, Hl. simpl.
    unfold registered_images, bind, get_self, conn, EasyAWS_conn, bind,
      log_debug, emit, call, put_self, ret, get_self.
    simpl.
    destruct (if negb (cache (self w')) then None else _images (self w'));
      simpl; try discriminate.
    destruct (_conn (ec2_base (self w'))); simpl.
    + destruct (get_all_images B _ _ _) as [[msg' | imgs] rs]; simpl; discriminate.
    + destruct (connect B _ _ _ _) as [[msg' | c] rs]; simpl; try discriminate.
      destruct (get_all_images B _ _ _) as [[msg' | imgs] rs']; simpl; discriminate.
  - intros image_id' w' imgs w1 t Hp Hl Hr Hno. unfold get_registered_image.
    rewrite Hp, Hl. simpl. rewrite (bind_ok _ _ Hr). simpl. rewrite app_nil_r.
    replace (find _ imgs) with (@None Image); [reflexivity |].
    symmetry. clear Hr.
    induction imgs as [| image rest IH]; simpl; [reflexivity |].
    destruct (String.eqb_spec (id image) image_id') as [E | _].
    + exfalso. apply (Hno image); [left; reflexivity | exact E].
    + apply IH. intros image0 Hin. apply Hno. right. exact Hin.
Qed.

Lemma get_registered_image_invalid_shape_witness :
  get_registered_image Cloud.remote "img-12345678" (Cloud.fresh Scenario.st)
  = (Raise (TypeError "invalid AMI name/id requested: img-12345678"),
     Cloud.fresh Scenario.st, []).
Proof.
  exact (proj1 (get_registered_image_invalid_shape Cloud.remote "img-12345678"
                  (Cloud.fresh Scenario.st) (or_introl eq_refl))).
Defined.

(** ** The lazily created connection *)

Section Connection.

Variable B : Remote.

Lemma base_set_base_same p o a : base_of p (set_base_of p o a) = a.
Proof. destruct p; reflexivity. Qed.

Lemma base_set_base_other p q o a :
  p <> q -> base_of p (set_base_of q o a) = base_of p o.
Proof. destruct p, q; intros H; try reflexivity; congruence. Qed.

(** With the handle stored, reading [conn] returns it and does nothing else. *)
Lemma conn_of_memo p c w :
  _conn (base_of p (self w)) = Some c -> conn_of B p w = (Ok c, w, []).
Proof.
  intros H. unfold conn_of, EasyAWS_conn, bind, get_self. rewrite H.
  reflexivity.
Qed.

(** Without it, the authenticator is called once, with the credentials
    given at construction. *)
Lemma conn_of_first p w :
  _conn (base_of p (self w)) = None ->
  trace_of (conn_of B p w)
  = [Log DEBUG "creating self._conn";
     Authenticate (connection_authenticator (base_of p (self w)))
       (aws_access_key (base_of p (self w)))
       (aws_secret_access_key (base_of p (self w)))].
Proof.
  intros H. unfold conn_of, EasyAWS_conn, bind, get_self. rewrite H.
  unfold log_debug, emit, call, put_self, ret. simpl.
  destruct (connect B _ _ _ (remote w)) as [[msg | c] rs]; reflexivity.
Qed.

(** A read that returns a handle leaves it stored, and leaves the
    authenticators as they were. *)
Lemma conn_of_stores p c w w1 t :
  conn_of B p w = (Ok c, w1, t) ->
  _conn (base_of p (self w1)) = Some c
  /\ forall q, connection_authenticator (base_of q (self w1))
               = connection_authenticator (base_of q (self w)).
Proof.
  unfold conn_of, EasyAWS_conn, bind, get_self.
  destruct (_conn (base_of p (self w))) as [c0 |] eqn:E.
  - unfold ret. simpl. intros H. inversion H; subst. auto.
  - unfold log_debug, emit, call, put_self, ret. simpl.
    destruct (connect B _ _ _ (remote w)) as [[msg | c1] rs]; simpl;
      intros H; inversion H; subst.
    simpl. rewrite base_set_base_same. split; [reflexivity |].
    intros q. destruct p, q; reflexivity.
Qed.

(** *** No method unsets or replaces a stored handle *)

Lemma maintains_ret J P {A} (a : A) : maintains J P (@ret B A a).
Proof. intros w H. split; [exact H | reflexivity]. Qed.

Lemma maintains_raise J P {A} e : maintains J P (@raise B A e).
Proof. intros w H. split; [exact H | reflexivity]. Qed.

Lemma maintains_out_of_fuel J P {A} : maintains J P (@out_of_fuel B A).
Proof. intros w H. split; [exact H | reflexivity]. Qed.

Lemma maintains_emit J (P : event -> bool) e : P e = true -> maintains J P (@emit B e).
Proof. intros HP w H. split; [exact H |]. simpl. rewrite HP. reflexivity. Qed.

Lemma maintains_call J (P : event -> bool) {A} e
    (op : rstate B -> (string + A) * rstate B) :
  P e = true -> maintains J P (call e op).
Proof.
  intros HP w H. unfold call. destruct (op (remote w)) as [r rs].
  split; [exact H |]. simpl. rewrite HP. reflexivity.
Qed.

Lemma maintains_bind J P {A C} (m : M B A) (f : A -> M B C) :
  maintains J P m -> (forall a, maintains J P (f a)) -> maintains J P (bind m f).
Proof.
  intros Hm Hf w H. unfold bind. destruct (Hm w H) as [H1 H2].
  destruct (m w) as [[[a | e |] w1] t1]; simpl in *; auto.
  destruct (Hf a w1 H1) as [H3 H4].
  destruct (f a w1) as [[o w2] t2]; simpl in *.
  split; [exact H3 |]. rewrite forallb_app, H2, H4. reflexivity.
Qed.

Lemma maintains_except J P {A} (m h : M B A) :
  maintains J P m -> maintains J P h -> maintains J P (except_IndexError m h).
Proof.
  intros Hm Hh w H. unfold except_IndexError. destruct (Hm w H) as [H1 H2].
  destruct (m w) as [[[a | e |] w1] t1]; simpl in *; auto.
  destruct e; auto.
  destruct (Hh w1 H1) as [H3 H4].
  destruct (h w1) as [[o w2] t2]; simpl in *.
  split; [exact H3 |]. rewrite forallb_app, H2, H4. reflexivity.
Qed.

Lemma maintains_for_each J P {A} (files : list A) (body : A -> M B unit) :
  (forall file, maintains J P (body file)) -> maintains J P (for_each B files body).
Proof.
  intros Hb. induction files as [| file rest IH]; simpl.
  - apply maintains_ret.
  - apply maintains_bind; auto.
Qed.

End Connection.

Ltac maintains_step :=
  match goal with
  | |- maintains _ _ (bind _ _) => apply maintains_bind; [| intros ?]
  | |- maintains _ _ (except_IndexError _ _) => apply maintains_except
  | |- maintains _ _ (for_each _ _ _) => apply maintains_for_each; intros ?
  | |- maintains _ _ (match ?x with _ => _ end) => destruct x
  | |- maintains _ _ (ret _) => apply maintains_ret
  | |- maintains _ _ (raise _) => apply maintains_raise
  | |- maintains _ _ out_of_fuel => apply maintains_out_of_fuel
  | |- maintains _ _ (emit _) => apply maintains_emit; reflexivity
  | |- maintains _ _ (log_debug _) => apply maintains_emit; reflexivity
  | |- maintains _ _ (log_info _) => apply maintains_emit; reflexivity
  | |- maintains _ _ (log_error _) => apply maintains_emit; reflexivity
  | |- maintains _ _ (call _ _) => apply maintains_call; reflexivity
  | |- maintains _ _ _ => solve [auto]
  end.

Section Lifetime.

Variable B : Remote.
Variable p : provider.
Variable c : Conn.

Local Abbreviation J := (holds p c).
Local Abbreviation P := (no_auth (service_of p)).

Lemma maintains_conn_of q : maintains J P (conn_of B q).
Proof.
  intros w [Hw Hc].
  unfold conn_of, EasyAWS_conn, bind, get_self.
  destruct (_conn (base_of q (self w))) as [c0 |] eqn:E.
  - split; [split; assumption | reflexivity].
  - assert (Hpq : p <> q) by (intros ->; rewrite E in Hc; discriminate).
    unfold log_debug, emit, call, put_self, ret. simpl.
    rewrite (Hw q).
    destruct (connect B _ _ _ (remote w)) as [[msg | c1] rs]; simpl.
    + split; [split; assumption |].
      unfold no_auth. simpl. destruct p, q; try reflexivity; congruence.
    + split.
      * split.
        -- intros q'. rewrite <- (Hw q'). destruct q, q'; reflexivity.
        -- rewrite base_set_base_other; assumption.
      * unfold no_auth. simpl. destruct p, q; try reflexivity; congruence.
Qed.

Lemma maintains_registered_images : maintains J P (registered_images B).
Proof.
  intros w H. unfold registered_images.
  rewrite (bind_ok _ _ (eq_refl : get_self w = (Ok (self w), w, []))).
  cbv beta. unfold world_of at 1, trace_of at 1. cbn [fst snd app].
  destruct (if negb (cache (self w)) then None else _images (self w));
    [split; [exact H | reflexivity] |].
  destruct (maintains_conn_of ComputeSide w H) as [Hc Ht].
  change (conn_of B ComputeSide) with (conn B) in Hc, Ht.
  unfold bind. destruct (conn B w) as [[[c1 | e |] w1] t1]; simpl in *; auto.
  unfold call. destruct (get_all_images B _ _ _) as [[msg | imgs] rs]; simpl.
  - split; [exact Hc |]. rewrite forallb_app, Ht. reflexivity.
  - split.
    + destruct Hc as [Hw Hc]. split.
      * intros q. rewrite <- (Hw q). destruct q; reflexivity.
      * destruct p; exact Hc.
    + rewrite forallb_app, Ht. reflexivity.
Qed.

Lemma maintains_invoke m : maintains J P (invoke B m).
Proof.
  pose proof maintains_conn_of as Hc.
  pose proof maintains_registered_images as Hr.
  assert (Hg : forall i, maintains J P (get_image B i)).
  { intros i. unfold get_image, index0.
    pose proof (Hc ComputeSide) as Hc0.
    change (conn_of B ComputeSide) with (conn B) in Hc0.
    repeat maintains_step. }
  assert (Hb : forall n, maintains J P (s3_get_bucket B n)).
  { intros n. unfold s3_get_bucket.
    pose proof (Hc StorageSide) as Hc0.
    change (conn_of B StorageSide) with (s3_conn B) in Hc0.
    repeat maintains_step. }
  assert (Hf : forall i, maintains J P (get_image_files B i)).
  { intros i. unfold get_image_files. repeat maintains_step. }
  assert (Hrf : forall fuel i pr, maintains J P (remove_image_files B fuel i pr)).
  { induction fuel as [| fuel IH]; intros i pr; simpl; unfold delete;
      repeat maintains_step. }
  destruct m; simpl.
  - repeat maintains_step.
  - repeat maintains_step.
  - unfold get_registered_image. repeat maintains_step.
  - repeat maintains_step.
  - repeat maintains_step.
  - repeat maintains_step.
  - auto.
  - unfold remove_image, print_timing, imageid.
    pose proof (Hc ComputeSide) as Hc0.
    change (conn_of B ComputeSide) with (conn B) in Hc0.
    repeat maintains_step.
Qed.

Lemma maintains_lifetime ms w :
  J (self w) ->
  J (self (fst (lifetime B ms w))) /\ forallb P (snd (lifetime B ms w)) = true.
Proof.
  revert w. induction ms as [| m ms IH]; intros w H; simpl.
  - split; [exact H | reflexivity].
  - destruct (maintains_invoke m w H) as [H1 H2].
    destruct (IH _ H1) as [H3 H4].
    destruct (lifetime B ms (world_of (invoke B m w))) as [w' t']; simpl in *.
    split; [exact H3 |]. rewrite forallb_app, H2, H4. reflexivity.
Qed.

End Lifetime.

Lemma count_auth_none svc t :
  forallb (no_auth svc) t = true -> count_auth svc t = 0.
Proof.
  unfold count_auth, no_auth. induction t as [| e t IH]; simpl; [reflexivity |].
  intros H. apply andb_true_iff in H. destruct H as [He Ht].
  apply negb_true_iff in He. rewrite He. auto.
Qed.

(** C9: the connection handle of either provider is created lazily.  The
    constructor only stores [None]; the first read of [conn] calls the
    provider's authenticator exactly once; and once a read has returned a
    handle, every later read, after any sequence of uses of the object,
    returns that same handle, leaves the world as it is and emits nothing,
    and none of those uses calls the provider's authenticator again. *)
Theorem conn_created_lazily_once (B : Remote) key secret cache_flag p rs :
  let o := EasyEC2_init key secret cache_flag in
  _conn (base_of p o) = None
  /\ count_auth (service_of p) (trace_of (conn_of B p (mkWorld o rs))) = 1
  /\ forall c w1 t,
       conn_of B p (mkWorld o rs) = (Ok c, w1, t) ->
       forall ms,
         conn_of B p (fst (lifetime B ms w1)) = (Ok c, fst (lifetime B ms w1), [])
         /\ count_auth (service_of p) (snd (lifetime B ms w1)) = 0.
Proof.
  intros o. split; [| split].
  - destruct p; reflexivity.
  - rewrite conn_of_first by (destruct p; reflexivity).
    destruct p; reflexivity.
  - intros c w1 t H ms.
    destruct (conn_of_stores B p c _ w1 t H) as [Hc Hw].
    assert (HJ : holds p c (self w1)).
    { split; [| exact Hc]. intros q. rewrite Hw. destruct q; reflexivity. }
    destruct (maintains_lifetime B p c ms w1 HJ) as [[_ H1] H2].
    split.
    + apply conn_of_memo. exact H1.
    + apply count_auth_none. exact H2.
Qed.

Lemma conn_created_lazily_once_witness :
  conn_of Cloud.remote ComputeSide
    (fst (lifetime Cloud.remote
            [Call_remove_image 2 Scenario.ami false; Read_conn StorageSide]
            (world_of (conn_of Cloud.remote ComputeSide (Cloud.fresh Scenario.st)))))
  = (Ok 0,
     fst (lifetime Cloud.remote
            [Call_remove_image 2 Scenario.ami false; Read_conn StorageSide]
            (world_of (conn_of Cloud.remote ComputeSide (Cloud.fresh Scenario.st)))),
     []).
Proof.
  exact (proj1 (proj2 (proj2 (conn_created_lazily_once Cloud.remote "AKID" "SECRET"
                                 false ComputeSide Scenario.st))
                  0 _ _ eq_refl
                  [Call_remove_image 2 Scenario.ami false; Read_conn StorageSide])).
Defined.

(** ** Files before the image record *)

Lemma no_deregister_split t evs1 c ami evs2 :
  forallb not_deregister t = true -> t <> evs1 ++ DeregisterImage c ami :: evs2.
Proof.
  intros H E. rewrite E, forallb_app in H. simpl in H.
  rewrite andb_false_r in H. discriminate.
Qed.

Lemma quiet_not_deregister t :
  forallb quiet t = true -> forallb not_deregister t = true.
Proof.
  induction t as [| e t IH]; simpl; [reflexivity |].
  intros H. apply andb_true_iff in H. destruct H as [He Ht].
  rewrite (IH Ht), andb_true_r.
  unfold quiet, mutating in He. unfold not_deregister.
  destruct (is_delete e), (is_deregister e); simpl in *; auto.
Qed.

Lemma deregister_last_split t x evs1 c ami evs2 :
  forallb not_deregister t = true ->
  t ++ [x] = evs1 ++ DeregisterImage c ami :: evs2 ->
  evs1 = t /\ evs2 = [] /\ x = DeregisterImage c ami.
Proof.
  revert evs1. induction t as [| e t IH]; intros evs1 H E.
  - destruct evs1 as [| e1 evs1]; simpl in E.
    + inversion E; subst. auto.
    + inversion E as [[E1 E2]]. destruct evs1; discriminate.
  - simpl in H. apply andb_true_iff in H. destruct H as [He Ht].
    destruct evs1 as [| e1 evs1]; simpl in E.
    + inversion E; subst. discriminate.
    + inversion E as [[E1 E2]]. subst e1.
      destruct (IH evs1 Ht E2) as (-> & -> & ->). auto.
Qed.

(** C3: when the trace of [remove_image(id, pretend=False)] contains a
    [deregister_image] call, that call is the last event of the trace and
    the only deregistration; before it the file phase [remove_image_files]
    has run and returned, and every [delete] call of the run belongs to
    that phase, the events around it being reads and log lines. *)
Theorem deletes_before_deregister (B : Remote) fuel image_name w evs1 c ami evs2 :
  trace_of (remove_image B fuel image_name false w)
    = evs1 ++ DeregisterImage c ami :: evs2 ->
  evs2 = []
  /\ forallb not_deregister evs1 = true
  /\ exists w0 w1 pre tf post,
       evs1 = pre ++ tf ++ post
       /\ remove_image_files B fuel image_name false w0 = (Ok tt, w1, tf)
       /\ forallb quiet pre = true /\ forallb quiet post = true.
Proof.
  unfold remove_image, print_timing.
  pose proof (get_image_quiet B image_name w) as Hq1.
  pose proof (quiet_not_deregister _ Hq1) as Hn1.
  destruct (get_image B image_name w) as [[[[image |] | e |] w1] t1] eqn:Hg;
    unfold trace_of in Hq1, Hn1; cbn [fst snd] in Hq1, Hn1.
  - rewrite (bind_ok _ _ Hg). cbv beta iota.
    rewrite (bind_ok _ _ (eq_refl : log_info _ w1 = (Ok tt, w1, [_]))).
    rewrite (bind_ok _ _ (eq_refl : log_info _ w1 = (Ok tt, w1, [_]))).
    pose proof (remove_image_files_not_deregister B fuel image_name false w1) as Hnd.
    destruct (remove_image_files B fuel image_name false w1)
      as [[[[] | e |] w2] tf] eqn:Hf;
      unfold trace_of in Hnd; cbn [fst snd] in Hnd.
    + rewrite (bind_ok _ _ Hf).
      rewrite (bind_ok _ _ (eq_refl : log_info _ w2 = (Ok tt, w2, [_]))).
      pose proof (conn_quiet B ec2_base set_ec2_base w2) as Hqc.
      fold (conn B) in Hqc.
      pose proof (quiet_not_deregister _ Hqc) as Hnc.
      destruct (conn B w2) as [[[c0 | e |] w3] tc] eqn:Hc;
        unfold trace_of in Hqc, Hnc; cbn [fst snd] in Hqc, Hnc.
      * rewrite (bind_ok _ _ Hc).
        unfold call. destruct (deregister_image B c0 (id image) (remote w3)) as [r rs].
        unfold trace_of. cbn [fst snd].
        set (L1 := Log INFO ("Removing AMI: " ++ image_name)%string).
        set (L2 := Log INFO "Removing image files...").
        set (L3 := Log INFO ("Deregistering ami: " ++ id image)%string).
        replace (t1 ++ [L1] ++ [L2] ++ tf ++ [L3] ++ tc ++ [DeregisterImage c0 (id image)])
          with (((t1 ++ [L1; L2]) ++ tf ++ ([L3] ++ tc)) ++ [DeregisterImage c0 (id image)])
          by (repeat rewrite <- app_assoc; reflexivity).
        intros E. apply deregister_last_split in E.
        -- destruct E as (-> & -> & _). split; [reflexivity |]. split.
           ++ rewrite !forallb_app, Hn1, Hnd, Hnc. reflexivity.
           ++ exists w1, w2, (t1 ++ [L1; L2]), tf, ([L3] ++ tc).
              split; [reflexivity |]. split; [exact Hf |].
              rewrite !forallb_app, Hq1, Hqc. split; reflexivity.
        -- rewrite !forallb_app, Hn1, Hnd, Hnc. reflexivity.
      * rewrite (bind_raise _ _ Hc). unfold trace_of. cbn [fst snd].
        intros E. exfalso. revert E. apply no_deregister_split.
        rewrite !forallb_app, Hn1, Hnd, Hnc. reflexivity.
      * rewrite (bind_out_of_fuel _ _ Hc). unfold trace_of. cbn [fst snd].
        intros E. exfalso. revert E. apply no_deregister_split.
        rewrite !forallb_app, Hn1, Hnd, Hnc. reflexivity.
    + rewrite (bind_raise _ _ Hf). unfold trace_of. cbn [fst snd].
      intros E. exfalso. revert E. apply no_deregister_split.
      rewrite !forallb_app, Hn1, Hnd. reflexivity.
    + rewrite (bind_out_of_fuel _ _ Hf). unfold trace_of. cbn [fst snd].
      intros E. exfalso. revert E. apply no_deregister_split.
      rewrite !forallb_app, Hn1, Hnd. reflexivity.
  - rewrite (bind_ok _ _ Hg). unfold trace_of. cbn [fst snd].
    intros E. exfalso. revert E. apply no_deregister_split.
    rewrite !forallb_app, Hn1. reflexivity.
  - rewrite (bind_raise _ _ Hg). unfold trace_of. cbn [fst snd].
    intros E. exfalso. revert E. apply no_deregister_split. exact Hn1.
  - rewrite (bind_out_of_fuel _ _ Hg). unfold trace_of. cbn [fst snd].
    intros E. exfalso. revert E. apply no_deregister_split. exact Hn1.
Qed.

Lemma deletes_before_deregister_witness :
  forallb not_deregister Scenario.before_deregister = true.
Proof.
  exact (proj1 (proj2 (deletes_before_deregister Cloud.remote 1 Scenario.ami
                         (Cloud.fresh Scenario.st) Scenario.before_deregister
                         0 Scenario.ami [] eq_refl))).
Defined.

(** ** The workflow against the concrete services *)

Module CloudFacts.

Lemma conn_of_ok p (w : world Cloud.remote) :
  exists c w' t,
    conn_of Cloud.remote p w = (Ok c, w', t) /\ remote w' = remote w.
Proof.
  unfold conn_of, EasyAWS_conn, bind, get_self.
  destruct (_conn (base_of p (self w))) as [c |].
  - exists c, w, []. split; reflexivity.
  - simpl. eexists _, _, _. split; reflexivity.
Qed.

Lemma get_image_ok image_id (w : world Cloud.remote) :
  exists w' t,
    get_image Cloud.remote image_id w = (Ok (found (remote w) image_id), w', t)
    /\ remote w' = remote w.
Proof.
  destruct (conn_of_ok ComputeSide w) as (c & w1 & t & Hc & Hr).
  change (conn_of Cloud.remote ComputeSide) with (conn Cloud.remote) in Hc.
  exists (mkWorld (self w1) (remote w1)), (t ++ [GetAllImages c (ImageIds [image_id])]).
  split; [| exact Hr]. rewrite <- Hr.
  apply (get_image_answer Cloud.remote image_id w c w1 t
           (Cloud.select (ImageIds [image_id]) (Cloud.images (remote w1)))
           (remote w1) Hc).
  reflexivity.
Qed.

Lemma get_image_files_ok image_id (w : world Cloud.remote) image ks :
  found (remote w) image_id = Some image ->
  Cloud.lookup (PyStr.split_head (location image) "/") (Cloud.buckets (remote w))
    = Some ks ->
  exists w' t,
    get_image_files Cloud.remote image_id w
    = (Ok (Cloud.keys_with_prefix (PyStr.split_head (location image) "/")
             (image_prefix image) ks), w', t)
    /\ remote w' = remote w.
Proof.
  intros Hi Hb.
  destruct (get_image_ok image_id w) as (w1 & t1 & Hg & Hr1).
  destruct (conn_of_ok StorageSide w1) as (c & w2 & t2 & Hc & Hr2).
  change (conn_of Cloud.remote StorageSide) with (s3_conn Cloud.remote) in Hc.
  assert (Hb2 : Cloud.lookup (PyStr.split_head (location image) "/")
                  (Cloud.buckets (remote w2)) = Some ks)
    by (rewrite Hr2, Hr1; exact Hb).
  rewrite Hi in Hg.
  eexists _, _. split.
  - unfold get_image_files. eapply bind_run; [exact Hg |]. cbv beta iota zeta.
    eapply bind_run.
    { unfold s3_get_bucket. eapply bind_run; [exact Hc |].
      apply call_ok. simpl. unfold Cloud.get_bucket. rewrite Hb2. reflexivity. }
    eapply bind_run; [| reflexivity].
    apply call_ok. simpl. unfold Cloud.list. simpl. rewrite Hb2. reflexivity.
  - simpl. rewrite Hr2. exact Hr1.
Qed.

(** The traces of the reads are quiet. *)
Lemma run_quiet {B A} (m : M B A) w o w' t :
  emits_only quiet m -> m w = (o, w', t) -> forallb quiet t = true.
Proof. intros Hq H. specialize (Hq w). rewrite H in Hq. exact Hq. Qed.

Arguments run_quiet {B A m w o w' t} _ _.

Lemma count_deletes_app t1 t2 :
  count_deletes (t1 ++ t2) = count_deletes t1 + count_deletes t2.
Proof. unfold count_deletes. rewrite filter_app, length_app. reflexivity. Qed.

Lemma count_deletes_quiet t : forallb quiet t = true -> count_deletes t = 0.
Proof.
  unfold count_deletes. induction t as [| e t IH]; simpl; [reflexivity |].
  intros H. apply andb_true_iff in H. destruct H as [He Ht].
  unfold quiet, mutating in He. destruct (is_delete e); [discriminate | auto].
Qed.

(** Against a store that loses the deletes, the loop asks for every file
    to be deleted and leaves the store as it was. *)
Lemma for_each_delete_lost files (w : world Cloud.remote) :
  Cloud.deletes_lost (remote w) = true ->
  exists w' t,
    for_each Cloud.remote files
      (fun file => emit (PrintRemoving file) ;; delete Cloud.remote file) w
    = (Ok tt, w', t)
    /\ remote w' = remote w
    /\ count_deletes t = length files
    /\ forallb not_deregister t = true.
Proof.
  revert w. induction files as [| file rest IH]; intros w Hl.
  - exists w, []. repeat split; reflexivity.
  - assert (Hd : (emit (PrintRemoving file) ;; delete Cloud.remote file) w
                 = (Ok tt, mkWorld (self w) (remote w),
                    [PrintRemoving file; KeyDelete file])).
    { unfold bind, emit, delete, call. simpl.
      unfold Cloud.delete. rewrite Hl. reflexivity. }
    destruct (IH (mkWorld (self w) (remote w)) Hl) as (w' & t & Hr & Hs & Hn & Hq).
    exists w', ([PrintRemoving file; KeyDelete file] ++ t). split; [| split; [| split]].
    + simpl for_each. eapply bind_run; [exact Hd | exact Hr].
    + exact Hs.
    + rewrite count_deletes_app, Hn. reflexivity.
    + simpl. exact Hq.
Qed.

End CloudFacts.

Module Workflow.

Section OneImage.

Variable image_id : string.
Variable image : Image.
Variable ks : list string.

Local Abbreviation bucketname := (PyStr.split_head (location image) "/").
Local Abbreviation files := (Cloud.keys_with_prefix bucketname (image_prefix image) ks).
Local Abbreviation stored := (registered_with image_id image ks).

(** With no file left, the file phase deletes nothing and returns. *)
Lemma remove_image_files_no_files fuel (w : world Cloud.remote) :
  stored (remote w) -> files = [] ->
  exists w' t,
    remove_image_files Cloud.remote fuel image_id false w = (Ok tt, w', t)
    /\ remote w' = remote w /\ forallb quiet t = true.
Proof.
  intros [Hi Hb] He.
  destruct (CloudFacts.get_image_ok image_id w) as (w1 & t1 & H1 & R1).
  rewrite Hi in H1.
  assert (S1 : stored (remote w1)) by (rewrite R1; split; assumption).
  destruct (CloudFacts.get_image_files_ok image_id w1 image ks (proj1 S1) (proj2 S1))
    as (w2 & t2 & H2 & R2).
  rewrite He in H2.
  assert (S2 : stored (remote w2)) by (rewrite R2; exact S1).
  destruct (CloudFacts.get_image_files_ok image_id w2 image ks (proj1 S2) (proj2 S2))
    as (w3 & t3 & H3 & R3).
  rewrite He in H3.
  exists w3. eexists. split; [| split].
  - destruct fuel; simpl;
      (eapply bind_run; [exact H1 |]; cbv beta iota;
       eapply bind_run; [exact H2 |];
       eapply bind_run; [reflexivity |];
       eapply bind_run; [exact H3 |]; reflexivity).
  - rewrite R3, R2. exact R1.
  - rewrite !forallb_app.
    rewrite (CloudFacts.run_quiet (get_image_quiet _ _) H1).
    rewrite (CloudFacts.run_quiet (get_image_files_quiet _ _) H2).
    rewrite (CloudFacts.run_quiet (get_image_files_quiet _ _) H3).
    reflexivity.
Qed.

(** ... and [remove_image] goes on to deregister the image. *)
Lemma remove_image_no_files_run fuel (w : world Cloud.remote) :
  stored (remote w) -> files = [] ->
  exists c w' t,
    remove_image Cloud.remote fuel image_id false w
    = (Ok tt, w', t ++ [DeregisterImage c (id image)])
    /\ forallb quiet t = true
    /\ Cloud.images (remote w')
       = filter (fun i => negb (String.eqb (id i) (id image)))
                (Cloud.images (remote w)).
Proof.
  intros [Hi Hb] He.
  destruct (CloudFacts.get_image_ok image_id w) as (w1 & t1 & H1 & R1).
  rewrite Hi in H1.
  assert (S1 : stored (remote w1)) by (rewrite R1; split; assumption).
  destruct (remove_image_files_no_files fuel w1 S1 He) as (w2 & t2 & H2 & R2 & Q2).
  destruct (CloudFacts.conn_of_ok ComputeSide w2) as (c & w3 & t3 & H3 & R3).
  change (conn_of Cloud.remote ComputeSide) with (conn Cloud.remote) in H3.
  set (L1 := Log INFO ("Removing AMI: " ++ image_id)%string).
  set (L2 := Log INFO "Removing image files...").
  set (L3 := Log INFO ("Deregistering ami: " ++ id image)%string).
  assert (Hrun : exists w' t0,
             remove_image Cloud.remote fuel image_id false w = (Ok tt, w', t0)
             /\ t0 = (t1 ++ [L1; L2] ++ t2 ++ [L3] ++ t3) ++ [DeregisterImage c (id image)]
             /\ Cloud.images (remote w')
                = filter (fun i => negb (String.eqb (id i) (id image)))
                         (Cloud.images (remote w3))).
  { eexists _, _. split; [| split].
    - unfold remove_image, print_timing.
      eapply bind_run; [exact H1 |]. cbv beta iota.
      eapply bind_run; [reflexivity |].
      eapply bind_run; [reflexivity |].
      eapply bind_run; [exact H2 |].
      eapply bind_run; [reflexivity |].
      eapply bind_run; [exact H3 |].
      apply call_ok. reflexivity.
    - repeat rewrite <- app_assoc. reflexivity.
    - reflexivity. }
  destruct Hrun as (w' & t0 & Hrun & -> & Himg).
  exists c, w', (t1 ++ [L1; L2] ++ t2 ++ [L3] ++ t3). split; [exact Hrun | split].
  - rewrite !forallb_app, Q2.
    rewrite (CloudFacts.run_quiet (get_image_quiet _ _) H1).
    rewrite (CloudFacts.run_quiet (conn_quiet _ _ _) H3).
    reflexivity.
  - rewrite Himg, R3, R2, R1. reflexivity.
Qed.

(** Against a store that loses the deletes, every round of the file phase
    finds the files again and recurses: whatever the depth allowed, the
    phase is still recursing when the depth is used up, and it has asked
    for the deletion of every file once per round. *)
Lemma remove_image_files_stuck fuel : forall w : world Cloud.remote,
  stored (remote w) -> Cloud.deletes_lost (remote w) = true -> files <> [] ->
  exists w' t,
    remove_image_files Cloud.remote fuel image_id false w = (OutOfFuel, w', t)
    /\ count_deletes t = S fuel * length files
    /\ forallb not_deregister t = true.
Proof.
  induction fuel as [| fuel IH]; intros w S0 Hl Hne.
  all: destruct (CloudFacts.get_image_ok image_id w) as (w1 & t1 & H1 & R1).
  all: rewrite (proj1 S0) in H1.
  all: assert (S1 : stored (remote w1)) by (rewrite R1; exact S0).
  all: destruct (CloudFacts.get_image_files_ok image_id w1 image ks (proj1 S1) (proj2 S1))
         as (w2 & t2 & H2 & R2).
  all: assert (L2 : Cloud.deletes_lost (remote w2) = true) by (rewrite R2, R1; exact Hl).
  all: destruct (CloudFacts.for_each_delete_lost files w2 L2)
         as (w3 & t3 & H3 & R3 & N3 & D3).
  all: assert (S3 : stored (remote w3)) by (rewrite R3, R2; exact S1).
  all: destruct (CloudFacts.get_image_files_ok image_id w3 image ks (proj1 S3) (proj2 S3))
         as (w4 & t4 & H4 & R4).
  all: assert (Hlen : negb (Nat.eqb (length files) 0) = true)
         by (destruct files; [congruence | reflexivity]).
  - eexists _, _. split; [| split].
    + simpl. eapply bind_run; [exact H1 |]. cbv beta iota.
      eapply bind_run; [exact H2 |].
      eapply bind_run; [exact H3 |].
      eapply bind_run; [exact H4 |].
      rewrite Hlen. reflexivity.
    + rewrite !CloudFacts.count_deletes_app, N3.
      rewrite (CloudFacts.count_deletes_quiet _ (CloudFacts.run_quiet (get_image_quiet _ _) H1)).
      rewrite (CloudFacts.count_deletes_quiet _ (CloudFacts.run_quiet (get_image_files_quiet _ _) H2)).
      rewrite (CloudFacts.count_deletes_quiet _ (CloudFacts.run_quiet (get_image_files_quiet _ _) H4)).
      unfold count_deletes; simpl; lia.
    + rewrite !forallb_app, D3.
      rewrite (quiet_not_deregister _ (CloudFacts.run_quiet (get_image_quiet _ _) H1)).
      rewrite (quiet_not_deregister _ (CloudFacts.run_quiet (get_image_files_quiet _ _) H2)).
      rewrite (quiet_not_deregister _ (CloudFacts.run_quiet (get_image_files_quiet _ _) H4)).
      reflexivity.
  - assert (S4 : stored (remote w4)) by (rewrite R4; exact S3).
    assert (L4 : Cloud.deletes_lost (remote w4) = true)
      by (rewrite R4, R3; exact L2).
    destruct (IH w4 S4 L4 Hne) as (w5 & t5 & H5 & N5 & D5).
    eexists _, _. split; [| split].
    + simpl. eapply bind_run; [exact H1 |]. cbv beta iota.
      eapply bind_run; [exact H2 |].
      eapply bind_run; [exact H3 |].
      eapply bind_run; [exact H4 |].
      rewrite Hlen. cbv iota.
      eapply bind_run; [reflexivity | exact H5].
    + rewrite !CloudFacts.count_deletes_app, N3, N5.
      rewrite (CloudFacts.count_deletes_quiet _ (CloudFacts.run_quiet (get_image_quiet _ _) H1)).
      rewrite (CloudFacts.count_deletes_quiet _ (CloudFacts.run_quiet (get_image_files_quiet _ _) H2)).
      rewrite (CloudFacts.count_deletes_quiet _ (CloudFacts.run_quiet (get_image_files_quiet _ _) H4)).
      unfold count_deletes; simpl; lia.
    + rewrite !forallb_app, D3, D5.
      rewrite (quiet_not_deregister _ (CloudFacts.run_quiet (get_image_quiet _ _) H1)).
      rewrite (quiet_not_deregister _ (CloudFacts.run_quiet (get_image_files_quiet _ _) H2)).
      rewrite (quiet_not_deregister _ (CloudFacts.run_quiet (get_image_files_quiet _ _) H4)).
      reflexivity.
Qed.

Lemma remove_image_stuck fuel (w : world Cloud.remote) :
  stored (remote w) -> Cloud.deletes_lost (remote w) = true -> files <> [] ->
  exists w' t,
    remove_image Cloud.remote fuel image_id false w = (OutOfFuel, w', t)
    /\ count_deletes t = S fuel * length files
    /\ forallb not_deregister t = true.
Proof.
  intros S0 Hl Hne.
  destruct (CloudFacts.get_image_ok image_id w) as (w1 & t1 & H1 & R1).
  rewrite (proj1 S0) in H1.
  assert (S1 : stored (remote w1)) by (rewrite R1; exact S0).
  assert (L1 : Cloud.deletes_lost (remote w1) = true) by (rewrite R1; exact Hl).
  destruct (remove_image_files_stuck fuel w1 S1 L1 Hne) as (w2 & t2 & H2 & N2 & D2).
  eexists _, _. split; [| split].
  - unfold remove_image, print_timing.
    eapply bind_run; [exact H1 |]. cbv beta iota.
    eapply bind_run; [reflexivity |].
    eapply bind_run; [reflexivity |].
    apply bind_out_of_fuel. exact H2.
  - rewrite !CloudFacts.count_deletes_app, N2.
    rewrite (CloudFacts.count_deletes_quiet _ (CloudFacts.run_quiet (get_image_quiet _ _) H1)).
    reflexivity.
  - rewrite !forallb_app, D2.
    rewrite (quiet_not_deregister _ (CloudFacts.run_quiet (get_image_quiet _ _) H1)).
    reflexivity.
Qed.

End OneImage.

End Workflow.

(** ** The files of an image *)

Lemma keys_with_prefix_In name prefix ks k :
  In k (Cloud.keys_with_prefix name prefix ks)
  <-> key_bucket k = name /\ In (key_name k) ks
      /\ PyStr.startswith (key_name k) prefix = true.
Proof.
  unfold Cloud.keys_with_prefix. rewrite in_map_iff. split.
  - intros (x & <- & Hx). apply filter_In in Hx. destruct Hx as [Hin Hp].
    simpl. auto.
  - intros (Hb & Hin & Hp). exists (key_name k). split.
    + destruct k as [b n]. simpl in *. subst. reflexivity.
    + apply filter_In. auto.
Qed.

(** C7, as the code has it: for an image the lookup finds, whose bucket
    (the text of its location before the first ['/']) exists,
    [get_image_files] returns, without changing the store, exactly the
    objects of that bucket whose key starts with the text of the location's
    basename before the first occurrence of [.manifest.xml]; no other
    criterion is used.  Where that text is the basename with the suffix
    [.manifest.xml] stripped, these are the documented files. *)
Theorem get_image_files_by_split_prefix image_id (w : world Cloud.remote) image ks :
  found (remote w) image_id = Some image ->
  Cloud.lookup (PyStr.split_head (location image) "/") (Cloud.buckets (remote w))
    = Some ks ->
  exists files,
    outcome_of (get_image_files Cloud.remote image_id w) = Ok files
    /\ remote (world_of (get_image_files Cloud.remote image_id w)) = remote w
    /\ (forall k,
          In k files
          <-> key_bucket k = PyStr.split_head (location image) "/"
              /\ In (key_name k) ks
              /\ PyStr.startswith (key_name k)
                   (PyStr.split_head (PyStr.basename (location image)) ".manifest.xml")
                 = true)
    /\ (documented_prefix image = image_prefix image ->
        files = documented_image_files (remote w) image).
Proof.
  intros Hi Hb.
  destruct (CloudFacts.get_image_files_ok image_id w image ks Hi Hb)
    as (w' & t & Hrun & Hr).
  eexists. rewrite Hrun. split; [reflexivity |]. split; [exact Hr |]. split.
  - intros k. apply keys_with_prefix_In.
  - intros Hd. unfold documented_image_files. rewrite Hb, Hd. reflexivity.
Qed.

Lemma get_image_files_by_split_prefix_witness :
  exists files,
    outcome_of (get_image_files Cloud.remote Scenario.ami (Cloud.fresh Scenario.st))
    = Ok files
    /\ remote (world_of (get_image_files Cloud.remote Scenario.ami
                           (Cloud.fresh Scenario.st)))
       = Scenario.st
    /\ (forall k,
          In k files
          <-> key_bucket k = "mybucket"
              /\ In (key_name k)
                    ["img.manifest.xml"; "img.part.0"; "img.part.1"; "other.part.0"]
              /\ PyStr.startswith (key_name k) "img" = true)
    /\ (documented_prefix (mkImage Scenario.ami "mybucket/img.manifest.xml")
        = image_prefix (mkImage Scenario.ami "mybucket/img.manifest.xml") ->
        files = documented_image_files Scenario.st
                  (mkImage Scenario.ami "mybucket/img.manifest.xml")).
Proof.
  exact (get_image_files_by_split_prefix Scenario.ami (Cloud.fresh Scenario.st)
           (mkImage Scenario.ami "mybucket/img.manifest.xml")
           ["img.manifest.xml"; "img.part.0"; "img.part.1"; "other.part.0"]
           eq_refl eq_refl).
Defined.

(** C7 as documented fails: for an image named [img.manifest.xml], whose
    manifest is [img.manifest.xml.manifest.xml], the code lists with the
    prefix [img] and returns [img.part.0], a file of another image, which
    the documented files (prefix [img.manifest.xml]) do not contain. *)
Lemma get_image_files_not_suffix_stripped :
  outcome_of (get_image_files Cloud.remote Scenario.ami (Cloud.fresh Scenario.st_twice))
  <> Ok (documented_image_files Scenario.st_twice
           (mkImage Scenario.ami "mybucket/img.manifest.xml.manifest.xml")).
Proof. vm_compute. discriminate. Qed.

(** ** An image without files *)

(** C6: for a registered image whose bucket holds no object with the
    image's prefix, [remove_image(id, pretend=False)] returns normally; its
    trace ends with the [deregister_image] call for the image and holds no
    [delete] call and no other call that changes the services, and the
    image is gone from the registered images afterwards. *)
Theorem remove_image_without_files fuel image_id (w : world Cloud.remote) image ks :
  found (remote w) image_id = Some image ->
  Cloud.lookup (PyStr.split_head (location image) "/") (Cloud.buckets (remote w))
    = Some ks ->
  Cloud.keys_with_prefix (PyStr.split_head (location image) "/")
    (image_prefix image) ks = [] ->
  exists c w' t,
    remove_image Cloud.remote fuel image_id false w
    = (Ok tt, w', t ++ [DeregisterImage c (id image)])
    /\ forallb quiet t = true
    /\ count_deletes (t ++ [DeregisterImage c (id image)]) = 0
    /\ Cloud.images (remote w')
       = filter (fun i => negb (String.eqb (id i) (id image)))
                (Cloud.images (remote w)).
Proof.
  intros Hi Hb He.
  destruct (Workflow.remove_image_no_files_run image_id image ks fuel w
              (conj Hi Hb) He) as (c & w' & t & Hrun & Hq & Himg).
  exists c, w', t. repeat split; try assumption.
  rewrite CloudFacts.count_deletes_app, (CloudFacts.count_deletes_quiet _ Hq).
  reflexivity.
Qed.

Lemma remove_image_without_files_witness :
  exists c w' t,
    remove_image Cloud.remote 0 Scenario.ami false (Cloud.fresh Scenario.st_no_files)
    = (Ok tt, w', t ++ [DeregisterImage c Scenario.ami])
    /\ forallb quiet t = true
    /\ count_deletes (t ++ [DeregisterImage c Scenario.ami]) = 0
    /\ Cloud.images (remote w') = [].
Proof.
  exact (remove_image_without_files 0 Scenario.ami (Cloud.fresh Scenario.st_no_files)
           (mkImage Scenario.ami "mybucket/img.manifest.xml") ["other.part.0"]
           eq_refl eq_refl eq_refl).
Defined.

(** ** A store that never empties *)

(** C1, as the code has it: against a store that loses every delete, with
    the image registered and its enumeration not empty,
    [remove_image(id, pretend=False)] has no retry bound and no
    [DeletionIncomplete] report: whatever depth of recursion is allowed, the
    call is still recursing when the depth is used up, it has asked once
    per round for the deletion of every file, and it has not deregistered
    the image. *)
Theorem remove_image_recursion_unbounded fuel image_id (w : world Cloud.remote)
    image ks :
  Cloud.deletes_lost (remote w) = true ->
  found (remote w) image_id = Some image ->
  Cloud.lookup (PyStr.split_head (location image) "/") (Cloud.buckets (remote w))
    = Some ks ->
  Cloud.keys_with_prefix (PyStr.split_head (location image) "/")
    (image_prefix image) ks <> [] ->
  outcome_of (remove_image Cloud.remote fuel image_id false w) = OutOfFuel
  /\ count_deletes (trace_of (remove_image Cloud.remote fuel image_id false w))
     = S fuel * length (Cloud.keys_with_prefix (PyStr.split_head (location image) "/")
                          (image_prefix image) ks)
  /\ forallb not_deregister
       (trace_of (remove_image Cloud.remote fuel image_id false w)) = true.
Proof.
  intros Hl Hi Hb Hne.
  destruct (Workflow.remove_image_stuck image_id image ks fuel w
              (conj Hi Hb) Hl Hne) as (w' & t & Hrun & Hn & Hd).
  rewrite Hrun. repeat split; assumption.
Qed.

Lemma remove_image_recursion_unbounded_witness :
  outcome_of (remove_image Cloud.remote 4 Scenario.ami false
                (Cloud.fresh Scenario.st_stuck)) = OutOfFuel
  /\ count_deletes (trace_of (remove_image Cloud.remote 4 Scenario.ami false
                                (Cloud.fresh Scenario.st_stuck))) = 15.
Proof.
  refine (let H := remove_image_recursion_unbounded 4 Scenario.ami
                     (Cloud.fresh Scenario.st_stuck)
                     (mkImage Scenario.ami "mybucket/img.manifest.xml")
                     ["img.manifest.xml"; "img.part.0"; "img.part.1"; "other.part.0"]
                     eq_refl eq_refl eq_refl _ in
          conj (proj1 H) (proj1 (proj2 H))).
  discriminate.
Defined.

(** C1 as stated fails: for the image of the scenario, on the store in
    permanent failure, no bound on the depth of the recursion makes
    [remove_image(id, pretend=False)] come to an end. *)
Lemma remove_image_no_retry_bound :
  ~ exists fuel,
      outcome_of (remove_image Cloud.remote fuel Scenario.ami false
                    (Cloud.fresh Scenario.st_stuck)) <> OutOfFuel.
Proof.
  intros [fuel H]. apply H.
  destruct (Workflow.remove_image_stuck Scenario.ami
              (mkImage Scenario.ami "mybucket/img.manifest.xml")
              ["img.manifest.xml"; "img.part.0"; "img.part.1"; "other.part.0"]
              fuel (Cloud.fresh Scenario.st_stuck))
    as (w' & t & Hrun & _); try (split; reflexivity); try reflexivity; try discriminate.
  rewrite Hrun. reflexivity.
Qed.

(** * Further properties of the module *)

(** ** The image accessors at their edges *)

(** X1: [get_image_files] does not check that the image exists: when the
    lookup yields no image it raises [AttributeError] on reading
    [image.location], straight after the lookup, so that no call reaches
    the storage service. *)
Theorem get_image_files_missing_image (B : Remote) image_id w w1 t :
  get_image B image_id w = (Ok None, w1, t) ->
  get_image_files B image_id w
  = (Raise (AttributeError "'NoneType' object has no attribute 'location'"), w1, t).
Proof.
  intros H. unfold get_image_files. rewrite (bind_ok _ _ H).
  simpl. rewrite app_nil_r. reflexivity.
Qed.

Lemma get_image_files_missing_image_witness :
  get_image_files Cloud.remote "ami-00000000" (Cloud.fresh Scenario.st)
  = (Raise (AttributeError "'NoneType' object has no attribute 'location'"),
     world_of (get_image Cloud.remote "ami-00000000" (Cloud.fresh Scenario.st)),
     [Log DEBUG "creating self._conn"; Authenticate EC2 "AKID" "SECRET";
      GetAllImages 0 (ImageIds ["ami-00000000"])]).
Proof.
  exact (get_image_files_missing_image Cloud.remote "ami-00000000"
           (Cloud.fresh Scenario.st) _ _ eq_refl).
Defined.

(** ** Runs that come to an end *)

Section Finishes.

Variable B : Remote.

Lemma finishes_ret {A} (a : A) : finishes (@ret B A a).
Proof. intros w. discriminate. Qed.

Lemma finishes_raise {A} e : finishes (@raise B A e).
Proof. intros w. discriminate. Qed.

Lemma finishes_emit e : finishes (@emit B e).
Proof. intros w. discriminate. Qed.

Lemma finishes_get_self : finishes (@get_self B).
Proof. intros w. discriminate. Qed.

Lemma finishes_put_self o : finishes (@put_self B o).
Proof. intros w. discriminate. Qed.

Lemma finishes_call {A} e (op : rstate B -> (string + A) * rstate B) :
  finishes (call e op).
Proof.
  intros w. unfold call. destruct (op (remote w)) as [[msg | a] rs]; discriminate.
Qed.

Lemma finishes_bind {A C} (m : M B A) (f : A -> M B C) :
  finishes m -> (forall a, finishes (f a)) -> finishes (bind m f).
Proof.
  intros Hm Hf w. unfold bind. specialize (Hm w).
  destruct (m w) as [[[a | e |] w1] t1]; unfold outcome_of in *; simpl in *;
    try discriminate.
  - specialize (Hf a w1). destruct (f a w1) as [[o w2] t2]. exact Hf.
  - exfalso. apply Hm. reflexivity.
Qed.

Lemma finishes_except {A} (m h : M B A) :
  finishes m -> finishes h -> finishes (except_IndexError m h).
Proof.
  intros Hm Hh w. unfold except_IndexError. specialize (Hm w).
  destruct (m w) as [[[a | e |] w1] t1]; unfold outcome_of in *; simpl in *;
    try discriminate.
  - destruct e; try discriminate.
    specialize (Hh w1). destruct (h w1) as [[o w2] t2]. exact Hh.
  - exact Hm.
Qed.

Lemma finishes_for_each {A} (files : list A) (body : A -> M B unit) :
  (forall file, finishes (body file)) -> finishes (for_each B files body).
Proof.
  intros Hb. induction files as [| file rest IH]; simpl.
  - apply finishes_ret.
  - apply finishes_bind; auto.
Qed.

End Finishes.

Ltac finishes_step :=
  match goal with
  | |- finishes (bind _ _) => apply finishes_bind; [| intros ?]
  | |- finishes (except_IndexError _ _) => apply finishes_except
  | |- finishes (for_each _ _ _) => apply finishes_for_each; intros ?
  | |- finishes (match ?x with _ => _ end) => destruct x
  | |- finishes (ret _) => apply finishes_ret
  | |- finishes (raise _) => apply finishes_raise
  | |- finishes get_self => apply finishes_get_self
  | |- finishes (put_self _) => apply finishes_put_self
  | |- finishes (emit _) => apply finishes_emit
  | |- finishes (log_debug _) => apply finishes_emit
  | |- finishes (log_info _) => apply finishes_emit
  | |- finishes (log_error _) => apply finishes_emit
  | |- finishes (call _ _) => apply finishes_call
  | |- finishes _ => solve [auto]
  end.

Section FinishesMethods.

Variable B : Remote.

Lemma finishes_conn base set_base : finishes (EasyAWS_conn B base set_base).
Proof. unfold EasyAWS_conn. repeat finishes_step. Qed.

Lemma finishes_get_image image_id : finishes (get_image B image_id).
Proof.
  pose proof finishes_conn. unfold get_image, conn, index0. repeat finishes_step.
Qed.

Lemma finishes_get_image_files image_id : finishes (get_image_files B image_id).
Proof.
  pose proof finishes_conn. pose proof finishes_get_image.
  unfold get_image_files, s3_get_bucket, s3_conn. repeat finishes_step.
Qed.

Lemma remove_image_files_pretend_fuel fuel image_name :
  remove_image_files B fuel image_name true = remove_image_files B 0 image_name true.
Proof. destruct fuel; reflexivity. Qed.

Lemma finishes_remove_image_files_pretend fuel image_name :
  finishes (remove_image_files B fuel image_name true).
Proof.
  rewrite remove_image_files_pretend_fuel.
  pose proof finishes_get_image. pose proof finishes_get_image_files.
  simpl. repeat finishes_step.
Qed.

End FinishesMethods.

(** X2: A dry run of the file phase never calls itself: whatever depth of
    recursion is allowed it does what it does at depth 0, and it always
    comes to an end, by returning or by raising. *)
Theorem remove_image_files_pretend_no_recursion (B : Remote) fuel image_name w :
  remove_image_files B fuel image_name true w
  = remove_image_files B 0 image_name true w
  /\ outcome_of (remove_image_files B fuel image_name true w) <> OutOfFuel.
Proof.
  split.
  - rewrite remove_image_files_pretend_fuel. reflexivity.
  - apply finishes_remove_image_files_pretend.
Qed.

(** ** The cache of registered images *)

(** X3: With caching on, once [registered_images] has returned a list every
    later read returns that same list and makes no call, whatever the
    service holds by then; with caching off every read that returns has
    just asked the service. *)
Theorem registered_images_cache (B : Remote) w imgs w1 t :
  registered_images B w = (Ok imgs, w1, t) ->
  (cache (self w) = true ->
   forall rs, registered_images B (mkWorld (self w1) rs)
              = (Ok imgs, mkWorld (self w1) rs, []))
  /\ (cache (self w) = false ->
      exists c t0, t = t0 ++ [GetAllImages c (Owners ["self"])]).
Proof.
  assert (Hkeep : forall w c w2 t2,
             conn B w = (Ok c, w2, t2) -> cache (self w2) = cache (self w)).
  { intros w0 c w2 t2. unfold conn, EasyAWS_conn, bind, get_self.
    destruct (_conn (ec2_base (self w0))).
    - intros Hc. inversion Hc; subst. reflexivity.
    - unfold log_debug, emit, call, put_self, ret. simpl.
      destruct (connect B _ _ _ (remote w0)) as [[msg | c1] rs1]; simpl;
        intros Hc; inversion Hc; subst. reflexivity. }
  assert (Hfetch : forall w,
             (c <- conn B ;;
              imgs <- call (GetAllImages c (Owners ["self"]))
                           (get_all_images B c (Owners ["self"])) ;;
              o' <- get_self ;;
              put_self (set_images o' imgs) ;;
              ret imgs) w = (Ok imgs, w1, t) ->
             exists c w2 t2 rs,
               conn B w = (Ok c, w2, t2)
               /\ w1 = mkWorld (set_images (self w2) imgs) rs
               /\ t = t2 ++ [GetAllImages c (Owners ["self"])]).
  { intros w0. unfold bind at 1.
    destruct (conn B w0) as [[[c | e |] w2] t2]; try discriminate.
    unfold bind, call.
    destruct (get_all_images B c (Owners ["self"]) (remote w2)) as [[msg | l] rs2];
      try discriminate.
    simpl. intros H. inversion H; subst.
    exists c, w2, t2, rs2. rewrite ?app_nil_r. auto. }
  unfold registered_images. unfold bind at 1, get_self at 1. cbv beta iota.
  destruct (cache (self w)) eqn:Ec; cbn [negb].
  - destruct (_images (self w)) as [stored |] eqn:Ei.
    + unfold ret. intros H. inversion H; subst. split; [| discriminate].
      intros _ rs. unfold bind, get_self. cbn. rewrite Ec, Ei. reflexivity.
    + destruct ((c <- conn B ;;
                 imgs <- call (GetAllImages c (Owners ["self"]))
                              (get_all_images B c (Owners ["self"])) ;;
                 o' <- get_self ;;
                 put_self (set_images o' imgs) ;;
                 ret imgs) w) as [[o w2] t2] eqn:Hrun.
      intros H. inversion H; subst.
      destruct (Hfetch w Hrun) as (c & w3 & t3 & rs & Hc & -> & ->).
      split; [| discriminate]. intros _ rs'.
      unfold bind, get_self. cbn.
      rewrite (Hkeep _ _ _ _ Hc), Ec. reflexivity.
  - destruct ((c <- conn B ;;
               imgs <- call (GetAllImages c (Owners ["self"]))
                            (get_all_images B c (Owners ["self"])) ;;
               o' <- get_self ;;
               put_self (set_images o' imgs) ;;
               ret imgs) w) as [[o w2] t2] eqn:Hrun.
    intros H. inversion H; subst.
    destruct (Hfetch w Hrun) as (c & w3 & t3 & rs & Hc & -> & ->).
    split; [discriminate |]. intros _. exists c, t3. reflexivity.
Qed.

Lemma registered_images_cache_witness :
  registered_images Cloud.remote
    (@mkWorld Cloud.remote
       (self (world_of (registered_images Cloud.remote Scenario2.caching)))
       Scenario2.emptied)
  = (Ok [mkImage Scenario.ami "mybucket/img.manifest.xml"],
     @mkWorld Cloud.remote
       (self (world_of (registered_images Cloud.remote Scenario2.caching)))
       Scenario2.emptied,
     []).
Proof.
  exact (proj1 (registered_images_cache Cloud.remote Scenario2.caching
                  [mkImage Scenario.ami "mybucket/img.manifest.xml"]
                  (world_of (registered_images Cloud.remote Scenario2.caching))
                  (trace_of (registered_images Cloud.remote Scenario2.caching))
                  eq_refl)
               eq_refl Scenario2.emptied).
Defined.

(** X4: [get_registered_image] returns the first registered image that carries
    the identifier: images before it with other identifiers are passed
    over and whatever follows it is not looked at. *)
Theorem get_registered_image_first_match (B : Remote) image_id w w1 t
    before image after :
  PyStr.startswith image_id "ami" = true -> PyStr.len image_id = 12 ->
  registered_images B w = (Ok (before ++ image :: after), w1, t) ->
  (forall other, In other before -> id other <> image_id) ->
  id image = image_id ->
  get_registered_image B image_id w = (Ok (Some image), w1, t).
Proof.
  intros Hp Hl Hr Hb Hi. unfold get_registered_image.
  rewrite Hp, Hl. simpl. rewrite (bind_ok _ _ Hr). simpl. rewrite app_nil_r.
  replace (find _ (before ++ image :: after)) with (Some image); [reflexivity |].
  symmetry. clear Hr. induction before as [| other rest IH]; simpl.
  - rewrite Hi, String.eqb_refl. reflexivity.
  - destruct (String.eqb_spec (id other) image_id) as [E | _].
    + exfalso. apply (Hb other); [left; reflexivity | exact E].
    + apply IH. intros o Ho. apply Hb. right. exact Ho.
Qed.

Lemma get_registered_image_first_match_witness :
  get_registered_image Cloud.remote Scenario.ami (Cloud.fresh Scenario2.st_dup)
  = (Ok (Some (mkImage Scenario.ami "b/first.manifest.xml")),
     world_of (registered_images Cloud.remote (Cloud.fresh Scenario2.st_dup)),
     trace_of (registered_images Cloud.remote (Cloud.fresh Scenario2.st_dup))).
Proof.
  apply (get_registered_image_first_match Cloud.remote Scenario.ami
           (Cloud.fresh Scenario2.st_dup) _ _
           [mkImage "ami-aaaaaaaa" "b/x.manifest.xml"]
           (mkImage Scenario.ami "b/first.manifest.xml")
           [mkImage Scenario.ami "b/second.manifest.xml"]);
    try reflexivity.
  intros other [<- | []]. discriminate.
Defined.

(** ** A delete that fails *)

Lemma bind_inv_ok {B A C} (m : M B A) (f : A -> M B C) w c w' t :
  bind m f w = (Ok c, w', t) ->
  exists a w1 t1 t2,
    m w = (Ok a, w1, t1) /\ f a w1 = (Ok c, w', t2) /\ t = t1 ++ t2.
Proof.
  unfold bind. destruct (m w) as [[[a | e |] w1] t1] eqn:Hm;
    [| intros H; discriminate | intros H; discriminate].
  destruct (f a w1) as [[o w2] t2] eqn:Hf. intros H. inversion H; subst.
  exists a, w1, t1, t2. auto.
Qed.

(** X5: The loop of [remove_image_files] does not guard its [delete] calls:
    when, after some files have been deleted, the delete of the next one
    raises, the method raises that error at once; the files that follow
    are not attempted and there is no second enumeration. *)
Theorem failing_delete_aborts (B : Remote) fuel image_name w image w1 t1
    deleted k rest w2 t2 w3 t3 msg rs :
  get_image B image_name w = (Ok (Some image), w1, t1) ->
  get_image_files B image_name w1 = (Ok (deleted ++ k :: rest), w2, t2) ->
  for_each B deleted (fun file => emit (PrintRemoving file) ;; delete B file) w2
    = (Ok tt, w3, t3) ->
  key_delete B k (remote w3) = (inl msg, rs) ->
  remove_image_files B fuel image_name false w
  = (Raise (BotoError msg), mkWorld (self w3) rs,
     t1 ++ t2 ++ t3 ++ [PrintRemoving k; KeyDelete k]).
Proof.
  intros Hg Hf Hd Hk.
  assert (Hloop : for_each B (deleted ++ k :: rest)
                    (fun file => emit (PrintRemoving file) ;; delete B file) w2
                  = (Raise (BotoError msg), mkWorld (self w3) rs,
                     t3 ++ [PrintRemoving k; KeyDelete k])).
  { clear Hf Hg. revert w2 t3 Hd.
    induction deleted as [| d ds IH]; intros w2 t3 Hd.
    - simpl in Hd. inversion Hd; subst. simpl.
      unfold bind, emit, delete, call. rewrite Hk. reflexivity.
    - simpl in Hd. apply bind_inv_ok in Hd.
      destruct Hd as ([] & w4 & t4 & t5 & Hd1 & Hd2 & ->).
      simpl. rewrite <- app_assoc.
      eapply bind_run; [exact Hd1 |]. apply IH. exact Hd2. }
  destruct fuel; simpl;
    rewrite (bind_ok _ _ Hg); cbv beta iota;
    rewrite (bind_ok _ _ Hf);
    rewrite (bind_raise _ _ Hloop); reflexivity.
Qed.

Lemma failing_delete_aborts_witness :
  remove_image_files Locked.remote 3 Scenario.ami false (Locked.fresh Scenario.st)
  = (Raise (BotoError "S3ResponseError: 403 Forbidden"),
     world_of (get_image_files Locked.remote Scenario.ami
                 (world_of (get_image Locked.remote Scenario.ami
                              (Locked.fresh Scenario.st)))),
     [Log DEBUG "creating self._conn"; Authenticate EC2 "AKID" "SECRET";
      GetAllImages 0 (ImageIds [Scenario.ami])]
     ++ [GetAllImages 0 (ImageIds [Scenario.ami]);
         Log DEBUG "creating self._conn"; Authenticate S3 "AKID" "SECRET";
         GetBucket 1 "mybucket"; BucketList (mkBucket "mybucket") "img"]
     ++ []
     ++ [PrintRemoving (mkKey "mybucket" "img.manifest.xml");
         KeyDelete (mkKey "mybucket" "img.manifest.xml")]).
Proof.
  exact (failing_delete_aborts Locked.remote 3 Scenario.ami
           (Locked.fresh Scenario.st)
           (mkImage Scenario.ami "mybucket/img.manifest.xml") _ _
           [] (mkKey "mybucket" "img.manifest.xml")
           [mkKey "mybucket" "img.part.0"; mkKey "mybucket" "img.part.1"]
           _ _ _ [] "S3ResponseError: 403 Forbidden" Scenario.st
           eq_refl eq_refl eq_refl eq_refl).
Defined.

(** ** The workflow against a store that deletes *)

Module WorkingStore.

Lemma lookup_remove_key_same k bs :
  Cloud.lookup (key_bucket k) (Cloud.remove_key k bs)
  = option_map (filter (fun x => negb (String.eqb x (key_name k))))
               (Cloud.lookup (key_bucket k) bs).
Proof.
  induction bs as [| [n ks] bs IH]; simpl; [reflexivity |].
  destruct (String.eqb n (key_bucket k)) eqn:E; simpl; rewrite E; auto.
Qed.

Lemma lookup_remove_key_other k bs b :
  b <> key_bucket k ->
  Cloud.lookup b (Cloud.remove_key k bs) = Cloud.lookup b bs.
Proof.
  intros Hb. induction bs as [| [n ks] bs IH]; simpl; [reflexivity |].
  destruct (String.eqb_spec n (key_bucket k)) as [-> | Hn]; simpl.
  - destruct (String.eqb_spec (key_bucket k) b) as [E | _]; [congruence | reflexivity].
  - rewrite IH. reflexivity.
Qed.

Lemma filter_filter {A} (f g : A -> bool) l :
  filter f (filter g l) = filter (fun x => g x && f x) l.
Proof.
  induction l as [| x l IH]; simpl; [reflexivity |].
  destruct (g x); simpl; [destruct (f x) |]; rewrite IH; reflexivity.
Qed.

Lemma existsb_filter_self (P : string -> bool) ks x :
  In x ks -> existsb (String.eqb x) (filter P ks) = P x.
Proof.
  intros Hin. destruct (P x) eqn:Px.
  - apply existsb_exists. exists x. split.
    + apply filter_In. auto.
    + apply String.eqb_refl.
  - destruct (existsb (String.eqb x) (filter P ks)) eqn:E; [| reflexivity].
    apply existsb_exists in E. destruct E as (y & Hy & Exy).
    apply String.eqb_eq in Exy. subst y.
    apply filter_In in Hy. destruct Hy as [_ Hy]. congruence.
Qed.

(** What the loop of deletes leaves of a bucket. *)
Lemma for_each_delete_works b names : forall (w : world Cloud.remote) ks0,
  Cloud.deletes_lost (remote w) = false ->
  Cloud.lookup b (Cloud.buckets (remote w)) = Some ks0 ->
  exists w' t,
    for_each Cloud.remote (map (mkKey b) names)
      (fun file => emit (PrintRemoving file) ;; delete Cloud.remote file) w
    = (Ok tt, w', t)
    /\ Cloud.lookup b (Cloud.buckets (remote w'))
       = Some (filter (fun x => negb (existsb (String.eqb x) names)) ks0)
    /\ (forall b', b' <> b ->
          Cloud.lookup b' (Cloud.buckets (remote w'))
          = Cloud.lookup b' (Cloud.buckets (remote w)))
    /\ Cloud.images (remote w') = Cloud.images (remote w)
    /\ Cloud.deletes_lost (remote w') = false
    /\ count_deletes t = length names
    /\ forallb not_deregister t = true.
Proof.
  induction names as [| n ns IH]; intros w ks0 Hl Hb.
  - exists w, []. simpl. repeat split; auto.
    rewrite Hb. f_equal. symmetry. clear Hb.
    induction ks0 as [| x l IHl]; simpl; [reflexivity | f_equal; exact IHl].
  - set (st1 := Cloud.mk (Cloud.images (remote w))
                  (Cloud.remove_key (mkKey b n) (Cloud.buckets (remote w))) false).
    assert (Hd : (emit (PrintRemoving (mkKey b n)) ;; delete Cloud.remote (mkKey b n)) w
                 = (Ok tt, @mkWorld Cloud.remote (self w) st1,
                    [PrintRemoving (mkKey b n); KeyDelete (mkKey b n)])).
    { unfold bind, emit, delete, call. simpl.
      unfold Cloud.delete. rewrite Hl. reflexivity. }
    assert (Hb1 : Cloud.lookup b (Cloud.buckets st1)
                  = Some (filter (fun x => negb (String.eqb x n)) ks0)).
    { simpl. rewrite (lookup_remove_key_same (mkKey b n)). simpl.
      rewrite Hb. reflexivity. }
    destruct (IH (@mkWorld Cloud.remote (self w) st1) _ eq_refl Hb1)
      as (w' & t & Hr & Hk & Ho & Hi & Hl' & Hn & Hq).
    exists w', ([PrintRemoving (mkKey b n); KeyDelete (mkKey b n)] ++ t).
    split; [| split; [| split; [| split; [| split; [| split]]]]].
    + simpl map. simpl for_each. eapply bind_run; [exact Hd | exact Hr].
    + rewrite Hk, filter_filter. f_equal. apply filter_ext. intros x. simpl.
      rewrite negb_orb. reflexivity.
    + intros b' Hb'. rewrite (Ho b' Hb'). simpl.
      apply (lookup_remove_key_other (mkKey b n)). exact Hb'.
    + rewrite Hi. reflexivity.
    + exact Hl'.
    + rewrite CloudFacts.count_deletes_app, Hn. reflexivity.
    + simpl. exact Hq.
Qed.

Lemma keys_with_prefix_after b p ks :
  Cloud.keys_with_prefix b p
    (filter (fun x => negb (existsb (String.eqb x)
                              (filter (fun k => PyStr.startswith k p) ks))) ks)
  = []
  /\ filter (fun x => negb (existsb (String.eqb x)
                              (filter (fun k => PyStr.startswith k p) ks))) ks
     = filter (fun k => negb (PyStr.startswith k p)) ks.
Proof.
  assert (E : filter (fun x => negb (existsb (String.eqb x)
                                       (filter (fun k => PyStr.startswith k p) ks))) ks
              = filter (fun k => negb (PyStr.startswith k p)) ks).
  { apply filter_ext_in. intros x Hx.
    rewrite (existsb_filter_self (fun k => PyStr.startswith k p) ks x Hx).
    reflexivity. }
  split; [| exact E]. rewrite E. unfold Cloud.keys_with_prefix.
  rewrite filter_filter.
  replace (filter _ ks) with (@nil string); [reflexivity |].
  symmetry. clear E. induction ks as [| x l IH]; simpl; [reflexivity |].
  destruct (PyStr.startswith x p); simpl; exact IH.
Qed.

Section OneImage.

Variable image_id : string.
Variable image : Image.
Variable ks : list string.

Local Abbreviation bucketname := (PyStr.split_head (location image) "/").
Local Abbreviation files := (Cloud.keys_with_prefix bucketname (image_prefix image) ks).
Local Abbreviation kept :=
  (filter (fun k => negb (PyStr.startswith k (image_prefix image))) ks).

(** One pass of the file phase deletes the files and finds none left. *)
Lemma remove_image_files_one_pass fuel (w : world Cloud.remote) :
  Cloud.deletes_lost (remote w) = false ->
  registered_with image_id image ks (remote w) ->
  exists w' t,
    remove_image_files Cloud.remote fuel image_id false w = (Ok tt, w', t)
    /\ Cloud.lookup bucketname (Cloud.buckets (remote w')) = Some kept
    /\ (forall b', b' <> bucketname ->
          Cloud.lookup b' (Cloud.buckets (remote w'))
          = Cloud.lookup b' (Cloud.buckets (remote w)))
    /\ Cloud.images (remote w') = Cloud.images (remote w)
    /\ count_deletes t = length files
    /\ forallb not_deregister t = true.
Proof.
  intros Hl S0.
  destruct (CloudFacts.get_image_ok image_id w) as (w1 & t1 & H1 & R1).
  rewrite (proj1 S0) in H1.
  assert (S1 : registered_with image_id image ks (remote w1)) by (rewrite R1; exact S0).
  destruct (CloudFacts.get_image_files_ok image_id w1 image ks (proj1 S1) (proj2 S1))
    as (w2 & t2 & H2 & R2).
  assert (L2 : Cloud.deletes_lost (remote w2) = false) by (rewrite R2, R1; exact Hl).
  assert (B2 : Cloud.lookup bucketname (Cloud.buckets (remote w2)) = Some ks)
    by (rewrite R2; exact (proj2 S1)).
  destruct (for_each_delete_works bucketname
              (filter (fun k => PyStr.startswith k (image_prefix image)) ks)
              w2 ks L2 B2)
    as (w3 & t3 & H3 & K3 & O3 & I3 & L3 & N3 & D3).
  destruct (keys_with_prefix_after bucketname (image_prefix image) ks) as [Hnone Hkept].
  rewrite Hkept in K3.
  assert (F3 : found (remote w3) image_id = Some image).
  { unfold found. rewrite I3, R2. exact (proj1 S1). }
  destruct (CloudFacts.get_image_files_ok image_id w3 image kept F3 K3)
    as (w4 & t4 & H4 & R4).
  rewrite <- Hkept in H4 at 1. rewrite Hnone in H4.
  exists w4. eexists. split; [| split; [| split; [| split; [| split]]]].
  - destruct fuel; simpl;
      (eapply bind_run; [exact H1 |]; cbv beta iota;
       eapply bind_run; [exact H2 |];
       eapply bind_run; [exact H3 |];
       eapply bind_run; [exact H4 |]; reflexivity).
  - rewrite R4. exact K3.
  - intros b' Hb'. rewrite R4, (O3 b' Hb'), R2, R1. reflexivity.
  - rewrite R4, I3, R2, R1. reflexivity.
  - rewrite !CloudFacts.count_deletes_app, N3.
    rewrite (CloudFacts.count_deletes_quiet _ (CloudFacts.run_quiet (get_image_quiet _ _) H1)).
    rewrite (CloudFacts.count_deletes_quiet _ (CloudFacts.run_quiet (get_image_files_quiet _ _) H2)).
    rewrite (CloudFacts.count_deletes_quiet _ (CloudFacts.run_quiet (get_image_files_quiet _ _) H4)).
    unfold Cloud.keys_with_prefix. rewrite length_map.
    change (count_deletes []) with 0. simpl. lia.
  - rewrite !forallb_app, D3.
    rewrite (quiet_not_deregister _ (CloudFacts.run_quiet (get_image_quiet _ _) H1)).
    rewrite (quiet_not_deregister _ (CloudFacts.run_quiet (get_image_files_quiet _ _) H2)).
    rewrite (quiet_not_deregister _ (CloudFacts.run_quiet (get_image_files_quiet _ _) H4)).
    reflexivity.
Qed.

Lemma remove_image_one_pass fuel (w : world Cloud.remote) :
  Cloud.deletes_lost (remote w) = false ->
  registered_with image_id image ks (remote w) ->
  exists w' t,
    remove_image Cloud.remote fuel image_id false w = (Ok tt, w', t)
    /\ Cloud.lookup bucketname (Cloud.buckets (remote w')) = Some kept
    /\ (forall b', b' <> bucketname ->
          Cloud.lookup b' (Cloud.buckets (remote w'))
          = Cloud.lookup b' (Cloud.buckets (remote w)))
    /\ Cloud.images (remote w')
       = filter (fun i => negb (String.eqb (id i) (id image))) (Cloud.images (remote w))
    /\ count_deletes t = length files.
Proof.
  intros Hl S0.
  destruct (CloudFacts.get_image_ok image_id w) as (w1 & t1 & H1 & R1).
  rewrite (proj1 S0) in H1.
  assert (S1 : registered_with image_id image ks (remote w1)) by (rewrite R1; exact S0).
  assert (L1 : Cloud.deletes_lost (remote w1) = false) by (rewrite R1; exact Hl).
  destruct (remove_image_files_one_pass fuel w1 L1 S1)
    as (w2 & t2 & H2 & K2 & O2 & I2 & N2 & D2).
  destruct (CloudFacts.conn_of_ok ComputeSide w2) as (c & w3 & t3 & H3 & R3).
  change (conn_of Cloud.remote ComputeSide) with (conn Cloud.remote) in H3.
  eexists _, _. split; [| split; [| split; [| split]]].
  - unfold remove_image, print_timing.
    eapply bind_run; [exact H1 |]. cbv beta iota.
    eapply bind_run; [reflexivity |].
    eapply bind_run; [reflexivity |].
    eapply bind_run; [exact H2 |].
    eapply bind_run; [reflexivity |].
    eapply bind_run; [exact H3 |].
    apply call_ok. reflexivity.
  - simpl. rewrite R3. exact K2.
  - intros b' Hb'. simpl. rewrite R3, (O2 b' Hb'), R1. reflexivity.
  - simpl. rewrite R3, I2, R1. reflexivity.
  - rewrite !CloudFacts.count_deletes_app, N2.
    rewrite (CloudFacts.count_deletes_quiet _ (CloudFacts.run_quiet (get_image_quiet _ _) H1)).
    rewrite (CloudFacts.count_deletes_quiet _ (CloudFacts.run_quiet (conn_quiet _ _ _) H3)).
    unfold count_deletes. simpl. lia.
Qed.

End OneImage.

End WorkingStore.

(** X6: Against a store that carries out the deletes, [remove_image(id,
    pretend=False)] returns after one pass of the file phase, whatever depth
    of recursion is allowed: it has made one delete call per file with the
    image's prefix, the image's bucket keeps exactly the keys without that
    prefix, the other buckets are as they were, and the image is no longer
    registered. *)
Theorem remove_image_removes_exactly_the_files fuel image_id
    (w : world Cloud.remote) image ks :
  Cloud.deletes_lost (remote w) = false ->
  found (remote w) image_id = Some image ->
  Cloud.lookup (PyStr.split_head (location image) "/") (Cloud.buckets (remote w))
    = Some ks ->
  exists w' t,
    remove_image Cloud.remote fuel image_id false w = (Ok tt, w', t)
    /\ Cloud.lookup (PyStr.split_head (location image) "/") (Cloud.buckets (remote w'))
       = Some (filter (fun k => negb (PyStr.startswith k (image_prefix image))) ks)
    /\ (forall b', b' <> PyStr.split_head (location image) "/" ->
          Cloud.lookup b' (Cloud.buckets (remote w'))
          = Cloud.lookup b' (Cloud.buckets (remote w)))
    /\ Cloud.images (remote w')
       = filter (fun i => negb (String.eqb (id i) (id image))) (Cloud.images (remote w))
    /\ count_deletes t
       = length (Cloud.keys_with_prefix (PyStr.split_head (location image) "/")
                   (image_prefix image) ks).
Proof.
  intros Hl Hi Hb.
  exact (WorkingStore.remove_image_one_pass image_id image ks fuel w Hl (conj Hi Hb)).
Qed.

Lemma remove_image_removes_exactly_the_files_witness :
  exists w' t,
    remove_image Cloud.remote 0 Scenario.ami false (Cloud.fresh Scenario.st)
    = (Ok tt, w', t)
    /\ Cloud.lookup "mybucket" (Cloud.buckets (remote w')) = Some ["other.part.0"]
    /\ (forall b', b' <> "mybucket" ->
          Cloud.lookup b' (Cloud.buckets (remote w'))
          = Cloud.lookup b' (Cloud.buckets Scenario.st))
    /\ Cloud.images (remote w') = []
    /\ count_deletes t = 3.
Proof.
  exact (remove_image_removes_exactly_the_files 0 Scenario.ami
           (Cloud.fresh Scenario.st)
           (mkImage Scenario.ami "mybucket/img.manifest.xml")
           ["img.manifest.xml"; "img.part.0"; "img.part.1"; "other.part.0"]
           eq_refl eq_refl eq_refl).
Defined.

(** ** The name of an image *)

Example split_location :
  PyList.split "mybucket/dir/img.manifest.xml" "/" = ["mybucket"; "dir"; "img.manifest.xml"].
Proof. reflexivity. Qed.

Example split_manifest :
  PyList.split "img.manifest.xml" ".manifest.xml" = ["img"; ""]
  /\ PyList.split "" "/" = [""]
  /\ PyList.split "a//b/" "/" = ["a"; ""; "b"; ""].
Proof. repeat split; reflexivity. Qed.

Example get_image_name_nested :
  get_image_name (mkImage Scenario.ami "mybucket/dir/img.manifest.xml") = inr "dir"
  /\ image_prefix (mkImage Scenario.ami "mybucket/dir/img.manifest.xml") = "img".
Proof. split; reflexivity. Qed.

Module SplitFacts.

Lemma append_assoc (a b c : string) : ((a ++ b) ++ c = a ++ (b ++ c))%string.
Proof. induction a as [| x a IH]; simpl; [reflexivity | rewrite IH; reflexivity]. Qed.

Lemma append_nil_r (a : string) : (a ++ "" = a)%string.
Proof. induction a as [| x a IH]; simpl; [reflexivity | rewrite IH; reflexivity]. Qed.

Lemma startswith_nil s : PyStr.startswith s "" = true.
Proof. destruct s; reflexivity. Qed.

(** The first piece of a split is what [split_head] computes. *)
Lemma split_from_head sep s : forall cur,
  exists rest,
    PyList.split_from sep 0 cur s = (cur ++ PyStr.split_head s sep)%string :: rest.
Proof.
  induction s as [| c s IH]; intros cur.
  - exists []. simpl. destruct sep; simpl; rewrite append_nil_r; reflexivity.
  - cbn [PyList.split_from PyStr.split_head].
    destruct (PyStr.startswith (String c s) sep).
    + eexists. rewrite append_nil_r. reflexivity.
    + destruct (IH (cur ++ String c "")%string) as [rest Hr].
      exists rest. rewrite Hr, append_assoc. reflexivity.
Qed.

Lemma split_head_is_first s sep :
  PyList.index (PyList.split s sep) 0 = inr (PyStr.split_head s sep).
Proof.
  unfold PyList.split. destruct (split_from_head sep s "") as [rest Hr].
  rewrite Hr. reflexivity.
Qed.

(** Without a ['/'] there is one piece only. *)
Lemma split_no_slash s : forall cur,
  PyStr.has_slash s = false ->
  PyList.split_from "/" 0 cur s = [(cur ++ s)%string].
Proof.
  induction s as [| c s IH]; intros cur H.
  - simpl. rewrite append_nil_r. reflexivity.
  - simpl in H. apply orb_false_iff in H. destruct H as [Hc Hs].
    cbn [PyList.split_from PyStr.startswith]. rewrite Ascii.eqb_sym, Hc. simpl.
    rewrite (IH _ Hs), append_assoc. reflexivity.
Qed.

(** Up to the first ['/'] is the first piece; the split goes on after it. *)
Lemma split_at_slash b n : forall cur,
  PyStr.has_slash b = false ->
  PyList.split_from "/" 0 cur (b ++ String "/" n)%string
  = (cur ++ b)%string :: PyList.split_from "/" 0 "" n.
Proof.
  induction b as [| c b IH]; intros cur H.
  - cbn [append PyList.split_from PyStr.startswith]. rewrite Ascii.eqb_refl.
    rewrite startswith_nil, append_nil_r. reflexivity.
  - simpl in H. apply orb_false_iff in H. destruct H as [Hc Hs].
    cbn [append PyList.split_from PyStr.startswith]. rewrite Ascii.eqb_sym, Hc. simpl.
    rewrite (IH _ Hs), append_assoc. reflexivity.
Qed.

Lemma has_slash_decompose s :
  PyStr.has_slash s = true ->
  exists b n, s = (b ++ String "/" n)%string /\ PyStr.has_slash b = false.
Proof.
  induction s as [| c s IH]; simpl; [discriminate |].
  destruct (Ascii.eqb_spec c "/") as [-> | Hc]; simpl.
  - intros _. exists "", s. split; reflexivity.
  - intros H. destruct (IH H) as (b & n & -> & Hb).
    exists (String c b), n. split; [reflexivity |]. simpl.
    destruct (Ascii.eqb_spec c "/"); [contradiction | exact Hb].
Qed.

Lemma basename_after_slash b n :
  PyStr.has_slash n = false -> PyStr.basename (b ++ String "/" n)%string = n.
Proof.
  intros Hn. induction b as [| c b IH].
  - simpl. rewrite Hn. reflexivity.
  - cbn [append PyStr.basename].
    replace (PyStr.has_slash (b ++ String "/" n)) with true; [exact IH |].
    symmetry. clear IH. induction b as [| d b IHb]; simpl; [reflexivity |].
    rewrite IHb, orb_true_r. reflexivity.
Qed.

Lemma split_head_before_slash b n :
  PyStr.has_slash b = false -> PyStr.split_head (b ++ String "/" n)%string "/" = b.
Proof.
  intros Hb. induction b as [| c b IH].
  - cbn [append PyStr.split_head PyStr.startswith].
    rewrite Ascii.eqb_refl, startswith_nil. reflexivity.
  - simpl in Hb. apply orb_false_iff in Hb. destruct Hb as [Hc Hs].
    cbn [append PyStr.split_head PyStr.startswith].
    rewrite Ascii.eqb_sym, Hc. simpl. rewrite (IH Hs). reflexivity.
Qed.

End SplitFacts.

Lemma get_image_name_after_slash img b n :
  location img = (b ++ String "/" n)%string -> PyStr.has_slash b = false ->
  get_image_name img
  = inr (PyStr.split_head (PyStr.split_head n "/") ".manifest.xml").
Proof.
  intros E Hb. unfold get_image_name. unfold PyList.split at 1.
  rewrite E, (SplitFacts.split_at_slash b n "" Hb).
  destruct (SplitFacts.split_from_head "/" n "") as [rest Hr]. rewrite Hr.
  cbn [PyList.index nth_error append].
  apply SplitFacts.split_head_is_first.
Qed.

Lemma get_image_name_no_slash img :
  PyStr.has_slash (location img) = false -> get_image_name img = inl IndexError.
Proof.
  intros Hs. unfold get_image_name. unfold PyList.split at 1.
  rewrite (SplitFacts.split_no_slash _ "" Hs). reflexivity.
Qed.

(** X7: [get_image_name] raises [IndexError] exactly for a location without
    ['/']; with one, it returns what stands between the first ['/'] and
    the next, cut at the first [.manifest.xml]. *)
Theorem get_image_name_index_error img :
  (get_image_name img = inl IndexError <-> PyStr.has_slash (location img) = false)
  /\ (PyStr.has_slash (location img) = true ->
      exists b n,
        location img = (b ++ String "/" n)%string /\ PyStr.has_slash b = false
        /\ get_image_name img
           = inr (PyStr.split_head (PyStr.split_head n "/") ".manifest.xml")).
Proof.
  destruct (PyStr.has_slash (location img)) eqn:Hs.
  - destruct (SplitFacts.has_slash_decompose _ Hs) as (b & n & E & Hb).
    rewrite (get_image_name_after_slash img b n E Hb).
    split; [split; discriminate |]. intros _. exists b, n. auto.
  - rewrite (get_image_name_no_slash img Hs).
    split; [split; reflexivity | discriminate].
Qed.

(** X8: For a location of the form [bucket/name], with no other ['/'], the
    name listed for the image is the very prefix under which
    [get_image_files] looks for its files, and [bucket] is the bucket it
    looks in. *)
Theorem get_image_name_is_the_prefix img bucket name :
  location img = (bucket ++ String "/" name)%string ->
  PyStr.has_slash bucket = false -> PyStr.has_slash name = false ->
  get_image_name img = inr (image_prefix img)
  /\ PyStr.split_head (location img) "/" = bucket.
Proof.
  intros E Hb Hn. rewrite (get_image_name_after_slash img bucket name E Hb).
  unfold image_prefix. rewrite E.
  rewrite (SplitFacts.basename_after_slash bucket name Hn).
  rewrite (SplitFacts.split_head_before_slash bucket name Hb).
  split; [| reflexivity]. do 2 f_equal.
  clear E Hb. induction name as [| c n IH]; [reflexivity |].
  simpl in Hn. apply orb_false_iff in Hn. destruct Hn as [Hc Hs].
  cbn [PyStr.split_head PyStr.startswith]. rewrite Ascii.eqb_sym, Hc. simpl.
  rewrite (IH Hs). reflexivity.
Qed.

Lemma get_image_name_is_the_prefix_witness :
  get_image_name (mkImage Scenario.ami "mybucket/img.manifest.xml") = inr "img"
  /\ PyStr.split_head "mybucket/img.manifest.xml" "/" = "mybucket".
Proof.
  exact (get_image_name_is_the_prefix
           (mkImage Scenario.ami "mybucket/img.manifest.xml")
           "mybucket" "img.manifest.xml" eq_refl eq_refl eq_refl).
Defined.

(** * The other methods *)

(** ** Running them *)

Section XRun.

Variable X : Services.

Lemma xbind_run {A C} (m : MX X A) (f : A -> MX X C) w a w1 t1 o w2 t2 :
  m w = (Ok a, w1, t1) -> f a w1 = (o, w2, t2) -> xbind m f w = (o, w2, t1 ++ t2).
Proof. intros H1 H2. unfold xbind. rewrite H1, H2. reflexivity. Qed.

Lemma xbind_raise {A C} (m : MX X A) (f : A -> MX X C) w e w1 t1 :
  m w = (Raise e, w1, t1) -> xbind m f w = (Raise e, w1, t1).
Proof. intros H. unfold xbind. rewrite H. reflexivity. Qed.

Lemma lift_run {A} (m : M (core X) A) w o w1 t :
  m w = (o, w1, t) -> lift m w = (o, w1, map Core t).
Proof. intros H. unfold lift. rewrite H. reflexivity. Qed.

Lemma xcall_ok {A} e (op : rstate (core X) -> (failure + A) * rstate (core X)) w a rs :
  op (remote w) = (inr a, rs) -> xcall e op w = (Ok a, mkWorld (self w) rs, [e]).
Proof. intros H. unfold xcall. rewrite H. reflexivity. Qed.

Lemma xcall_raise {A} e (op : rstate (core X) -> (failure + A) * rstate (core X))
    w f rs :
  op (remote w) = (inl f, rs) ->
  xcall e op w = (Raise (BotoError (failure_msg f)), mkWorld (self w) rs, [e]).
Proof. intros H. unfold xcall. rewrite H. reflexivity. Qed.

Lemma try_call_answer {A} e (op : rstate (core X) -> (failure + A) * rstate (core X))
    w a rs :
  op (remote w) = (inr a, rs) ->
  try_call e op w = (Ok (Some a), mkWorld (self w) rs, [e]).
Proof. intros H. unfold try_call. rewrite H. reflexivity. Qed.

Lemma try_call_caught {A} e (op : rstate (core X) -> (failure + A) * rstate (core X))
    w msg rs :
  op (remote w) = (inl (ResponseError msg), rs) ->
  try_call e op w = (Ok None, mkWorld (self w) rs, [e]).
Proof. intros H. unfold try_call. rewrite H. reflexivity. Qed.

Lemma try_call_other {A} e (op : rstate (core X) -> (failure + A) * rstate (core X))
    w msg rs :
  op (remote w) = (inl (OtherFailure msg), rs) ->
  try_call e op w = (Raise (BotoError msg), mkWorld (self w) rs, [e]).
Proof. intros H. unfold try_call. rewrite H. reflexivity. Qed.

End XRun.

Arguments xbind_run {X A C} m f {w a w1 t1 o w2 t2} _ _.
Arguments xbind_raise {X A C} m f {w e w1 t1} _.
Arguments lift_run {X A} m {w o w1 t} _.
Arguments xcall_ok {X A} e op {w a rs} _.
Arguments xcall_raise {X A} e op {w f rs} _.
Arguments try_call_answer {X A} e op {w a rs} _.
Arguments try_call_caught {X A} e op {w msg rs} _.
Arguments try_call_other {X A} e op {w msg rs} _.

(** ** Lookups and their empty answers *)

(** X9: [get_zone] catches the [IndexError] of an empty answer and returns
    [None]; it returns the first zone of a non-empty answer; and it does
    not catch what the call itself raises. *)
Theorem get_zone_found_or_none (X : Services) zone w c w1 t :
  conn (core X) w = (Ok c, w1, t) ->
  get_zone X zone w
  = (match fst (conn_get_all_zones X c [zone] (remote w1)) with
     | inr [] => Ok None
     | inr (z :: _) => Ok (Some z)
     | inl f => Raise (BotoError (failure_msg f))
     end,
     mkWorld (self w1) (snd (conn_get_all_zones X c [zone] (remote w1))),
     map Core t ++ [GetAllZones c [zone]]).
Proof.
  intros Hc. unfold get_zone, xexcept_IndexError.
  destruct (conn_get_all_zones X c [zone] (remote w1)) as [[f | zs] rs] eqn:Hz.
  - rewrite (xbind_run _ _ (lift_run _ Hc)
               (xbind_raise _ _ (xcall_raise _ _ Hz))).
    reflexivity.
  - destruct zs as [| z zs].
    + erewrite (xbind_run _ _ (lift_run _ Hc)).
      2:{ eapply xbind_run; [apply (xcall_ok _ _ Hz) |].
          apply xbind_raise. reflexivity. }
      simpl. rewrite ?app_nil_r. reflexivity.
    + erewrite (xbind_run _ _ (lift_run _ Hc)).
      2:{ eapply xbind_run; [apply (xcall_ok _ _ Hz) |].
          eapply xbind_run; reflexivity. }
      simpl. rewrite ?app_nil_r. reflexivity.
Qed.

Lemma get_zone_found_or_none_witness :
  xoutcome_of (get_zone Cloud2.services "us-east-1b" (Cloud.fresh Scenario.st))
  = Ok (Some (mkZone "us-east-1b"))
  /\ xoutcome_of (get_zone Cloud2.services "mars-1a" (Cloud.fresh Scenario.st))
     = Ok None.
Proof.
  split.
  - rewrite (get_zone_found_or_none Cloud2.services "us-east-1b"
               (Cloud.fresh Scenario.st) 0 _ _ eq_refl).
    reflexivity.
  - rewrite (get_zone_found_or_none Cloud2.services "mars-1a"
               (Cloud.fresh Scenario.st) 0 _ _ eq_refl).
    reflexivity.
Defined.

(** X10: [get_instance] returns [None] when the service answers with its
    response error; an empty answer, or a first reservation without
    instances, is not caught and [IndexError] goes up.  In every case the
    one call made is the lookup. *)
Theorem get_instance_outcomes (X : Services) instance_id w c w1 t :
  conn (core X) w = (Ok c, w1, t) ->
  xoutcome_of (get_instance X instance_id w)
  = match fst (conn_get_all_instances X c [instance_id] (remote w1)) with
    | inl (ResponseError _) => Ok None
    | inl (OtherFailure msg) => Raise (BotoError msg)
    | inr [] => Raise IndexError
    | inr (res :: _) =>
        match instances res with
        | [] => Raise IndexError
        | i :: _ => Ok (Some i)
        end
    end
  /\ xtrace_of (get_instance X instance_id w)
     = map Core t ++ [GetAllInstances c [instance_id]].
Proof.
  intros Hc. unfold get_instance.
  destruct (conn_get_all_instances X c [instance_id] (remote w1))
    as [[[msg | msg] | res] rs] eqn:Hi.
  - erewrite (xbind_run _ _ (lift_run _ Hc)).
    2:{ eapply xbind_run; [apply (try_call_caught _ _ Hi) | reflexivity]. }
    simpl. rewrite ?app_nil_r. split; reflexivity.
  - rewrite (xbind_run _ _ (lift_run _ Hc)
               (xbind_raise _ _ (try_call_other _ _ Hi))).
    split; reflexivity.
  - destruct res as [| res0 rest].
    + erewrite (xbind_run _ _ (lift_run _ Hc)).
      2:{ eapply xbind_run; [apply (try_call_answer _ _ Hi) |].
          apply xbind_raise. reflexivity. }
      simpl. rewrite ?app_nil_r. split; reflexivity.
    + destruct (instances res0) as [| i is_] eqn:Hr.
      * erewrite (xbind_run _ _ (lift_run _ Hc)).
        2:{ eapply xbind_run; [apply (try_call_answer _ _ Hi) |].
            eapply xbind_run; [reflexivity |]. cbv beta. rewrite Hr.
            apply xbind_raise. reflexivity. }
        simpl. rewrite ?app_nil_r, ?Hr. split; reflexivity.
      * erewrite (xbind_run _ _ (lift_run _ Hc)).
        2:{ eapply xbind_run; [apply (try_call_answer _ _ Hi) |].
            eapply xbind_run; [reflexivity |]. cbv beta. rewrite Hr.
            eapply xbind_run; reflexivity. }
        simpl. rewrite ?app_nil_r, ?Hr. split; reflexivity.
Qed.

Lemma get_instance_outcomes_witness :
  xoutcome_of (get_instance Cloud2.services "i-0001" (Cloud.fresh Scenario.st))
  = Ok (Some Cloud2.master)
  /\ xoutcome_of (get_instance Cloud2.services "i-9999" (Cloud.fresh Scenario.st))
     = Ok None.
Proof.
  split.
  - exact (proj1 (get_instance_outcomes Cloud2.services "i-0001"
                    (Cloud.fresh Scenario.st) 0 _ _ eq_refl)).
  - exact (proj1 (get_instance_outcomes Cloud2.services "i-9999"
                    (Cloud.fresh Scenario.st) 0 _ _ eq_refl)).
Defined.

(** X11: [get_keypair] and [get_security_group] index the answer without any
    guard: an empty answer raises [IndexError]. *)
Theorem unguarded_lookups_raise (X : Services) name w c w1 t :
  conn (core X) w = (Ok c, w1, t) ->
  (forall rs, conn_get_all_key_pairs X c [name] (remote w1) = (inr [], rs) ->
     get_keypair X name w
     = (Raise IndexError, mkWorld (self w1) rs,
        map Core t ++ [GetAllKeyPairs c [name]]))
  /\ (forall rs, conn_get_all_security_groups X c [name] (remote w1) = (inr [], rs) ->
        get_security_group X name w
        = (Raise IndexError, mkWorld (self w1) rs,
           map Core t ++ [GetAllSecurityGroups c [name]])).
Proof.
  intros Hc. split; intros rs Ha.
  - unfold get_keypair.
    erewrite (xbind_run _ _ (lift_run _ Hc)).
    2:{ eapply xbind_run; [apply (xcall_ok _ _ Ha) | reflexivity]. }
    simpl. reflexivity.
  - unfold get_security_group.
    erewrite (xbind_run _ _ (lift_run _ Hc)).
    2:{ eapply xbind_run; [apply (xcall_ok _ _ Ha) | reflexivity]. }
    simpl. reflexivity.
Qed.

Lemma unguarded_lookups_raise_witness :
  xoutcome_of (get_keypair Cloud2.services "nokey" (Cloud.fresh Scenario.st))
  = Raise IndexError.
Proof.
  rewrite (proj1 (unguarded_lookups_raise Cloud2.services "nokey"
                    (Cloud.fresh Scenario.st) 0 _ _ eq_refl)
             Scenario.st eq_refl).
  reflexivity.
Defined.

(** ** Security groups *)

Lemma filter_xmutating_quiet t :
  forallb quiet t = true -> filter xmutating (map Core t) = [].
Proof.
  induction t as [| e t IH]; simpl; [reflexivity |].
  intros H. apply andb_true_iff in H. destruct H as [He Ht].
  unfold quiet in He. apply negb_true_iff in He. rewrite He. auto.
Qed.

Lemma existsb_filter_nil {A} (P : A -> bool) l :
  filter P l = [] -> existsb P l = false.
Proof.
  induction l as [| x l IH]; simpl; [reflexivity |].
  destruct (P x); [discriminate | exact IH].
Qed.

Lemma conn_again (B : Remote) w c w1 t rs :
  conn B w = (Ok c, w1, t) ->
  conn B (mkWorld (self w1) rs) = (Ok c, mkWorld (self w1) rs, []).
Proof.
  intros Hc. apply (conn_of_memo B ComputeSide).
  exact (proj1 (conn_of_stores B ComputeSide c w w1 t Hc)).
Qed.

(** X12: [get_or_create_group] creates or authorizes nothing unless the lookup
    has raised the response error of the service and the name is not
    empty: a group that is found, an empty answer, another failure or an
    empty name all leave the service untouched. *)
Theorem get_or_create_group_creates_only_when_missing (X : Services)
    name description auth_ssh auth_group_traffic w :
  existsb xmutating
    (xtrace_of (get_or_create_group X name description auth_ssh auth_group_traffic w))
  = true ->
  name <> ""
  /\ exists c w1 t msg rs,
       conn (core X) w = (Ok c, w1, t)
       /\ conn_get_all_security_groups X c [name] (remote w1)
          = (inl (ResponseError msg), rs).
Proof.
  unfold get_or_create_group.
  pose proof (conn_quiet (core X) ec2_base set_ec2_base w) as Hq.
  fold (conn (core X)) in Hq.
  destruct (conn (core X) w) as [[[c | e |] w1] t] eqn:Hc;
    unfold trace_of in Hq; cbn [snd] in Hq.
  - destruct (conn_get_all_security_groups X c [name] (remote w1))
      as [[[msg | msg] | groups] rs] eqn:Hg.
    + destruct (String.eqb_spec name "") as [-> | Hn].
      * erewrite (xbind_run _ _ (lift_run _ Hc)).
        2:{ eapply xbind_run; [apply (try_call_caught _ _ Hg) | reflexivity]. }
        unfold xtrace_of. cbn [snd]. intros H. exfalso. revert H.
        rewrite existsb_filter_nil; [discriminate |].
        rewrite !filter_app, (filter_xmutating_quiet _ Hq). reflexivity.
      * intros _. split; [exact Hn |]. exists c, w1, t, msg, rs. auto.
    + rewrite (xbind_run _ _ (lift_run _ Hc)
                 (xbind_raise _ _ (try_call_other _ _ Hg))).
      unfold xtrace_of. cbn [snd]. intros H. exfalso. revert H.
      rewrite existsb_filter_nil; [discriminate |].
      rewrite !filter_app, (filter_xmutating_quiet _ Hq). reflexivity.
    + assert (Hi : exists o,
                 (sg <- lift (index0 (core X) groups) ;; xret (Some sg))%x
                   (mkWorld (self w1) rs)
                 = (o, mkWorld (self w1) rs, [])).
      { destruct groups; eexists; reflexivity. }
      destruct Hi as [o Hi].
      erewrite (xbind_run _ _ (lift_run _ Hc)).
      2:{ eapply xbind_run; [apply (try_call_answer _ _ Hg) | exact Hi]. }
      unfold xtrace_of. cbn [snd]. intros H. exfalso. revert H.
      rewrite existsb_filter_nil; [discriminate |].
      rewrite !filter_app, (filter_xmutating_quiet _ Hq). reflexivity.
  - unfold xbind. rewrite (lift_run _ Hc).
    unfold xtrace_of. cbn [snd]. intros H. exfalso. revert H.
    rewrite existsb_filter_nil; [discriminate |].
    exact (filter_xmutating_quiet _ Hq).
  - unfold xbind. rewrite (lift_run _ Hc).
    unfold xtrace_of. cbn [snd]. intros H. exfalso. revert H.
    rewrite existsb_filter_nil; [discriminate |].
    exact (filter_xmutating_quiet _ Hq).
Qed.

Lemma get_or_create_group_creates_only_when_missing_witness :
  "cluster" <> ""
  /\ exists c w1 t msg rs,
       conn (core Cloud2.services) (Cloud.fresh Scenario.st) = (Ok c, w1, t)
       /\ conn_get_all_security_groups Cloud2.services c ["cluster"] (remote w1)
          = (inl (ResponseError msg), rs).
Proof.
  exact (get_or_create_group_creates_only_when_missing Cloud2.services
           "cluster" "a cluster" true false (Cloud.fresh Scenario.st) eq_refl).
Defined.

(** X13: When the lookup raises the response error and the name is not empty,
    [get_or_create_group] creates the group under that name and
    description and returns it; it opens port 22 to every address when
    [auth_ssh] is set and then the traffic between the members when
    [auth_group_traffic] is set, after the creation and in that order. *)
Theorem get_or_create_group_creates (X : Services)
    name description auth_ssh auth_group_traffic w c w1 t msg rs sg rs2 :
  conn (core X) w = (Ok c, w1, t) ->
  conn_get_all_security_groups X c [name] (remote w1) = (inl (ResponseError msg), rs) ->
  name <> "" ->
  conn_create_security_group X c name description rs = (inr sg, rs2) ->
  (forall g rs', fst (sg_authorize X sg g rs') = inr tt) ->
  xoutcome_of (get_or_create_group X name description auth_ssh auth_group_traffic w)
  = Ok (Some sg)
  /\ filter xmutating
       (xtrace_of (get_or_create_group X name description auth_ssh auth_group_traffic w))
     = CreateSecurityGroup c name description
       :: (if auth_ssh then [Authorize sg (IpGrant "tcp" 22 22 "0.0.0.0/0")] else [])
       ++ (if auth_group_traffic then [Authorize sg (GroupGrant sg)] else []).
Proof.
  intros Hc Hg Hn Hs Ha.
  pose proof (conn_quiet (core X) ec2_base set_ec2_base w) as Hq.
  fold (conn (core X)) in Hq. rewrite Hc in Hq. unfold trace_of in Hq. cbn [snd] in Hq.
  assert (Hauth : forall g (w0 : world (core X)),
             exists rs', xcall (Authorize sg g) (sg_authorize X sg g) w0
                         = (Ok tt, mkWorld (self w0) rs', [Authorize sg g])).
  { intros g w0. specialize (Ha g (remote w0)).
    destruct (sg_authorize X sg g (remote w0)) as [[f | []] rs'] eqn:E;
      [discriminate |].
    exists rs'. apply (xcall_ok _ _ E). }
  unfold get_or_create_group.
  destruct (String.eqb_spec name "") as [E | _]; [contradiction |].
  set (w2 := mkWorld (self w1) rs2).
  destruct (Hauth (IpGrant "tcp" 22 22 "0.0.0.0/0") w2) as [rs3 H3].
  assert (Hrest : forall w0 : world (core X),
             exists w' t',
               ((if auth_group_traffic
                 then xcall (Authorize sg (GroupGrant sg))
                            (sg_authorize X sg (GroupGrant sg))
                 else xret tt) ;; xret (Some sg))%x w0
               = (Ok (Some sg), w',
                  (if auth_group_traffic then [Authorize sg (GroupGrant sg)] else [])
                  ++ t')
               /\ t' = []).
  { intros w0. destruct auth_group_traffic.
    - destruct (Hauth (GroupGrant sg) w0) as [rs' H'].
      eexists _, _. split; [eapply xbind_run; [exact H' | reflexivity] | reflexivity].
    - eexists _, _. split; reflexivity. }
  assert (Hssh : exists w' t',
             ((if auth_ssh
               then xcall (Authorize sg (IpGrant "tcp" 22 22 "0.0.0.0/0"))
                          (sg_authorize X sg (IpGrant "tcp" 22 22 "0.0.0.0/0"))
               else xret tt) ;;
              (if auth_group_traffic
               then xcall (Authorize sg (GroupGrant sg))
                          (sg_authorize X sg (GroupGrant sg))
               else xret tt) ;; xret (Some sg))%x w2
             = (Ok (Some sg), w', t')
             /\ filter xmutating t'
                = (if auth_ssh then [Authorize sg (IpGrant "tcp" 22 22 "0.0.0.0/0")] else [])
                  ++ (if auth_group_traffic then [Authorize sg (GroupGrant sg)] else [])).
  { destruct auth_ssh.
    - destruct (Hrest (mkWorld (self w2) rs3)) as (w' & t' & Hr & ->).
      eexists _, _. split; [eapply xbind_run; [exact H3 | exact Hr] |].
      destruct auth_group_traffic; reflexivity.
    - destruct (Hrest w2) as (w' & t' & Hr & ->).
      eexists _, _. split; [eapply xbind_run; [reflexivity | exact Hr] |].
      destruct auth_group_traffic; reflexivity. }
  destruct Hssh as (w' & t' & Hrun & Hfilter).
  erewrite (xbind_run _ _ (lift_run _ Hc)).
  2:{ eapply xbind_run; [apply (try_call_caught _ _ Hg) |]. cbv beta iota.
      eapply xbind_run; [reflexivity |].
      eapply xbind_run; [apply (lift_run _ (conn_again (core X) w c w1 t rs Hc)) |].
      eapply xbind_run; [| exact Hrun].
      exact (@xcall_ok X _ _ _ (mkWorld (self w1) rs) _ _ Hs). }
  unfold xoutcome_of, xtrace_of. cbn [fst snd]. split; [reflexivity |].
  rewrite !filter_app, (filter_xmutating_quiet _ Hq), Hfilter. reflexivity.
Qed.

Lemma get_or_create_group_creates_witness :
  xoutcome_of (get_or_create_group Cloud2.services "cluster" "a cluster" true true
                 (Cloud.fresh Scenario.st))
  = Ok (Some (mkSecurityGroup "cluster" "a cluster"))
  /\ filter xmutating
       (xtrace_of (get_or_create_group Cloud2.services "cluster" "a cluster" true true
                     (Cloud.fresh Scenario.st)))
     = [CreateSecurityGroup 0 "cluster" "a cluster";
        Authorize (mkSecurityGroup "cluster" "a cluster")
                  (IpGrant "tcp" 22 22 "0.0.0.0/0");
        Authorize (mkSecurityGroup "cluster" "a cluster")
                  (GroupGrant (mkSecurityGroup "cluster" "a cluster"))].
Proof.
  apply (get_or_create_group_creates Cloud2.services "cluster" "a cluster" true true
           (Cloud.fresh Scenario.st) 0
           (world_of (conn Cloud.remote (Cloud.fresh Scenario.st)))
           (trace_of (conn Cloud.remote (Cloud.fresh Scenario.st)))
           "InvalidGroup.NotFound" Scenario.st
           (mkSecurityGroup "cluster" "a cluster") Scenario.st);
    try reflexivity.
  discriminate.
Defined.

(** ** The files of a bucket *)

Lemma finishes_s3_get_bucket (B : Remote) bucketname :
  finishes (s3_get_bucket B bucketname).
Proof.
  pose proof (finishes_conn B). unfold s3_get_bucket, s3_conn. repeat finishes_step.
Qed.

Lemma printed_app t1 t2 : printed (t1 ++ t2) = printed t1 ++ printed t2.
Proof.
  induction t1 as [| e t1 IH]; simpl; [reflexivity |].
  destruct e; simpl; rewrite IH; reflexivity.
Qed.

Lemma printed_core t : printed (map Core t) = [].
Proof. induction t as [| e t IH]; simpl; auto. Qed.

Lemma asks_bucket_core t : existsb asks_bucket (map Core t) = false.
Proof. induction t as [| e t IH]; simpl; auto. Qed.

(** What [get_bucket_files] comes to, by what [get_bucket] did. *)
Lemma get_bucket_files_run (X : Services) bucketname w :
  exists w1 t,
    (get_bucket_files X bucketname w = (Ok None, w1, map Core t)
     /\ exists e, s3_get_bucket (core X) bucketname w = (Raise e, w1, t))
    \/ (get_bucket_files X bucketname w = (Raise (NameError "bucket_name"), w1, map Core t)
        /\ exists b, s3_get_bucket (core X) bucketname w = (Ok b, w1, t)).
Proof.
  pose proof (finishes_s3_get_bucket (core X) bucketname w) as Hfin.
  destruct (s3_get_bucket (core X) bucketname w) as [[[b | e |] w1] t] eqn:Hb.
  - exists w1, t. right. split; [| exists b; reflexivity].
    unfold get_bucket_files, xbind, except_all. rewrite (lift_run _ Hb). simpl.
    rewrite !app_nil_r. reflexivity.
  - exists w1, t. left. split; [| exists e; reflexivity].
    unfold get_bucket_files, xbind, except_all. rewrite (lift_run _ Hb). simpl.
    rewrite !app_nil_r. reflexivity.
  - exfalso. apply Hfin. reflexivity.
Qed.

(** X14: [get_bucket_files] never returns a list of files.  When [get_bucket]
    raises, whatever it raises, the method returns [None]; when it
    returns, the method raises [NameError] on the unbound name
    [bucket_name].  Either way it has not asked whether the bucket exists
    nor for its entries. *)
Theorem get_bucket_files_never_lists (X : Services) bucketname w :
  (xoutcome_of (get_bucket_files X bucketname w) = Ok None
   /\ (exists e, outcome_of (s3_get_bucket (core X) bucketname w) = Raise e)
   \/ xoutcome_of (get_bucket_files X bucketname w) = Raise (NameError "bucket_name")
      /\ (exists b, outcome_of (s3_get_bucket (core X) bucketname w) = Ok b))
  /\ existsb asks_bucket (xtrace_of (get_bucket_files X bucketname w)) = false.
Proof.
  destruct (get_bucket_files_run X bucketname w)
    as (w1 & t & [[Hr (e & Hb)] | [Hr (b & Hb)]]); rewrite Hr, Hb.
  - split; [left; split; [reflexivity | exists e; reflexivity] |].
    apply asks_bucket_core.
  - split; [right; split; [reflexivity | exists b; reflexivity] |].
    apply asks_bucket_core.
Qed.




Example show_bucket_files_of_a_bucket :
  xoutcome_of (show_bucket_files Cloud2.services "mybucket" (Cloud.fresh Scenario.st))
  = Raise (NameError "bucket_name")
  /\ xoutcome_of (get_bucket_files Cloud2.services "nobucket" (Cloud.fresh Scenario.st))
     = Ok None.
Proof. split; reflexivity. Qed.

(** ** Sorting by a key *)

Module SortFacts.

Section Sort.

Context {A : Type} (key : A -> string).

Local Abbreviation le := (fun a b => String.leb (key a) (key b) = true).

Lemma ltb_leb s1 s2 : String.ltb s1 s2 = true -> String.leb s1 s2 = true.
Proof.
  unfold String.ltb, String.leb.
  destruct (String.compare s1 s2); intros H; auto; discriminate.
Qed.

Lemma not_ltb_leb s1 s2 : String.ltb s1 s2 = false -> String.leb s2 s1 = true.
Proof.
  unfold String.ltb, String.leb. rewrite (String.compare_antisym s2 s1).
  destruct (String.compare s1 s2); simpl; intros H; auto; discriminate.
Qed.

Lemma insert_by_perm x l : Permutation (PyList.insert_by key x l) (x :: l).
Proof.
  induction l as [| y l IH]; simpl; [reflexivity |].
  destruct (String.ltb (key y) (key x)); [| reflexivity].
  rewrite IH. apply perm_swap.
Qed.

Lemma sort_by_perm l : Permutation (PyList.sort_by key l) l.
Proof.
  induction l as [| x l IH]; simpl; [reflexivity |].
  rewrite insert_by_perm, IH. reflexivity.
Qed.

Lemma insert_by_hdrel a x l :
  le a x -> HdRel le a l -> HdRel le a (PyList.insert_by key x l).
Proof.
  intros Hax Hl. destruct l as [| y l]; simpl.
  - constructor. exact Hax.
  - destruct (String.ltb (key y) (key x)).
    + constructor. inversion Hl; subst. assumption.
    + constructor. exact Hax.
Qed.

Lemma insert_by_sorted x l : Sorted le l -> Sorted le (PyList.insert_by key x l).
Proof.
  induction l as [| y l IH]; intros Hs; simpl.
  - repeat constructor.
  - inversion Hs as [| ? ? Hs' Hh]; subst.
    destruct (String.ltb (key y) (key x)) eqn:E.
    + constructor; [apply IH; exact Hs' |].
      apply insert_by_hdrel; [cbv beta; apply ltb_leb; exact E | exact Hh].
    + constructor; [exact Hs |]. constructor. cbv beta.
      apply not_ltb_leb. exact E.
Qed.

Lemma sort_by_sorted l : Sorted le (PyList.sort_by key l).
Proof.
  induction l as [| x l IH]; simpl; [constructor |].
  apply insert_by_sorted. exact IH.
Qed.

End Sort.

End SortFacts.

(** ** Listings *)

Section Listings.

Variable X : Services.

Lemma print_run line (w : world (core X)) :
  print line w = (Ok tt, w, [Print line]).
Proof. reflexivity. Qed.

Lemma print_header_run msg (w : world (core X)) :
  print_header X msg w
  = (Ok tt, w, [Print msg; Print (PyList.repeat_char "-" (PyStr.len msg))]).
Proof. reflexivity. Qed.

(** The loop over images whose locations all have a name part. *)
Lemma list_images_from_all imgs : forall counter (w : world (core X)),
  forallb has_name imgs = true ->
  list_images_from X counter imgs w = (Ok tt, w, map Print (numbered X counter imgs)).
Proof.
  induction imgs as [| image rest IH]; intros counter w H; [reflexivity |].
  simpl in H. apply andb_true_iff in H. destruct H as [Hi Hr].
  unfold has_name in Hi.
  destruct (SplitFacts.has_slash_decompose _ Hi) as (b & n & E & Hb).
  pose proof (get_image_name_after_slash image b n E Hb) as Hn.
  cbn [list_images_from numbered map]. unfold listing_line. rewrite Hn.
  change (Print ?l :: ?t) with ([] ++ [Print l] ++ t).
  eapply xbind_run; [reflexivity |].
  eapply xbind_run; [reflexivity |].
  apply IH. exact Hr.
Qed.

(** The loop stops with [IndexError] at the first image without one. *)
Lemma list_images_from_some_bad imgs : forall counter (w : world (core X)),
  forallb has_name imgs = false ->
  exists t,
    list_images_from X counter imgs w = (Raise IndexError, w, t).
Proof.
  induction imgs as [| image rest IH]; intros counter w H; [discriminate |].
  simpl in H. cbn [list_images_from].
  destruct (has_name image) eqn:Hi; simpl in H.
  - unfold has_name in Hi.
    destruct (SplitFacts.has_slash_decompose _ Hi) as (b & n & E & Hb).
    rewrite (get_image_name_after_slash image b n E Hb).
    destruct (IH (S counter) w H) as [t Ht].
    eexists.
    eapply xbind_run; [reflexivity |].
    eapply xbind_run; [reflexivity |]. exact Ht.
  - unfold has_name in Hi. rewrite (get_image_name_no_slash image Hi).
    eexists. reflexivity.
Qed.

Lemma forallb_perm {A} (P : A -> bool) l l' :
  Permutation l l' -> forallb P l = forallb P l'.
Proof.
  induction 1; simpl.
  - reflexivity.
  - rewrite IHPermutation. reflexivity.
  - destruct (P x), (P y); reflexivity.
  - congruence.
Qed.

End Listings.

(** X16: When every registered image of a listed architecture has a ['/'] in
    its location, [list_registered_images] returns after printing, under
    each of the two headers, one line per registered image of that
    architecture, numbered from 0, in ascending order of region and
    location, and then the total, which counts the registered images of
    every architecture.  The second header starts with a newline, and its
    underline is one dash longer than its text. *)
Theorem list_registered_images_listing (X : Services) w images w1 t :
  registered_images (core X) w = (Ok images, w1, t) ->
  (forall img, In img images -> listed X img = true -> has_name img = true) ->
  exists l32 l64,
    Permutation l32 (filter (fun img => String.eqb (architecture X img) "i386") images)
    /\ Sorted (key_le X) l32
    /\ Permutation l64
         (filter (fun img => String.eqb (architecture X img) "x86_64") images)
    /\ Sorted (key_le X) l64
    /\ list_registered_images X w
       = (Ok tt, w1,
          map Core t
          ++ map Print
               (["Your 32bit Images:"; "------------------"]
                ++ numbered X 0 l32
                ++ [(PyList.nl ++ "Your 64bit Images:")%string; "-------------------"]
                ++ numbered X 0 l64
                ++ [(PyList.nl ++ "total registered images: "
                     ++ PyList.str_of_nat (length images))%string])).
Proof.
  intros Hr Hgood.
  set (f32 := filter (fun img => String.eqb (architecture X img) "i386") images).
  set (f64 := filter (fun img => String.eqb (architecture X img) "x86_64") images).
  exists (PyList.sort_by (get_key X) f32), (PyList.sort_by (get_key X) f64).
  assert (G32 : forallb has_name (PyList.sort_by (get_key X) f32) = true).
  { rewrite (forallb_perm has_name _ _ (SortFacts.sort_by_perm (get_key X) f32)).
    apply forallb_forall. intros img Hin. unfold f32 in Hin.
    apply filter_In in Hin. destruct Hin as [Hin Ha].
    apply (Hgood img Hin). unfold listed. rewrite Ha. reflexivity. }
  assert (G64 : forallb has_name (PyList.sort_by (get_key X) f64) = true).
  { rewrite (forallb_perm has_name _ _ (SortFacts.sort_by_perm (get_key X) f64)).
    apply forallb_forall. intros img Hin. unfold f64 in Hin.
    apply filter_In in Hin. destruct Hin as [Hin Ha].
    apply (Hgood img Hin). unfold listed. rewrite Ha, orb_true_r. reflexivity. }
  split; [apply SortFacts.sort_by_perm |].
  split; [apply (SortFacts.sort_by_sorted (get_key X)) |].
  split; [apply SortFacts.sort_by_perm |].
  split; [apply (SortFacts.sort_by_sorted (get_key X)) |].
  unfold list_registered_images.
  erewrite (xbind_run _ _ (lift_run _ Hr)).
  2:{ cbv beta zeta. fold f32. fold f64.
      eapply xbind_run.
      { unfold list_images. eapply xbind_run; [apply print_header_run |].
        apply list_images_from_all. exact G32. }
      eapply xbind_run.
      { unfold list_images. eapply xbind_run; [apply print_header_run |].
        apply list_images_from_all. exact G64. }
      reflexivity. }
  f_equal. f_equal. rewrite !map_app. repeat rewrite <- app_assoc. reflexivity.
Qed.

Lemma list_registered_images_listing_witness :
  exists l32 l64,
    Permutation l32
      (filter (fun img => String.eqb (architecture Cloud2.services img) "i386")
              (Cloud.images Cloud2.st_images))
    /\ Sorted (key_le Cloud2.services) l32
    /\ Permutation l64
         (filter (fun img => String.eqb (architecture Cloud2.services img) "x86_64")
                 (Cloud.images Cloud2.st_images))
    /\ Sorted (key_le Cloud2.services) l64
    /\ list_registered_images Cloud2.services (Cloud.fresh Cloud2.st_images)
       = (Ok tt,
          world_of (registered_images Cloud.remote (Cloud.fresh Cloud2.st_images)),
          map Core (trace_of (registered_images Cloud.remote
                                (Cloud.fresh Cloud2.st_images)))
          ++ map Print
               (["Your 32bit Images:"; "------------------"]
                ++ numbered Cloud2.services 0 l32
                ++ [(PyList.nl ++ "Your 64bit Images:")%string; "-------------------"]
                ++ numbered Cloud2.services 0 l64
                ++ [(PyList.nl ++ "total registered images: "
                     ++ PyList.str_of_nat 5)%string])).
Proof.
  refine (list_registered_images_listing Cloud2.services
            (Cloud.fresh Cloud2.st_images) (Cloud.images Cloud2.st_images)
            (world_of (registered_images Cloud.remote (Cloud.fresh Cloud2.st_images)))
            (trace_of (registered_images Cloud.remote (Cloud.fresh Cloud2.st_images)))
            eq_refl _).
  intros img Hin _. simpl in Hin.
  repeat (destruct Hin as [<- | Hin]; [reflexivity |]). destruct Hin.
Defined.

Example list_registered_images_prints :
  printed (xtrace_of (list_registered_images Cloud2.services
                        (Cloud.fresh Cloud2.st_images)))
  = ["Your 32bit Images:";
     "------------------";
     "[0] ami-32000002 us-east-1 a";
     "[1] ami-32000001 us-east-1 b";
     (PyList.nl ++ "Your 64bit Images:")%string;
     "-------------------";
     "[0] ami-64000001 us-east-1 g";
     "[1] ami-64000002 us-east-1 z";
     (PyList.nl ++ "total registered images: 5")%string].
Proof. reflexivity. Qed.

Lemma forallb_false_intro {A} (P : A -> bool) l x :
  In x l -> P x = false -> forallb P l = false.
Proof.
  intros Hin Hx. destruct (forallb P l) eqn:E; [| reflexivity].
  rewrite forallb_forall in E. rewrite (E x Hin) in Hx. discriminate.
Qed.

(** X17: One registered image of a listed architecture whose location has no
    ['/'] is enough for [list_registered_images] to raise [IndexError]: the
    listing breaks off at that image and the total is never printed. *)
Theorem list_registered_images_bad_location (X : Services) w images w1 t bad :
  registered_images (core X) w = (Ok images, w1, t) ->
  In bad images -> listed X bad = true -> has_name bad = false ->
  xoutcome_of (list_registered_images X w) = Raise IndexError
  /\ xworld_of (list_registered_images X w) = w1.
Proof.
  intros Hr Hin Hl Hb.
  set (f32 := filter (fun img => String.eqb (architecture X img) "i386") images).
  set (f64 := filter (fun img => String.eqb (architecture X img) "x86_64") images).
  assert (Hbad : forallb has_name (PyList.sort_by (get_key X) f32) = false
                 \/ forallb has_name (PyList.sort_by (get_key X) f64) = false).
  { unfold listed in Hl. apply orb_true_iff in Hl. destruct Hl as [Ha | Ha].
    - left. rewrite (forallb_perm has_name _ _ (SortFacts.sort_by_perm (get_key X) f32)).
      apply (forallb_false_intro has_name f32 bad); [| exact Hb].
      apply filter_In. auto.
    - right. rewrite (forallb_perm has_name _ _ (SortFacts.sort_by_perm (get_key X) f64)).
      apply (forallb_false_intro has_name f64 bad); [| exact Hb].
      apply filter_In. auto. }
  unfold list_registered_images.
  destruct (forallb has_name (PyList.sort_by (get_key X) f32)) eqn:G32.
  - destruct Hbad as [Hbad | Hbad]; [discriminate |].
    destruct (list_images_from_some_bad X _ 0 w1 Hbad) as [t64 H64].
    erewrite (xbind_run _ _ (lift_run _ Hr)).
    2:{ cbv beta zeta. fold f32. fold f64.
        eapply xbind_run.
        { unfold list_images. eapply xbind_run; [apply print_header_run |].
          apply list_images_from_all. exact G32. }
        apply xbind_raise.
        unfold list_images. eapply xbind_run; [apply print_header_run | exact H64]. }
    split; reflexivity.
  - destruct (list_images_from_some_bad X _ 0 w1 G32) as [t32 H32].
    erewrite (xbind_run _ _ (lift_run _ Hr)).
    2:{ cbv beta zeta. fold f32. fold f64.
        apply xbind_raise.
        unfold list_images. eapply xbind_run; [apply print_header_run | exact H32]. }
    split; reflexivity.
Qed.

Lemma list_registered_images_bad_location_witness :
  xoutcome_of (list_registered_images Cloud2.services
                 (Cloud.fresh Cloud2.st_bad_location))
  = Raise IndexError.
Proof.
  refine (proj1 (list_registered_images_bad_location Cloud2.services
                   (Cloud.fresh Cloud2.st_bad_location)
                   (Cloud.images Cloud2.st_bad_location)
                   (world_of (registered_images Cloud.remote
                                (Cloud.fresh Cloud2.st_bad_location)))
                   (trace_of (registered_images Cloud.remote
                                (Cloud.fresh Cloud2.st_bad_location)))
                   (mkImage "ami-32000002" "alpha.manifest.xml")
                   eq_refl _ eq_refl eq_refl)).
  simpl. right. left. reflexivity.
Defined.

(** ** Instances *)

Lemma fold_extend (l : list Reservation) : forall acc,
  fold_left (fun acc res => acc ++ instances res) l acc
  = acc ++ concat (map instances l).
Proof.
  induction l as [| res l IH]; intros acc; simpl.
  - rewrite app_nil_r. reflexivity.
  - rewrite IH, app_assoc. reflexivity.
Qed.

Lemma flat_map_length_7 (l : list Instance) :
  length (flat_map instance_lines l) = 7 * length l.
Proof. induction l as [| i l IH]; simpl; [reflexivity | rewrite IH; lia]. Qed.

Lemma printed_prints lines : printed (map Print lines) = lines.
Proof. induction lines as [| l ls IH]; simpl; [reflexivity | rewrite IH; reflexivity]. Qed.

Lemma filter_xmutating_prints lines : filter xmutating (map Print lines) = [].
Proof. induction lines as [| l ls IH]; simpl; auto. Qed.

(** X18: [list_all_instances] prints seven lines for every instance of every
    reservation, in the order of the answer, a reservation without
    instances giving none; it logs "No instances found" exactly when the
    answer holds no instance at all; and it makes the one call. *)
Theorem list_all_instances_lines (X : Services) w c w1 t reservations rs :
  conn (core X) w = (Ok c, w1, t) ->
  conn_get_all_instances X c [] (remote w1) = (inr reservations, rs) ->
  xoutcome_of (list_all_instances X w) = Ok tt
  /\ printed (xtrace_of (list_all_instances X w))
     = flat_map instance_lines (concat (map instances reservations))
  /\ length (printed (xtrace_of (list_all_instances X w)))
     = 7 * length (concat (map instances reservations))
  /\ (In (Core (Log INFO "No instances found")) (xtrace_of (list_all_instances X w))
      <-> concat (map instances reservations) = [])
  /\ filter xmutating (xtrace_of (list_all_instances X w)) = [].
Proof.
  intros Hc Ha.
  pose proof (conn_quiet (core X) ec2_base set_ec2_base w) as Hq.
  fold (conn (core X)) in Hq. rewrite Hc in Hq. unfold trace_of in Hq. cbn [snd] in Hq.
  assert (Hni : forallb not_info t = true).
  { assert (H : emits_only not_info (conn (core X)))
      by (unfold conn, EasyAWS_conn; trace_tac).
    specialize (H w). rewrite Hc in H. exact H. }
  set (insts := concat (map instances reservations)).
  assert (Hget : get_all_instances X [] w
                 = (Ok insts, mkWorld (self w1) rs,
                    map Core t ++ [GetAllInstances c []])).
  { unfold get_all_instances.
    erewrite (xbind_run _ _ (lift_run _ Hc)).
    2:{ eapply xbind_run; [apply (xcall_ok _ _ Ha) | reflexivity]. }
    rewrite fold_extend. simpl. reflexivity. }
  assert (Hloop : forall (l : list Instance) (w0 : world (core X)),
             xfor_each X l (fun instance =>
               let id := or_NA (inst_id instance) in
               let dns_name := or_NA (dns_name instance) in
               let state := or_NA (state instance) in
               let private_ip := or_NA (private_ip_address instance) in
               let public_ip := or_NA (ip_address instance) in
               let zone := or_NA (placement instance) in
               print ("id: " ++ id)%string ;;
               print ("dns_name: " ++ dns_name)%string ;;
               print ("state: " ++ state)%string ;;
               print ("public ip: " ++ public_ip)%string ;;
               print ("private_ip: " ++ private_ip)%string ;;
               print ("zone: " ++ zone)%string ;;
               print "")%x w0
             = (Ok tt, w0, map Print (flat_map instance_lines l))).
  { induction l as [| i l IH]; intros w0; [reflexivity |].
    cbn [xfor_each flat_map]. rewrite map_app.
    eapply xbind_run; [reflexivity | apply IH]. }
  assert (Hrun : list_all_instances X w
                 = (Ok tt, mkWorld (self w1) rs,
                    (map Core t ++ [GetAllInstances c []])
                    ++ (match insts with
                        | [] => [Core (Log INFO "No instances found")]
                        | _ :: _ => []
                        end)
                    ++ map Print (flat_map instance_lines insts))).
  { unfold list_all_instances.
    eapply xbind_run; [exact Hget |].
    eapply xbind_run; [| apply Hloop].
    destruct insts; reflexivity. }
  rewrite Hrun. unfold xoutcome_of, xtrace_of. cbn [fst snd].
  split; [reflexivity |].
  assert (Hp : printed ((map Core t ++ [GetAllInstances c []])
                        ++ (match insts with
                            | [] => [Core (Log INFO "No instances found")]
                            | _ :: _ => []
                            end)
                        ++ map Print (flat_map instance_lines insts))
               = flat_map instance_lines insts).
  { rewrite !printed_app, printed_core, printed_prints.
    destruct insts; reflexivity. }
  split; [exact Hp |]. split; [rewrite Hp; apply flat_map_length_7 |]. split.
  - split.
    + intros Hin. destruct insts as [| i l] eqn:E; [reflexivity |]. exfalso.
      rewrite !in_app_iff in Hin. destruct Hin as [[Hin | Hin] | [Hin | Hin]].
      * apply in_map_iff in Hin. destruct Hin as (e & He & Hin).
        inversion He; subst.
        rewrite forallb_forall in Hni. specialize (Hni _ Hin). discriminate.
      * destruct Hin as [Hin | []]. discriminate.
      * destruct Hin.
      * apply in_map_iff in Hin. destruct Hin as (line & Hl & _). discriminate.
    + intros ->. rewrite !in_app_iff. right. left. left. reflexivity.
  - rewrite !filter_app, (filter_xmutating_quiet _ Hq).
    rewrite filter_xmutating_prints. destruct insts; reflexivity.
Qed.

Lemma list_all_instances_lines_witness :
  printed (xtrace_of (list_all_instances Cloud2.services (Cloud.fresh Scenario.st)))
  = ["id: i-0001"; "dns_name: ec2-1.example.com"; "state: running";
     "public ip: 54.0.0.1"; "private_ip: 10.0.0.1"; "zone: us-east-1a"; "";
     "id: i-0002"; "dns_name: N/A"; "state: pending";
     "public ip: N/A"; "private_ip: N/A"; "zone: us-east-1a"; ""].
Proof.
  exact (proj1 (proj2 (list_all_instances_lines Cloud2.services
                         (Cloud.fresh Scenario.st) 0
                         (world_of (conn Cloud.remote (Cloud.fresh Scenario.st)))
                         (trace_of (conn Cloud.remote (Cloud.fresh Scenario.st)))
                         Cloud2.reservations Scenario.st eq_refl eq_refl))).
Defined.

(** ** Listing the files of an image *)

Lemma print_names_run (X : Services) (files : list Key) : forall w : world (core X),
  xfor_each X files (fun file => print (key_name file)) w
  = (Ok tt, w, map Print (map key_name files)).
Proof.
  induction files as [| f fs IH]; intros w; [reflexivity |].
  cbn [xfor_each map]. change (Print ?l :: ?t) with ([Print l] ++ t).
  eapply xbind_run; [reflexivity | apply IH].
Qed.

(** X19: For a registered image whose bucket exists, [list_image_files] prints
    the keys of the bucket that start with the image's prefix, one per
    line and in the order of the bucket, and leaves the store as it was. *)
Theorem list_image_files_prints image_id (w : world Cloud.remote) image ks :
  found (remote w) image_id = Some image ->
  Cloud.lookup (PyStr.split_head (location image) "/") (Cloud.buckets (remote w))
    = Some ks ->
  xoutcome_of (list_image_files Cloud2.services image_id w) = Ok tt
  /\ printed (xtrace_of (list_image_files Cloud2.services image_id w))
     = filter (fun k => PyStr.startswith k (image_prefix image)) ks
  /\ remote (xworld_of (list_image_files Cloud2.services image_id w)) = remote w.
Proof.
  intros Hi Hb.
  destruct (CloudFacts.get_image_files_ok image_id w image ks Hi Hb)
    as (w1 & t & Hrun & Hr).
  unfold list_image_files.
  erewrite (xbind_run _ _ (lift_run (X := Cloud2.services) _ Hrun)).
  2:{ apply print_names_run. }
  unfold xoutcome_of, xtrace_of, xworld_of. cbn [fst snd].
  split; [reflexivity |]. split; [| exact Hr].
  rewrite printed_app, printed_core, printed_prints.
  unfold Cloud.keys_with_prefix. rewrite map_map. simpl. apply map_id.
Qed.

Lemma list_image_files_prints_witness :
  printed (xtrace_of (list_image_files Cloud2.services Scenario.ami
                        (Cloud.fresh Scenario.st)))
  = ["img.manifest.xml"; "img.part.0"; "img.part.1"].
Proof.
  exact (proj1 (proj2 (list_image_files_prints Scenario.ami (Cloud.fresh Scenario.st)
                         (mkImage Scenario.ami "mybucket/img.manifest.xml")
                         ["img.manifest.xml"; "img.part.0"; "img.part.1"; "other.part.0"]
                         eq_refl eq_refl))).
Defined.

(** ** The dry run of the file phase *)

Lemma printed_keys_app t1 t2 :
  printed_keys (t1 ++ t2) = printed_keys t1 ++ printed_keys t2.
Proof.
  induction t1 as [| e t1 IH]; simpl; [reflexivity |].
  destruct e; simpl; rewrite IH; reflexivity.
Qed.

Lemma printed_keys_map files : printed_keys (map PrintKey files) = files.
Proof. induction files as [| f fs IH]; simpl; [reflexivity | rewrite IH; reflexivity]. Qed.

Lemma print_keys_run (B : Remote) files : forall w : world B,
  for_each B files (fun file => emit (PrintKey file)) w
  = (Ok tt, w, map PrintKey files).
Proof.
  induction files as [| f fs IH]; intros w; [reflexivity |].
  cbn [for_each map]. change (PrintKey f :: ?t) with ([PrintKey f] ++ t).
  eapply bind_run; [reflexivity | apply IH].
Qed.

(** The accessors of the workflow print no file. *)
Lemma printed_keys_reads (B : Remote) image_id w :
  printed_keys (trace_of (get_image B image_id w)) = []
  /\ printed_keys (trace_of (get_image_files B image_id w)) = [].
Proof.
  assert (Hnil : forall t, forallb (fun e => match e with PrintKey _ => false | _ => true end) t = true
                           -> printed_keys t = []).
  { induction t as [| e t IH]; simpl; [reflexivity |].
    intros H. apply andb_true_iff in H. destruct H as [He Ht].
    destruct e; try discriminate; auto. }
  assert (Hc : forall base set_base,
             emits_only (fun e => match e with PrintKey _ => false | _ => true end)
               (EasyAWS_conn B base set_base))
    by (intros; unfold EasyAWS_conn; trace_tac).
  assert (Hg : forall i,
             emits_only (fun e => match e with PrintKey _ => false | _ => true end)
               (get_image B i))
    by (intros; unfold get_image, conn, index0; trace_tac).
  assert (Hf : forall i,
             emits_only (fun e => match e with PrintKey _ => false | _ => true end)
               (get_image_files B i))
    by (intros; unfold get_image_files, s3_get_bucket, s3_conn; trace_tac).
  split; apply Hnil; [apply Hg | apply Hf].
Qed.

(** X20: For a registered image with files, the dry run of the file phase
    prints every file of the image once, in listing order, deletes
    nothing, leaves the store as it was, and, as the files are still
    there when it looks again, always ends on the line "Not all files
    deleted, would recurse...exiting". *)
Theorem remove_image_files_dry_run_reports fuel image_id (w : world Cloud.remote)
    image ks :
  found (remote w) image_id = Some image ->
  Cloud.lookup (PyStr.split_head (location image) "/") (Cloud.buckets (remote w))
    = Some ks ->
  Cloud.keys_with_prefix (PyStr.split_head (location image) "/")
    (image_prefix image) ks <> [] ->
  exists w' t,
    remove_image_files Cloud.remote fuel image_id true w
    = (Ok tt, w',
       t ++ [Log INFO "Not all files deleted, would recurse...exiting"])
    /\ printed_keys t
       = Cloud.keys_with_prefix (PyStr.split_head (location image) "/")
           (image_prefix image) ks
    /\ forallb quiet t = true
    /\ remote w' = remote w.
Proof.
  intros Hi Hb Hne.
  destruct (CloudFacts.get_image_ok image_id w) as (w1 & t1 & H1 & R1).
  rewrite Hi in H1.
  assert (S1 : registered_with image_id image ks (remote w1))
    by (rewrite R1; split; assumption).
  destruct (CloudFacts.get_image_files_ok image_id w1 image ks (proj1 S1) (proj2 S1))
    as (w2 & t2 & H2 & R2).
  assert (S2 : registered_with image_id image ks (remote w2)) by (rewrite R2; exact S1).
  destruct (CloudFacts.get_image_files_ok image_id w2 image ks (proj1 S2) (proj2 S2))
    as (w3 & t3 & H3 & R3).
  set (files := Cloud.keys_with_prefix (PyStr.split_head (location image) "/")
                  (image_prefix image) ks) in *.
  assert (Hlen : negb (Nat.eqb (length files) 0) = true)
    by (destruct files; [congruence | reflexivity]).
  assert (Hrun : remove_image_files Cloud.remote fuel image_id true w
                 = (Ok tt, w3,
                    t1 ++ t2 ++ map PrintKey files ++ t3
                    ++ [Log INFO "Not all files deleted, would recurse...exiting"])).
  { rewrite remove_image_files_pretend_fuel. simpl.
    eapply bind_run; [exact H1 |]. cbv beta iota.
    eapply bind_run; [exact H2 |].
    eapply bind_run; [apply print_keys_run |].
    eapply bind_run; [exact H3 |].
    rewrite Hlen. reflexivity. }
  exists w3, (t1 ++ t2 ++ map PrintKey files ++ t3).
  split; [| split; [| split]].
  - rewrite Hrun. repeat rewrite <- app_assoc. reflexivity.
  - rewrite !printed_keys_app, printed_keys_map.
    pose proof (proj1 (printed_keys_reads Cloud.remote image_id w)) as P1.
    pose proof (proj2 (printed_keys_reads Cloud.remote image_id w1)) as P2.
    pose proof (proj2 (printed_keys_reads Cloud.remote image_id w2)) as P3.
    rewrite H1 in P1. rewrite H2 in P2. rewrite H3 in P3.
    unfold trace_of in P1, P2, P3. cbn [snd] in P1, P2, P3.
    rewrite P1, P2, P3, app_nil_r. reflexivity.
  - rewrite !forallb_app.
    rewrite (CloudFacts.run_quiet (get_image_quiet _ _) H1).
    rewrite (CloudFacts.run_quiet (get_image_files_quiet _ _) H2).
    rewrite (CloudFacts.run_quiet (get_image_files_quiet _ _) H3).
    replace (forallb quiet (map PrintKey files)) with true; [reflexivity |].
    symmetry. clear. induction files; simpl; auto.
  - rewrite R3, R2. exact R1.
Qed.

Lemma remove_image_files_dry_run_reports_witness :
  exists w' t,
    remove_image_files Cloud.remote 2 Scenario.ami true (Cloud.fresh Scenario.st)
    = (Ok tt, w',
       t ++ [Log INFO "Not all files deleted, would recurse...exiting"])
    /\ printed_keys t
       = [mkKey "mybucket" "img.manifest.xml"; mkKey "mybucket" "img.part.0";
          mkKey "mybucket" "img.part.1"]
    /\ forallb quiet t = true
    /\ remote w' = Scenario.st.
Proof.
  refine (remove_image_files_dry_run_reports 2 Scenario.ami (Cloud.fresh Scenario.st)
            (mkImage Scenario.ami "mybucket/img.manifest.xml")
            ["img.manifest.xml"; "img.part.0"; "img.part.1"; "other.part.0"]
            eq_refl eq_refl _).
  discriminate.
Defined.

(** ** An authenticator that fails *)

(** X21: A failed authentication is not remembered: when the authenticator
    raises on a read of [conn], the read raises that error, [_conn] stays
    [None], and the next read calls the authenticator again. *)
Theorem conn_failure_not_memoized (B : Remote) p w msg rs :
  _conn (base_of p (self w)) = None ->
  connect B (connection_authenticator (base_of p (self w)))
    (aws_access_key (base_of p (self w)))
    (aws_secret_access_key (base_of p (self w))) (remote w) = (inl msg, rs) ->
  conn_of B p w
  = (Raise (BotoError msg), mkWorld (self w) rs,
     [Log DEBUG "creating self._conn";
      Authenticate (connection_authenticator (base_of p (self w)))
        (aws_access_key (base_of p (self w)))
        (aws_secret_access_key (base_of p (self w)))])
  /\ forall rs',
       trace_of (conn_of B p (mkWorld (self w) rs'))
       = [Log DEBUG "creating self._conn";
          Authenticate (connection_authenticator (base_of p (self w)))
            (aws_access_key (base_of p (self w)))
            (aws_secret_access_key (base_of p (self w)))].
Proof.
  intros Hn Hc. split.
  - unfold conn_of, EasyAWS_conn, bind, get_self. rewrite Hn.
    unfold log_debug, emit, call, put_self, ret. simpl. rewrite Hc. reflexivity.
  - intros rs'. apply (conn_of_first B p (mkWorld (self w) rs')). exact Hn.
Qed.

Lemma conn_failure_not_memoized_witness :
  conn_of Offline.remote ComputeSide (Offline.fresh Scenario.st)
  = (Raise (BotoError "NoAuthHandlerFound"), Offline.fresh Scenario.st,
     [Log DEBUG "creating self._conn"; Authenticate EC2 "AKID" "SECRET"]).
Proof.
  exact (proj1 (conn_failure_not_memoized Offline.remote ComputeSide
                  (Offline.fresh Scenario.st) "NoAuthHandlerFound" Scenario.st
                  eq_refl eq_refl)).
Defined.
